(** * Table reconciliation engine of the PDF extractor

    A shallow embedding of the table-handling methods of
    [src/document_processing/extractors/pdf.py]:
    [_detect_table_borders], [_extract_tables_unified], the three backend
    converters, [_handle_cross_page_tables], [_are_tables_related],
    [_are_headers_similar], [_string_similarity], [_merge_tables] and
    [_refine_table_structure]; of the page loop [extract_tables] that
    calls them, with [_get_table_context]; and of [_regions_overlap]
    and the layout methods ([_get_base_font_size],
    [_process_text_block], [_determine_element_type],
    [_merge_related_elements], [_analyze_page_layout],
    [_process_document_structure], [_determine_heading_level]).

    Conventions of the embedding.
    - A table is a Python [dict] with string keys: a [gmap string pyval].
    - A Python value is a [pyval]; a [float] held in a table or in a
      layout record is idealised as a rational number ([Q]).  The
      coordinates of drawings, on whose rounded length
      [_detect_table_borders] decides, are values of a float type given
      by its operations ([PyFloat]).
    - A Python [str] is a [string] read as a sequence of code points below
      256; [lower], [strip] and [split] follow Python on that range.
    - A computation that can raise returns [option]: [None] is "an
      exception was raised".  [try]/[except] is a match on that option. *)

From Stdlib Require Import ZArith QArith List String Ascii Lia Lqa Bool.
From Stdlib Require Import Qabs Permutation Sorted DecimalString DecimalZ.
From Stdlib Require Import SpecFloat.
From stdpp Require Import base option gmap strings list.

Set Default Proof Using "Type".

(* ================================================================== *)
(** * Python values *)
(* ================================================================== *)

#[warnings="-register-all"]
Inductive pyval : Type :=
| PNone
| PBool (b : bool)
| PInt (z : Z)
| PFloat (q : Q)
| PStr (s : string)
| PList (l : list pyval)
| PTuple (l : list pyval).

(** A table, as the extractor passes it around: [Dict[str, Any]]. *)
Abbreviation table := (gmap string pyval).

(** [bool(v)]: the truth value Python gives to [v] in [if v] / [not v]. *)
Definition py_truthy (v : pyval) : bool :=
  match v with
  | PNone => false
  | PBool b => b
  | PInt z => negb (z =? 0)%Z
  | PFloat q => negb (Qeq_bool q 0)
  | PStr s => negb (String.eqb s "")
  | PList l => match l with [] => false | _ => true end
  | PTuple l => match l with [] => false | _ => true end
  end.

(** The number a value stands for in arithmetic ([bool] is a subclass of
    [int]); [None] when [-], [+] or [<] on it raises [TypeError]. *)
Definition py_num (v : pyval) : option Q :=
  match v with
  | PBool b => Some (if b then 1 else 0)%Q
  | PInt z => Some (inject_Z z)
  | PFloat q => Some q
  | _ => None
  end.

(** [a == b] on Python values: numbers compare by value across [bool],
    [int] and [float]; sequences compare element-wise, a list never equals
    a tuple. *)
Fixpoint py_eq (a b : pyval) {struct a} : bool :=
  let fix all_eq (l1 l2 : list pyval) {struct l1} : bool :=
    match l1, l2 with
    | [], [] => true
    | x :: l1', y :: l2' => py_eq x y && all_eq l1' l2'
    | _, _ => false
    end in
  match a, b with
  | PNone, PNone => true
  | PStr s1, PStr s2 => String.eqb s1 s2
  | PList l1, PList l2 => all_eq l1 l2
  | PTuple l1, PTuple l2 => all_eq l1 l2
  | _, _ =>
      match py_num a, py_num b with
      | Some x, Some y => Qeq_bool x y
      | _, _ => false
      end
  end.

(** [s1 < s2] on two [str]: the first code points that differ decide; a
    proper prefix is smaller. *)
Fixpoint str_lt (s1 s2 : string) : bool :=
  match s1, s2 with
  | EmptyString, EmptyString => false
  | EmptyString, String _ _ => true
  | String _ _, EmptyString => false
  | String c1 s1', String c2 s2' =>
      if Ascii.eqb c1 c2 then str_lt s1' s2'
      else (nat_of_ascii c1 <? nat_of_ascii c2)%nat
  end.

(** [a < b].  Numbers compare by value across [bool], [int] and [float];
    two [str] compare by code points; two lists, or two tuples, compare
    by their first elements that differ under [==], a proper prefix being
    smaller.  Every other pair of operands ([None], a number against a
    [str], a list against a tuple, ...) raises [TypeError]: [None]. *)
Fixpoint py_lt (a b : pyval) {struct a} : option bool :=
  let fix seq_lt (l1 l2 : list pyval) {struct l1} : option bool :=
    match l1, l2 with
    | [], [] => Some false
    | [], _ :: _ => Some true
    | _ :: _, [] => Some false
    | x :: l1', y :: l2' => if py_eq x y then seq_lt l1' l2' else py_lt x y
    end in
  match a, b with
  | PStr s1, PStr s2 => Some (str_lt s1 s2)
  | PList l1, PList l2 => seq_lt l1 l2
  | PTuple l1, PTuple l2 => seq_lt l1 l2
  | _, _ =>
      match py_num a, py_num b with
      | Some x, Some y => Some (negb (Qle_bool y x))
      | _, _ => None
      end
  end.

(** [v + 1] *)
Definition py_succ (v : pyval) : option pyval :=
  match v with
  | PBool b => Some (PInt (if b then 2 else 1))
  | PInt z => Some (PInt (z + 1))
  | PFloat q => Some (PFloat (q + 1))
  | _ => None
  end.

(** [len(v)] *)
Definition py_len (v : pyval) : option nat :=
  match v with
  | PStr s => Some (String.length s)
  | PList l => Some (length l)
  | PTuple l => Some (length l)
  | _ => None
  end.

(** The one-character strings of [s], as [for c in s] yields them. *)
Fixpoint chars_of (s : string) : list pyval :=
  match s with
  | EmptyString => []
  | String c s' => PStr (String c EmptyString) :: chars_of s'
  end.

(** [for x in v]: the elements iteration yields, [None] when [v] is not
    iterable. *)
Definition py_iter (v : pyval) : option (list pyval) :=
  match v with
  | PStr s => Some (chars_of s)
  | PList l => Some l
  | PTuple l => Some l
  | _ => None
  end.

(** [v[i]] for a non-negative literal index [i]. *)
Definition py_index (v : pyval) (i : nat) : option pyval :=
  match py_iter v with
  | Some l => l !! i
  | None => None
  end.

(** [isinstance(v, list)] and [isinstance(v, (list, tuple))]. *)
Definition is_list (v : pyval) : bool :=
  match v with PList _ => true | _ => false end.

Definition is_list_or_tuple (v : pyval) : bool :=
  match v with PList _ | PTuple _ => true | _ => false end.

(* ================================================================== *)
(** * Python strings *)
(* ================================================================== *)

(** [c.isspace()] for a code point below 256: the characters removed by
    [str.strip()] and separating the fields of [str.split()]. *)
Definition is_space (c : ascii) : bool :=
  let n := nat_of_ascii c in
  ((9 <=? n) && (n <=? 13)) || ((28 <=? n) && (n <=? 32))
  || (n =? 133) || (n =? 160).

(** [c.lower()] for a code point below 256. *)
Definition lower_char (c : ascii) : ascii :=
  let n := nat_of_ascii c in
  if ((65 <=? n) && (n <=? 90))
     || ((192 <=? n) && (n <=? 222) && negb (n =? 215))
  then ascii_of_nat (n + 32) else c.

Fixpoint drop_space (l : list ascii) : list ascii :=
  match l with
  | [] => []
  | c :: l' => if is_space c then drop_space l' else l
  end.

Definition strip_chars (l : list ascii) : list ascii :=
  rev (drop_space (rev (drop_space l))).

(** [s.lower()] and [s.strip()] *)
Definition lower (s : string) : string :=
  string_of_list_ascii (map lower_char (list_ascii_of_string s)).

Definition strip (s : string) : string :=
  string_of_list_ascii (strip_chars (list_ascii_of_string s)).

(** [l.split()]: the maximal runs of non-space characters. *)
Definition push_word (w : list ascii) (ws : list (list ascii)) :=
  match w with [] => ws | _ => w :: ws end.

Definition split_step (c : ascii) (acc : list ascii * list (list ascii)) :=
  if is_space c then ([], push_word acc.1 acc.2) else (c :: acc.1, acc.2).

Definition split_chars (l : list ascii) : list (list ascii) :=
  let acc := foldr split_step ([], []) l in push_word acc.1 acc.2.

(** [' '.join(ws)] *)
Fixpoint join_space (ws : list (list ascii)) : list ascii :=
  match ws with
  | [] => []
  | [w] => w
  | w :: ws' => w ++ " "%char :: join_space ws'
  end.

(** [' '.join(s.strip().split())] *)
Definition normalize_ws (s : string) : string :=
  string_of_list_ascii
    (join_space (split_chars (strip_chars (list_ascii_of_string s)))).

(** A text is trimmed when neither end is a space. *)
Definition trimmed (l : list ascii) : Prop :=
  drop_space l = l ∧ drop_space (rev l) = rev l.

(** Words as [split()] yields them: not empty and free of white space. *)
Definition clean_words (ws : list (list ascii)) : Prop :=
  Forall (fun w => w ≠ [] ∧ forallb (fun c => negb (is_space c)) w = true) ws.

(** [s] has no character other than white space (the empty string too). *)
Definition whitespace_only (s : string) : bool :=
  forallb is_space (list_ascii_of_string s).

(** The decimal text of an integer, as an f-string prints it. *)
Definition str_of_Z (z : Z) : string := NilZero.string_of_int (Z.to_int z).

(* ================================================================== *)
(** * Levenshtein distance *)
(* ================================================================== *)

Section Levenshtein.
Context {A : Type} `{EqDecision A}.

(** [(c1 != c2)] used as a number *)
Definition neq_cost (c1 c2 : A) : nat := if decide (c1 = c2) then 0 else 1.

(** [enumerate(l)] *)
Definition enumerate (l : list A) : list (nat * A) :=
  combine (seq 0 (length l)) l.

(** The body of the inner loop of [_string_similarity]: the value
    appended to [current_row] for column [j]. *)
Definition lev_cell (previous_row current_row : list nat)
    (c1 : A) (j : nat) (c2 : A) : nat :=
  let insertions := nth (j + 1) previous_row 0 + 1 in
  let deletions := nth j current_row 0 + 1 in
  let substitutions := nth j previous_row 0 + neq_cost c1 c2 in
  Nat.min insertions (Nat.min deletions substitutions).

(** One pass of the outer loop: [current_row] built from [previous_row]
    for the character [c1] at index [i] of [s1]. *)
Definition lev_row (s2 : list A) (previous_row : list nat)
    (i : nat) (c1 : A) : list nat :=
  fold_left
    (fun current_row jc => current_row ++
       [lev_cell previous_row current_row c1 jc.1 jc.2])
    (enumerate s2) [i + 1].

(** The two-row dynamic programme of [_string_similarity]:
    [previous_row[-1]] after the outer loop. *)
Definition lev_distance (s1 s2 : list A) : nat :=
  let previous_row :=
    fold_left (fun previous_row ic => lev_row s2 previous_row ic.1 ic.2)
      (enumerate s1) (seq 0 (length s2 + 1)) in
  List.last previous_row 0.

(** The Levenshtein distance by its defining recurrence on the first
    characters of the two strings. *)
Fixpoint levenshtein (s t : list A) {struct s} : nat :=
  match s with
  | [] => length t
  | a :: s' =>
      (fix against (t : list A) : nat :=
         match t with
         | [] => length s
         | b :: t' =>
             Nat.min (levenshtein s' t + 1)
               (Nat.min (against t' + 1) (levenshtein s' t' + neq_cost a b))
         end) t
  end.

(** The row of the distance matrix for the prefix [p] of the first
    string: the distances from [p] to every prefix of [t]; and the part
    of the row for [p ++ [c1]] that is filled after [n] columns. *)
Definition matrix_row (p t : list A) : list nat :=
  map (fun j => levenshtein p (take j t)) (seq 0 (length t + 1)).

Definition partial_row (p : list A) (c1 : A) (t : list A) (n : nat) : list nat :=
  map (fun j => levenshtein (p ++ [c1]) (take j t)) (seq 0 (n + 1)).

(** [edits s t n]: [t] is obtained from [s] by a script of [n]
    single-character insertions, deletions and substitutions. *)
Inductive edits : list A -> list A -> nat -> Prop :=
| edits_nil : edits [] [] 0
| edits_keep a s t n : edits s t n -> edits (a :: s) (a :: t) n
| edits_subst a b s t n : edits s t n -> edits (a :: s) (b :: t) (S n)
| edits_delete a s t n : edits s t n -> edits (a :: s) t (S n)
| edits_insert b s t n : edits s t n -> edits s (b :: t) (S n).
End Levenshtein.

(* ================================================================== *)
(** * String and header similarity *)
(* ================================================================== *)

Definition Qltb (x y : Q) : bool := negb (Qle_bool y x).

Definition Q_of_nat (n : nat) : Q := inject_Z (Z.of_nat n).

Definition is_empty (s : string) : bool := String.eqb s "".

(** [_string_similarity(s1, s2)] for two [str] arguments.  The method
    calls itself once with the arguments swapped when [s1] is the shorter
    string; [fuel] bounds the depth of that recursion. *)
Fixpoint string_similarity_rec (fuel : nat) (s1 s2 : string) : option Q :=
  match fuel with
  | O => None
  | S fuel' =>
      (* Normalize strings *)
      let s1 := strip (lower s1) in
      let s2 := strip (lower s2) in
      (* If either string is empty, return 0 similarity *)
      if is_empty s1 || is_empty s2 then Some 0%Q
      (* If strings are identical, return 1.0 *)
      else if String.eqb s1 s2 then Some 1%Q
      (* swap strings if s1 is shorter than s2 *)
      else if (String.length s1 <? String.length s2)%nat
      then string_similarity_rec fuel' s2 s1
      else
        let distance :=
          lev_distance (list_ascii_of_string s1) (list_ascii_of_string s2) in
        let max_len := Nat.max (String.length s1) (String.length s2) in
        Some (if (0 <? max_len)%nat
              then (1 - Q_of_nat distance / Q_of_nat max_len)%Q
              else 1%Q)
  end.

(** Two nested calls are all the method ever makes. *)
Definition string_similarity (s1 s2 : string) : Q :=
  default 0%Q (string_similarity_rec 2 s1 s2).

(** [str(v)] for a value that is not a [str]: the text comes from the
    [__str__] protocol of the object and is left abstract. *)
Class ObjectStr := str_of_object : pyval -> string.

(** An instance for running examples: [None], booleans and integers
    print as in Python, every other object as a fixed text. *)
Definition display_str : ObjectStr := fun v =>
  match v with
  | PNone => "None"
  | PBool b => if b then "True" else "False"
  | PInt z => str_of_Z z
  | _ => "<object>"
  end.

(** [list.sort] when one of its comparisons raises.  CPython takes the
    items out of the list object while it sorts them and puts them back
    before the exception leaves [sort]: the list then holds the elements
    it held at the call, in an order that depends on how far the merge
    sort had come.  That order is left open: [interrupted_sort l] is the
    list of the tables of the keyed list [l] as such a sort leaves it,
    and all that is known of it is that it is a permutation. *)
Class InterruptedSort := {
  interrupted_sort : list ((pyval * pyval) * table) -> list table;
  interrupted_sort_perm l : interrupted_sort l ≡ₚ l.*2
}.

Section Extractor.
Context `{ObjectStr} `{InterruptedSort}.

(** [str(v)], also what an f-string prints for [v]. *)
Definition py_str (v : pyval) : string :=
  match v with
  | PStr s => s
  | _ => str_of_object v
  end.

(** The header rule in the words of the specification.  A header is
    compared trimmed and without regard to case; the similarity of two
    such strings is [1 - distance / max_len], which has no value when both
    are empty; a column is counted when its similarity exceeds 0.8. *)
Definition header_key (h : pyval) : string := lower (strip (py_str h)).

Definition normalized_levenshtein (a b : string) : option Q :=
  let max_len := Nat.max (String.length a) (String.length b) in
  if (max_len =? 0)%nat then None
  else Some (1 - Q_of_nat (levenshtein (list_ascii_of_string a)
                                       (list_ascii_of_string b))
                 / Q_of_nat max_len)%Q.

Definition exceeds (similarity : option Q) (threshold : Q) : bool :=
  match similarity with
  | Some q => Qltb threshold q
  | None => false
  end.

Definition similar_columns (headers1 headers2 : list pyval) : nat :=
  length (filter
    (fun p => exceeds (normalized_levenshtein (header_key p.1) (header_key p.2))
                (8 # 10) = true)
    (zip headers1 headers2)).

(** [_are_headers_similar(headers1, headers2)] *)
Definition are_headers_similar (headers1 headers2 : pyval) : bool :=
  (* Safety checks *)
  if negb (py_truthy headers1) || negb (py_truthy headers2) then false
  else
    match headers1, headers2 with
    | PList h1, PList h2 =>
        (* Convert all headers to strings for comparison *)
        let str_headers1 := map (fun h => lower (strip (py_str h))) h1 in
        let str_headers2 := map (fun h => lower (strip (py_str h))) h2 in
        (* If lengths are different, headers are not similar *)
        if negb (length str_headers1 =? length str_headers2)%nat then false
        else
          let similarity_count :=
            length (filter (fun p => Qltb (8 # 10) (string_similarity p.1 p.2) = true)
                      (combine str_headers1 str_headers2)) in
          let similarity_ratio :=
            match str_headers1 with
            | [] => 0%Q
            | _ => (Q_of_nat similarity_count / Q_of_nat (length str_headers1))%Q
            end in
          Qltb (7 # 10) similarity_ratio
    | _, _ => false
    end.

(* ================================================================== *)
(** * Cross-page tables *)
(* ================================================================== *)

(** [d.get(key, dflt)] *)
Definition dict_get (d : table) (key : string) (dflt : pyval) : pyval :=
  default dflt (d !! key).

(** [len(data[0]) if data and isinstance(data, list) and len(data) > 0
     and isinstance(data[0], list) else 0] *)
Definition col_count (data : pyval) : nat :=
  match data with
  | PList (PList row :: _) => length row
  | _ => 0
  end.

(** [data[0] if isinstance(data[0], list) else []], read where [data] is a
    non-empty list. *)
Definition header_row (data : pyval) : pyval :=
  match data with
  | PList (PList row :: _) => PList row
  | _ => PList []
  end.

(** [max(a, b)] *)
Definition py_max (a b : Q) : Q := if Qltb a b then b else a.

(** Part 3 of [_are_tables_related]: the comparison of the bounding-box
    widths.  [Some false] is [return False]; [Some true] falls through to
    the final [return True]. *)
Definition widths_compatible (table1 table2 : table) : option bool :=
  match table1 !! "bbox", table2 !! "bbox" with
  | Some bbox1, Some bbox2 =>
      if is_list_or_tuple bbox1 && is_list_or_tuple bbox2
         && bool_decide (4 <= default 0 (py_len bbox1))
         && bool_decide (4 <= default 0 (py_len bbox2))
      then
        a1 ← py_index bbox1 2 ≫= py_num; a0 ← py_index bbox1 0 ≫= py_num;
        let width1 := (a1 - a0)%Q in
        b1 ← py_index bbox2 2 ≫= py_num; b0 ← py_index bbox2 0 ≫= py_num;
        let width2 := (b1 - b0)%Q in
        (* If widths differ by more than 20%, tables are probably not related *)
        let max_width := py_max width1 width2 in
        if Qltb 0 max_width
           && Qltb (2 # 10) (Qabs (width1 - width2) / max_width)
        then Some false
        else Some true
      else Some true
  | _, _ => Some true
  end.

(** [_are_tables_related(table1, table2)] *)
Definition are_tables_related (table1 table2 : table) : option bool :=
  match table1 !! "data", table2 !! "data" with
  | Some data1, Some data2 =>
      (* Both tables have data *)
      if negb (py_truthy data1) || negb (py_truthy data2) then Some false
      else
        (* Check column count *)
        let col_count1 := col_count data1 in
        let col_count2 := col_count data2 in
        if negb (col_count1 =? col_count2)%nat || (col_count1 =? 0)%nat
        then Some false
        else
          (* 2. Check if headers are similar (if available) *)
          let headers1 := header_row data1 in
          let headers2 := header_row data2 in
          if py_truthy headers1 && py_truthy headers2
             && negb (are_headers_similar headers1 headers2)
          then Some false
          else widths_compatible table1 table2
  | _, _ => widths_compatible table1 table2
  end.

(** The operand of a string concatenation: anything but a [str] makes
    [+] raise. *)
Definition py_as_str (v : pyval) : option string :=
  match v with PStr s => Some s | _ => None end.

(** [1 if (len(data1) > 0 and len(data2) > 0 and
     self._are_headers_similar(data1[0], data2[0])) else 0] *)
Definition start_idx (data1 data2 : list pyval) : nat :=
  match data1, data2 with
  | row1 :: _, row2 :: _ => if are_headers_similar row1 row2 then 1 else 0
  | _, _ => 0
  end.

(** [_merge_tables(table1, table2)] *)
Definition merge_tables (table1 table2 : table) : option table :=
  (* Create a new table with combined data *)
  let merged_table := table1 in
  (* Merge data if available *)
  let merged_table :=
    match table1 !! "data", table2 !! "data" with
    | Some (PList data1), Some (PList data2) =>
        <["data" := PList (data1 ++ drop (start_idx data1 data2) data2)]>
          merged_table
    | _, _ => merged_table
    end in
  (* Merge text content *)
  text1 ← py_as_str (dict_get table1 "text" (PStr ""));
  text2 ← py_as_str (dict_get table2 "text" (PStr ""));
  let merged_table :=
    <["text" := PStr (text1 +:+ String "010"%char "" +:+ text2)]> merged_table in
  (* Update page range *)
  let merged_table :=
    <["page_range" := PList [dict_get table1 "page" (PInt 0);
                             dict_get table2 "page" (PInt 0)]]> merged_table in
  (* Update extraction method *)
  let merged_table :=
    <["extraction_method" :=
        PStr (py_str (dict_get table1 "extraction_method" (PStr "unknown"))
              +:+ "_cross_page")]> merged_table in
  (* Mark as cross-page table *)
  Some (<["is_cross_page" := PBool true]> merged_table).

(** The key of [tables.sort]:
    [(t.get('page', 0), t.get('bbox', [0,0,0,0])[1]
       if 'bbox' in t and len(t.get('bbox', [])) >= 2 else 0)] *)
Definition sort_key (t : table) : option (pyval * pyval) :=
  let page := dict_get t "page" (PInt 0) in
  match t !! "bbox" with
  | Some bbox =>
      n ← py_len bbox;
      if bool_decide (2 <= n) then top ← py_index bbox 1; Some (page, top)
      else Some (page, PInt 0)
  | None => Some (page, PInt 0)
  end.

(** [k1 < k2] on two key tuples: the first components that differ under
    [==] decide. *)
Definition key_lt (k1 k2 : pyval * pyval) : option bool :=
  if py_eq k1.1 k2.1
  then if py_eq k1.2 k2.2 then Some false else py_lt k1.2 k2.2
  else py_lt k1.1 k2.1.

(** [list.sort(key=...)] is stable: an element goes after the elements
    whose key is smaller and before the first one whose key is not. *)
Fixpoint insert_keyed (x : (pyval * pyval) * table)
    (l : list ((pyval * pyval) * table)) : option (list ((pyval * pyval) * table)) :=
  match l with
  | [] => Some [x]
  | h :: l' =>
      lt ← key_lt h.1 x.1;
      if (lt : bool) then l'' ← insert_keyed x l'; Some (h :: l'')
      else Some (x :: h :: l')
  end.

Fixpoint sort_keyed (l : list ((pyval * pyval) * table))
    : option (list ((pyval * pyval) * table)) :=
  match l with
  | [] => Some []
  | x :: l' => sorted ← sort_keyed l'; insert_keyed x sorted
  end.

(** The [while i < len(tables)] loop of [_handle_cross_page_tables] over
    the sorted list: [tables] is the part of the list from index [i] on. *)
Fixpoint merge_scan (tables : list table) : option (list table) :=
  match tables with
  | [] => Some []
  | current_table :: rest =>
      match rest with
      | [] => Some [current_table]
      | next_table :: rest' =>
          (* consecutive pages and similar structure *)
          expected ← py_succ (dict_get current_table "page" (PInt 0));
          related ←
            (if py_eq (dict_get next_table "page" (PInt 0)) expected
             then are_tables_related current_table next_table
             else Some false);
          if (related : bool)
          then
            merged_table ← merge_tables current_table next_table;
            merged_tables ← merge_scan rest';      (* i += 2 *)
            Some (merged_table :: merged_tables)
          else
            merged_tables ← merge_scan rest;       (* i += 1 *)
            Some (current_table :: merged_tables)
      end
  end.

(** What a call of [_handle_cross_page_tables] does. *)
Inductive pass_result : Type :=
| Returned (tables : list table)
    (** normal return *)
| Recovered (tables : list table)
    (** an exception was caught, the warning logged and [tables], in its
        current order, returned *).

(** [_handle_cross_page_tables(tables)].  [tables.sort] sorts the
    argument in place: from there on [tables] is the sorted list. *)
Definition handle_cross_page_tables (tables : list table) : pass_result :=
  if bool_decide (length tables < 2) then Returned tables
  else
    match mapM sort_key tables with
    | None => Recovered tables
    | Some keys =>
        match sort_keyed (zip keys tables) with
        | None =>
            (* a comparison raised inside [tables.sort] *)
            Recovered (interrupted_sort (zip keys tables))
        | Some sorted =>
            let tables := sorted.*2 in
            match merge_scan tables with
            | Some merged_tables => Returned merged_tables
            | None => Recovered tables
            end
        end
    end.

(** A keyed list in which no element has a key below that of its
    predecessor: [tables.sort] leaves such a list as it is. *)
Definition keyed_sorted (l : list ((pyval * pyval) * table)) : Prop :=
  Sorted (fun a b => key_lt b.1 a.1 = Some false) l.

Definition tables_sorted (tables : list table) : Prop :=
  ∃ keys, mapM sort_key tables = Some keys ∧ keyed_sorted (zip keys tables).

(** The keys [_merge_tables] writes. *)
Definition merge_keys : list string :=
  ["data"; "text"; "page_range"; "extraction_method"; "is_cross_page"].

End Extractor.

(* ================================================================== *)
(** * Structure refinement *)
(* ================================================================== *)

(** [cell.strip() if isinstance(cell, str) else cell], as a truth value *)
Definition cell_has_content (cell : pyval) : bool :=
  match cell with
  | PStr s => py_truthy (PStr (strip s))
  | _ => py_truthy cell
  end.

(** [any(cell.strip() if isinstance(cell, str) else cell for cell in row)] *)
Definition row_has_content (row : pyval) : option bool :=
  cells ← py_iter row; Some (existsb cell_has_content cells).

(** [[row for row in rows if any(...)]] *)
Fixpoint filter_content (rows : list pyval) : option (list pyval) :=
  match rows with
  | [] => Some []
  | row :: rows' =>
      keep ← row_has_content row;
      kept ← filter_content rows';
      Some (if (keep : bool) then row :: kept else kept)
  end.

(** [zip( *rows)]: the columns of [rows], as long as the shortest row. *)
Fixpoint zip_star (rows : list (list pyval)) : list (list pyval) :=
  match rows with
  | [] => []
  | [row] => map (fun cell => [cell]) row
  | row :: rows' => zip_with cons row (zip_star rows')
  end.

(** [list(zip( *rows))]: the columns as tuples. *)
Definition transpose (rows : list pyval) : option (list pyval) :=
  cells ← mapM py_iter rows; Some (PTuple <$> zip_star cells).

(** [' '.join(cell.strip().split())] for a [str], any other cell as it is *)
Definition clean_cell (cell : pyval) : pyval :=
  match cell with
  | PStr s => PStr (normalize_ws s)
  | _ => cell
  end.

(** Step 5 for one row *)
Definition clean_row (row : pyval) : option pyval :=
  cells ← py_iter row; Some (PList (clean_cell <$> cells)).

(** Step 2 of [_refine_table_structure]: remove completely empty
    columns. *)
Definition drop_empty_columns (data : list pyval) : option (list pyval) :=
  match data with
  | [] => Some data
  | _ =>
      (* Transpose to work with columns *)
      transposed ← transpose data;
      (* Filter empty columns *)
      transposed ← filter_content transposed;
      (* Transpose back to rows *)
      match transposed with
      | [] => Some data
      | _ => transpose transposed
      end
  end.

(** [_refine_table_structure(table)] *)
Definition refine_table_structure (t : table) : option table :=
  match t !! "data" with
  | None => Some t
  | Some data =>
      if negb (py_truthy data) then Some t
      else
        data ← py_iter data;
        (* 1. Remove completely empty rows *)
        data ← filter_content data;
        (* 2. Remove completely empty columns *)
        data ← drop_empty_columns data;
        (* 3. Normalize header row if present *)
        let headers := dict_get t "headers" (PList []) in
        let '(headers, data) :=
          match data with
          | first :: others =>
              if negb (py_truthy headers) then (first, others)
              else (headers, data)
          | [] => (headers, data)
          end in
        (* 4. Clean and normalize headers *)
        headers ← py_iter headers;
        let cleaned_headers := clean_cell <$> headers in
        (* 5. Clean data cells *)
        cleaned_data ← mapM clean_row data;
        (* Update table with refined data *)
        Some (<["refined" := PBool true]>
               (<["headers" := PList cleaned_headers]>
                 (<["data" := PList cleaned_data]> t)))
  end.

(** The table the last step of [_refine_table_structure] builds from the
    header cells [hs] and the rows of cells [rows]. *)
Definition refined_table (t : table) (hs : list pyval)
    (rows : list (list pyval)) : table :=
  <["refined" := PBool true]>
    (<["headers" := PList (clean_cell <$> hs)]>
      (<["data" := PList (PList <$> (fmap clean_cell <$> rows))]> t)).

(** Rows that all have [n] cells. *)
Definition rectangular (rows : list (list pyval)) (n : nat) : Prop :=
  Forall (fun row => length row = n) rows.

(** A table whose [data], read as rows of cells, has no row and no column
    made of blank cells only. *)
Definition fully_pruned (t : table) : Prop :=
  ∀ rows, t !! "data" = Some (PList (PList <$> rows)) →
    Forall (fun row => existsb cell_has_content row = true) rows ∧
    Forall (fun col => existsb cell_has_content col = true) (zip_star rows).

(* ================================================================== *)
(** * Backend converters *)
(* ================================================================== *)

(** The entries of [self.config['table_extraction']] the methods read,
    each with the default of its [.get] already applied. *)
Record config : Type := {
  cfg_method : string;              (* 'method', default 'auto' *)
  cfg_bordered : string;            (* table_types.bordered, default 'camelot' *)
  cfg_borderless : string;          (* table_types.borderless, default 'tabula' *)
  cfg_fallback_to_heuristic : bool; (* default True *)
  cfg_header_extraction : bool;     (* default True *)
  cfg_min_confidence : Q            (* default 80 *)
}.

Definition default_config : config :=
  {| cfg_method := "auto"; cfg_bordered := "camelot";
     cfg_borderless := "tabula"; cfg_fallback_to_heuristic := true;
     cfg_header_extraction := true; cfg_min_confidence := 80 |}.

(** A pandas [DataFrame]: its rows ([df.values.tolist()]) and the number
    of its columns ([len(df.columns)]). *)
Record dataframe : Type := {
  df_values : list (list pyval);
  df_columns : nat
}.

(** Every row of a data frame has one cell per column. *)
Definition df_wf (df : dataframe) : Prop :=
  Forall (fun row => length row = df_columns df) (df_values df).

(** [df.empty]: no rows or no columns *)
Definition df_empty (df : dataframe) : bool :=
  (length (df_values df) =? 0)%nat || (df_columns df =? 0)%nat.

(** [df.iloc[0].tolist()] and [df.iloc[1:].values.tolist()] *)
Definition df_iloc0 (df : dataframe) : list pyval :=
  default [] (head (df_values df)).

Definition df_iloc_from1 (df : dataframe) : list (list pyval) :=
  tail (df_values df).

Definition py_rows (rows : list (list pyval)) : pyval := PList (PList <$> rows).

(** [f"table_{page_number}_{i+1}"] *)
Definition table_id (page_number : Z) (i : nat) : string :=
  "table_" +:+ str_of_Z page_number +:+ "_" +:+ str_of_Z (Z.of_nat i + 1).

(** A table [camelot.read_pdf] found. *)
Record camelot_table : Type := {
  cam_accuracy : Q;
  cam_bbox : pyval;
  cam_df : dataframe
}.

(** The body of the conversion loop of [_extract_with_camelot] for a table
    that passes the accuracy threshold. *)
Definition camelot_table_dict (cfg : config) (page_number : Z)
    (flavor : string) (i : nat) (tbl : camelot_table) : table :=
  let df := cam_df tbl in
  let table_dict : table :=
    <["id" := PStr (table_id page_number i)]>
    (<["page" := PInt page_number]>
    (<["extraction_method" := PStr ("camelot_" +:+ flavor)]>
    (<["confidence" := PFloat (cam_accuracy tbl / 100)]>
    (<["bbox" := cam_bbox tbl]>
    (<["headers" := PList (if df_empty df then [] else df_iloc0 df)]>
    (<["rows" := py_rows (if df_empty df then [] else df_values df)]>
    (<["num_rows" :=
         PInt (Z.of_nat (if df_empty df then 0 else length (df_values df)))]>
    (<["num_cols" :=
         PInt (Z.of_nat (if df_empty df then 0 else df_columns df))]> ∅))))))))
  in
  (* Extract header if configured *)
  if cfg_header_extraction cfg && negb (df_empty df)
  then <["rows" := py_rows (df_iloc_from1 df)]>
         (<["headers" := PList (df_iloc0 df)]> table_dict)
  else table_dict.

(** [_extract_with_camelot]; [read] is what [camelot.read_pdf] gave for
    the page, [None] when the import or the call raised. *)
Definition extract_with_camelot (cfg : config) (page_number : Z)
    (flavor : string) (read : option (list camelot_table)) : list table :=
  match read with
  | None => []
  | Some tables =>
      omap (fun it : nat * camelot_table =>
              (* Skip tables with low accuracy *)
              if Qltb (cam_accuracy it.2) (cfg_min_confidence cfg) then None
              else Some (camelot_table_dict cfg page_number flavor it.1 it.2))
           (enumerate tables)
  end.

(** The body of the conversion loop of [_extract_with_tabula] for a
    non-empty data frame. *)
Definition tabula_table_dict (cfg : config) (page_number : Z)
    (lattice : bool) (i : nat) (df : dataframe) : table :=
  let table_dict : table :=
    <["id" := PStr (table_id page_number i)]>
    (<["page" := PInt page_number]>
    (<["extraction_method" :=
         PStr ("tabula_" +:+ (if lattice then "lattice" else "guess"))]>
    (<["confidence" := PFloat (7 # 10)]>
    (<["bbox" := PList [PInt 0; PInt 0; PInt 0; PInt 0]]>
    (<["headers" := PList (if df_empty df then [] else df_iloc0 df)]>
    (<["rows" := py_rows (if df_empty df then [] else df_values df)]>
    (<["num_rows" :=
         PInt (Z.of_nat (if df_empty df then 0 else length (df_values df)))]>
    (<["num_cols" :=
         PInt (Z.of_nat (if df_empty df then 0 else df_columns df))]> ∅))))))))
  in
  (* Extract header if configured *)
  if cfg_header_extraction cfg && negb (df_empty df)
  then <["rows" := py_rows (df_iloc_from1 df)]>
         (<["headers" := PList (df_iloc0 df)]> table_dict)
  else table_dict.

(** [_extract_with_tabula]; [read] is the result of [tabula.read_pdf]. *)
Definition extract_with_tabula (cfg : config) (page_number : Z)
    (lattice : bool) (read : option (list dataframe)) : list table :=
  match read with
  | None => []
  | Some tabula_tables =>
      omap (fun it : nat * dataframe =>
              (* Skip empty tables *)
              if df_empty it.2 then None
              else Some (tabula_table_dict cfg page_number lattice it.1 it.2))
           (enumerate tabula_tables)
  end.

(** ['' if cell is None else str(cell).strip()]; pdfplumber cells are
    text or [None]. *)
Definition plumber_cell (cell : option string) : pyval :=
  match cell with
  | None => PStr ""
  | Some s => PStr (strip s)
  end.

(** The body of the conversion loop of [_extract_with_pdfplumber] for a
    non-empty [table_data]. *)
Definition pdfplumber_table_dict (cfg : config) (page_number : Z)
    (vertical_strategy horizontal_strategy : string) (i : nat)
    (table_data : list (list (option string))) : table :=
  (* Clean up rows (remove None values) *)
  let rows : list (list pyval) := map (map plumber_cell) table_data in
  let table_dict : table :=
    <["id" := PStr (table_id page_number i)]>
    (<["page" := PInt page_number]>
    (<["extraction_method" :=
         PStr ("pdfplumber_" +:+ vertical_strategy +:+ "_" +:+ horizontal_strategy)]>
    (<["confidence" := PFloat (6 # 10)]>
    (<["bbox" := PList [PInt 0; PInt 0; PInt 0; PInt 0]]>
    (<["headers" := PList (default [] (head rows))]>
    (<["rows" := py_rows (if bool_decide (1 < length rows) then tail rows else [])]>
    (<["num_rows" :=
         PInt (if bool_decide (1 < length rows)
               then Z.of_nat (length rows) - 1 else 0)]>
    (<["num_cols" := PInt (Z.of_nat (length (default [] (head rows))))]>
       ∅))))))))
  in
  (* Extract header if configured *)
  if negb (cfg_header_extraction cfg)
     && match rows with [] => false | _ => true end
  then <["num_rows" := PInt (Z.of_nat (length rows))]>
         (<["rows" := py_rows rows]>
           (<["headers" := PList []]> table_dict))
  else table_dict.

(** [_extract_with_pdfplumber]; [read] is the result of
    [plumber_page.extract_tables], [None] when something raised or the
    page is out of range. *)
Definition extract_with_pdfplumber (cfg : config) (page_number : Z)
    (vertical_strategy horizontal_strategy : string)
    (read : option (list (list (list (option string))))) : list table :=
  match read with
  | None => []
  | Some plumber_tables =>
      omap (fun it : nat * list (list (option string)) =>
              (* Skip empty tables *)
              match it.2 with
              | [] => None
              | _ => Some (pdfplumber_table_dict cfg page_number
                             vertical_strategy horizontal_strategy it.1 it.2)
              end)
           (enumerate plumber_tables)
  end.

(* ================================================================== *)
(** * Per-page extraction with fallback *)
(* ================================================================== *)

(** The three calls [_extract_tables_unified] can make. *)
Inductive backend_call : Type :=
| CallCamelot (flavor : string)
| CallTabula (lattice guess : bool)
| CallPdfplumber.

Section Unified.

(** What each call gives on the page at hand: [None] when it raises. *)
Variable run_backend : backend_call -> option (list table).

(** [self._get_table_context(page, bbox)] on the page at hand. *)
Variable get_table_context : pyval -> option string.

(** The state of the method: [tables] and the calls made so far. *)
Definition attempt (call : backend_call)
    (st : list table * list backend_call) : list table * list backend_call :=
  (match run_backend call with Some tables => tables | None => st.1 end,
   st.2 ++ [call]).

Definition camelot_call (has_borders : bool) : backend_call :=
  CallCamelot (if has_borders then "lattice" else "stream").

Definition tabula_call (has_borders : bool) : backend_call :=
  if has_borders then CallTabula true true else CallTabula false true.

Definition is_nil {X} (l : list X) : bool :=
  match l with [] => true | _ => false end.

(** The method name resolved at the top of [_extract_tables_unified]. *)
Definition resolve_method (cfg : config) (has_borders : bool) : string :=
  if String.eqb (cfg_method cfg) "auto"
  then if has_borders then cfg_bordered cfg else cfg_borderless cfg
  else cfg_method cfg.

(** Try the primary extraction method. *)
Definition primary_attempt (method : string) (has_borders : bool)
    (st : list table * list backend_call) :=
  if String.eqb method "camelot" then attempt (camelot_call has_borders) st
  else if String.eqb method "tabula" then attempt (tabula_call has_borders) st
  else if String.eqb method "pdfplumber" then attempt CallPdfplumber st
  else st.

(** If the primary method failed, try the fallback methods. *)
Definition fallback_attempts (method : string) (has_borders : bool)
    (st : list table * list backend_call) :=
  (* Try camelot if not already tried *)
  let st := if negb (String.eqb method "camelot")
            then attempt (camelot_call has_borders) st else st in
  (* Try tabula if not already tried and camelot fallback failed *)
  let st := if is_nil st.1 && negb (String.eqb method "tabula")
            then attempt (tabula_call has_borders) st else st in
  (* Try pdfplumber as last resort *)
  let st := if is_nil st.1 && negb (String.eqb method "pdfplumber")
            then attempt CallPdfplumber st else st in
  st.

(** Get context for each table. *)
Definition add_context (t : table) : table :=
  match t !! "bbox" with
  | Some bbox =>
      match get_table_context bbox with
      | Some context => <["region" := bbox]> (<["context" := PStr context]> t)
      | None => <["context" := PStr ""]> t
      end
  | None => t
  end.

(** [_extract_tables_unified]: the tables returned and the backend calls
    made, in order. *)
Definition extract_tables_unified (cfg : config) (has_borders : bool)
    : list table * list backend_call :=
  let method := resolve_method cfg has_borders in
  let st := primary_attempt method has_borders ([], []) in
  let st := if is_nil st.1 && cfg_fallback_to_heuristic cfg
            then fallback_attempts method has_borders st else st in
  (add_context <$> st.1, st.2).

(** The fallback rule in the words of the specification: the backends
    other than the one already tried, in the fixed order camelot, tabula,
    pdfplumber, each tried until one gives a non-empty result. *)
Definition backend_order : list string := ["camelot"; "tabula"; "pdfplumber"].

Definition call_of (has_borders : bool) (name : string) : backend_call :=
  if String.eqb name "camelot" then camelot_call has_borders
  else if String.eqb name "tabula" then tabula_call has_borders
  else CallPdfplumber.

Definition fallback_calls (method : string) (has_borders : bool)
    : list backend_call :=
  call_of has_borders <$>
    List.filter (fun name => negb (String.eqb method name)) backend_order.

Fixpoint first_non_empty (calls : list backend_call)
    : list table * list backend_call :=
  match calls with
  | [] => ([], [])
  | call :: calls' =>
      match run_backend call with
      | Some (t :: tables) => (t :: tables, [call])
      | _ => let rest := first_non_empty calls' in (rest.1, call :: rest.2)
      end
  end.

End Unified.

(* ================================================================== *)
(** * Border detection *)
(* ================================================================== *)

(** The coordinates of a drawing are Python [float]s, and the loop of
    [_detect_table_borders] decides on rounded results: the length of a
    line is [((x1 - x0) ** 2 + (y1 - y0) ** 2) ** 0.5], every operation
    rounding to a double, and [**] being the [pow] of the C library.  The
    operations are therefore taken as they are, with no assumption on how
    they round:
    - [float_sub a b] is [a - b], [float_add a b] is [a + b] and
      [float_abs a] is [abs(a)];
    - [float_pow2 a] is [a ** 2], [None] when it raises [OverflowError];
    - [float_pow_half a] is [a ** 0.5], [None] when it raises or when
      its result is not a [float] (for a negative [a] it is a [complex],
      and the comparison [length < 10] that follows raises [TypeError]);
    - [float_lt_int a n] is [a < n] for the [int] [n]. *)
Class PyFloat := {
  pyfloat : Type;
  float_sub : pyfloat -> pyfloat -> pyfloat;
  float_add : pyfloat -> pyfloat -> pyfloat;
  float_abs : pyfloat -> pyfloat;
  float_pow2 : pyfloat -> option pyfloat;
  float_pow_half : pyfloat -> option pyfloat;
  float_lt_int : pyfloat -> Z -> bool
}.

(** A block of [page.get_text("dict")["blocks"]], with its [type] entry
    if it has one. *)
Record text_block : Type := { block_type : option pyval }.

(** [block.get("type") == 1] *)
Definition is_image_block (b : text_block) : bool :=
  match block_type b with
  | Some v => py_eq v (PInt 1)
  | None => false
  end.

Section Borders.
Context `{PyFloat}.

(** An item of a drawing path: [("l", p0, p1)] is a line segment. *)
Inductive draw_item : Type :=
| LineItem (p0 p1 : pyfloat * pyfloat)
| OtherItem.

(** A drawing path; a field is [None] when the key is missing, so that
    reading it raises [KeyError]. *)
Record draw_path : Type := {
  path_items : option (list draw_item);   (* path["items"] *)
  path_type : option string               (* path["type"] *)
}.

(** The page as [_detect_table_borders] sees it; a field is [None] when
    the call raises. *)
Record page : Type := {
  get_drawings : option (list draw_path);
  get_text_blocks : option (list text_block)
}.

(** [length = ((x1 - x0) ** 2 + (y1 - y0) ** 2) ** 0.5] for
    [x0, y0 = p0] and [x1, y1 = p1] *)
Definition line_length (p0 p1 : pyfloat * pyfloat) : option pyfloat :=
  dx2 ← float_pow2 (float_sub p1.1 p0.1);
  dy2 ← float_pow2 (float_sub p1.2 p0.2);
  float_pow_half (float_add dx2 dy2).

(** The body of the loop over the items of a path; the state is
    [(h_lines, v_lines)]. *)
Definition count_item (acc : nat * nat) (item : draw_item)
    : option (nat * nat) :=
  match item with
  | LineItem p0 p1 =>
      length ← line_length p0 p1;
      (* Skip very short lines *)
      if float_lt_int length 10 then Some acc
      (* Check if horizontal (y coordinates are similar) *)
      else if float_lt_int (float_abs (float_sub p1.2 p0.2)) 3
      then Some (acc.1 + 1, acc.2)
      (* Check if vertical (x coordinates are similar) *)
      else if float_lt_int (float_abs (float_sub p1.1 p0.1)) 3
      then Some (acc.1, acc.2 + 1)
      else Some acc
  | OtherItem => Some acc
  end.

(** [for item in path["items"]] *)
Fixpoint count_items (items : list draw_item) (acc : nat * nat)
    : option (nat * nat) :=
  match items with
  | [] => Some acc
  | item :: items' => acc ← count_item acc item; count_items items' acc
  end.

(** [for path in paths] *)
Fixpoint count_lines (paths : list draw_path) (acc : nat * nat)
    : option (nat * nat) :=
  match paths with
  | [] => Some acc
  | path :: paths' =>
      items ← path_items path;
      acc ← count_items items acc;
      count_lines paths' acc
  end.

Fixpoint count_rectangles (paths : list draw_path) (rectangles : nat)
    : option nat :=
  match paths with
  | [] => Some rectangles
  | path :: paths' =>
      type ← path_type path;
      count_rectangles paths'
        (if String.eqb type "rectangle" then rectangles + 1 else rectangles)
  end.

(** The [try] block of [_detect_table_borders]. *)
Definition inspect_page (p : page) : option bool :=
  paths ← get_drawings p;
  lines ← count_lines paths (0, 0);
  rectangles ← count_rectangles paths 0;
  if (bool_decide (5 <= lines.1) && bool_decide (3 <= lines.2))
     || bool_decide (10 <= rectangles)
  then Some true
  else
    blocks ← get_text_blocks p;
    Some (existsb is_image_block blocks).

(** The rule in the words of the specification.  A line segment counts
    when its length, as the method computes it, is not below 10; it is
    horizontal when the y-coordinates of its ends differ by less than 3,
    vertical when the x-coordinates do. *)
Definition qualifying (p0 p1 : pyfloat * pyfloat) : bool :=
  match line_length p0 p1 with
  | Some length => negb (float_lt_int length 10)
  | None => false
  end.

Definition y_delta (p0 p1 : pyfloat * pyfloat) : pyfloat :=
  float_abs (float_sub p1.2 p0.2).

Definition x_delta (p0 p1 : pyfloat * pyfloat) : pyfloat :=
  float_abs (float_sub p1.1 p0.1).

Definition is_line (item : draw_item) : bool :=
  match item with
  | LineItem p0 p1 => qualifying p0 p1
  | OtherItem => false
  end.

Definition is_horizontal (item : draw_item) : bool :=
  match item with
  | LineItem p0 p1 => qualifying p0 p1 && float_lt_int (y_delta p0 p1) 3
  | OtherItem => false
  end.

Definition is_vertical (item : draw_item) : bool :=
  match item with
  | LineItem p0 p1 => qualifying p0 p1 && float_lt_int (x_delta p0 p1) 3
  | OtherItem => false
  end.

(** A segment the method takes for a vertical line: the test for a
    vertical line is the [elif] of the test for a horizontal one. *)
Definition is_upright (item : draw_item) : bool :=
  is_vertical item && negb (is_horizontal item).











(** [_detect_table_borders(page)]: [except Exception: return False] *)
Definition detect_table_borders (p : page) : bool :=
  match inspect_page p with
  | Some answer => answer
  | None => false
  end.

End Borders.

(* ================================================================== *)
(** * Region overlap *)
(* ================================================================== *)

(** [a, b, c, d = v]: the four items of [v]; anything that is not a
    sequence of exactly four items makes the assignment raise. *)
Definition unpack4 (v : pyval) : option (pyval * pyval * pyval * pyval) :=
  match py_iter v with
  | Some [a; b; c; d] => Some (a, b, c, d)
  | _ => None
  end.

(** [a < b or c < d]: the second comparison is made only when the first
    is false. *)
Definition lt_or_lt (a b c d : pyval) : option bool :=
  first ← py_lt a b; if (first : bool) then Some true else py_lt c d.

(** [_regions_overlap(region1, region2)] *)
Definition regions_overlap (region1 region2 : pyval) : option bool :=
  if negb (py_truthy region1) || negb (py_truthy region2) then Some false
  else
    '(x01, y01, x11, y11) ← unpack4 region1;
    '(x02, y02, x12, y12) ← unpack4 region2;
    (* Check if one rectangle is to the left of the other *)
    apart ← lt_or_lt x11 x02 x12 x01;
    if (apart : bool) then Some false
    else
      (* Check if one rectangle is above the other *)
      apart ← lt_or_lt y11 y02 y12 y01;
      if (apart : bool) then Some false else Some true.

(** The coordinates of a region given as a list or tuple of numbers. *)
Definition coords (region : pyval) : option (list Q) :=
  match region with
  | PList l | PTuple l => mapM py_num l
  | _ => None
  end.

(* ================================================================== *)
(** * Page layout *)
(* ================================================================== *)

(** A rectangle [(x0, y0, x1, y1)], as PyMuPDF gives the [bbox] of a
    block and as [fitz.Rect] keeps it. *)
Record rect : Type := { rx0 : Q; ry0 : Q; rx1 : Q; ry1 : Q }.

(** The dictionaries of [page.get_text("dict")]: a field is [None] when
    the key is missing.  A span has a text, a font size and a font name;
    a line has spans; a block has a type (0 for text), a bounding box,
    lines and, where the layout methods read it, a list of spans of its
    own. *)
Record text_span : Type := {
  span_text : option string;
  span_size : option Q;
  span_font : option string
}.

Record text_line : Type := { line_spans : option (list text_span) }.

Record layout_block : Type := {
  lb_type : option pyval;
  lb_bbox : option rect;
  lb_lines : option (list text_line);
  lb_spans : option (list text_span)
}.

(** The dataclass [LayoutElement], with the fields that have defaults. *)
Record LayoutElement : Type := {
  el_type : string;
  el_text : string;
  el_bbox : rect;
  el_font_size : Q;
  el_font_name : string;
  el_is_bold : bool;
  el_in_row : Z;
  el_row_height : Q;
  el_is_row_header : bool;
  el_confidence : Q
}.

(** [LayoutElement(type=.., text=.., bbox=.., font_size=.., font_name=..,
    is_bold=..)]: the other fields take their defaults. *)
Definition new_element (type text : string) (bbox : rect) (font_size : Q)
    (font_name : string) (is_bold : bool) : LayoutElement :=
  {| el_type := type; el_text := text; el_bbox := bbox;
     el_font_size := font_size; el_font_name := font_name;
     el_is_bold := is_bold;
     el_in_row := 1; el_row_height := 0; el_is_row_header := false;
     el_confidence := 1 |}.

(** [min(a, b)] *)
Definition py_min (a b : Q) : Q := if Qltb b a then b else a.

(** [sub in s] for two strings *)
Fixpoint contains (sub s : string) : bool :=
  String.prefix sub s
  || match s with
     | EmptyString => false
     | String _ s' => contains sub s'
     end.

Definition newline : string := String "010"%char "".

(** [sorted(l, key=key)], and with [reverse=True] when [before] is [>]:
    an item goes after the items whose key is strictly [before] its own
    and before the first one whose key is not, which keeps items of equal
    keys in their original order. *)
Fixpoint insert_by {X} (before : Q -> Q -> bool) (key : X -> Q)
    (x : X) (l : list X) : list X :=
  match l with
  | [] => [x]
  | h :: l' =>
      if before (key h) (key x) then h :: insert_by before key x l'
      else x :: h :: l'
  end.

Definition sort_by {X} (before : Q -> Q -> bool) (key : X -> Q)
    (l : list X) : list X :=
  foldr (insert_by before key) [] l.

(** [statistics.median(data)] for a non-empty [data] *)
Definition median (data : list Q) : Q :=
  let data := sort_by Qltb id data in
  let n := length data in
  if Nat.odd n then nth (n / 2) data 0%Q
  else
    let i := (n / 2)%nat in
    ((nth (i - 1) data 0 + nth i data 0) / 2)%Q.

(** [block.get('type') == 0] *)
Definition is_text_block (block : layout_block) : bool :=
  match lb_type block with
  | Some v => py_eq v (PInt 0)
  | None => false
  end.

(** The sizes one block adds to [font_sizes]: those of its spans that
    have a size other than zero. *)
Definition block_sizes (block : layout_block) : list Q :=
  if is_text_block block
  then omap (fun span =>
               match span_size span with
               | Some size => if Qeq_bool size 0 then None else Some size
               | None => None
               end)
            (default [] (lb_spans block))
  else [].

(** [_get_base_font_size(layout)], [blocks] being [layout['blocks']] *)
Definition get_base_font_size (blocks : list layout_block) : Q :=
  let font_sizes := flat_map block_sizes blocks in
  match font_sizes with
  | [] => 12%Q
  | _ => median font_sizes
  end.

(** [_determine_element_type(font_size, base_font_size, is_bold, bbox)] *)
Definition determine_element_type (font_size base_font_size : Q)
    (is_bold : bool) (bbox : rect) : string :=
  (* Title detection *)
  if Qle_bool (base_font_size * (15 # 10)) font_size then "title"
  (* Subtitle detection *)
  else if Qle_bool (base_font_size * (12 # 10)) font_size
          || (Qle_bool (base_font_size * (11 # 10)) font_size && is_bold)
  then "subtitle"
  (* Heading detection *)
  else if is_bold || Qltb base_font_size font_size then "heading"
  else "text".

(** [_determine_heading_level(element)] *)
Definition determine_heading_level (element : LayoutElement) : Z :=
  if String.eqb (el_type element) "title" then 1
  else if String.eqb (el_type element) "subtitle" then 2
  else if el_is_bold element && Qltb 12 (el_font_size element) then 3
  else 4.

(** [_process_text_block(block, base_font_size)]: [None] where the method
    returns [None], after an exception. *)
Definition process_text_block (block : layout_block) (base_font_size : Q)
    : option LayoutElement :=
  (* Extract text properties *)
  spans ← lb_spans block;
  texts ← mapM span_text spans;
  let text := String.concat " " texts in
  font_info ← head spans;
  (* Calculate properties *)
  let font_size := default 0%Q (span_size font_info) in
  let is_bold := contains "bold" (lower (default "" (span_font font_info))) in
  (* Determine element type *)
  bbox ← lb_bbox block;
  let element_type :=
    determine_element_type font_size base_font_size is_bold bbox in
  Some (new_element element_type text bbox font_size
          (default "" (span_font font_info)) is_bold).

(** [_should_merge_elements(elem1, elem2)]; [merge_tolerance] is
    [self.config.get('merge_tolerance', 0.5)]. *)
Definition should_merge_elements (merge_tolerance : Q)
    (elem1 elem2 : LayoutElement) : bool :=
  (* Check vertical distance *)
  let vertical_gap := (ry0 (el_bbox elem2) - ry1 (el_bbox elem1))%Q in
  (* Check horizontal overlap *)
  let horizontal_overlap :=
    (py_min (rx1 (el_bbox elem1)) (rx1 (el_bbox elem2))
     - py_max (rx0 (el_bbox elem1)) (rx0 (el_bbox elem2)))%Q in
  String.eqb (el_type elem1) (el_type elem2)
  && Qle_bool vertical_gap merge_tolerance
  && Qltb 0 horizontal_overlap.

(** [_merge_elements(elem1, elem2)] *)
Definition merge_elements (elem1 elem2 : LayoutElement) : LayoutElement :=
  new_element (el_type elem1)
    (el_text elem1 +:+ " " +:+ el_text elem2)
    {| rx0 := py_min (rx0 (el_bbox elem1)) (rx0 (el_bbox elem2));
       ry0 := py_min (ry0 (el_bbox elem1)) (ry0 (el_bbox elem2));
       rx1 := py_max (rx1 (el_bbox elem1)) (rx1 (el_bbox elem2));
       ry1 := py_max (ry1 (el_bbox elem1)) (ry1 (el_bbox elem2)) |}
    (el_font_size elem1) (el_font_name elem1) (el_is_bold elem1).

(** The body of the loop of [_merge_related_elements]; the state is
    [(merged, current)]. *)
Definition merge_step (merge_tolerance : Q)
    (st : list LayoutElement * option LayoutElement)
    (element : LayoutElement) : list LayoutElement * option LayoutElement :=
  match st.2 with
  | None => (st.1, Some element)
  | Some current =>
      (* Check if elements should be merged *)
      if should_merge_elements merge_tolerance current element
      then (st.1, Some (merge_elements current element))
      else (st.1 ++ [current], Some element)
  end.

(** [_merge_related_elements(elements)] *)
Definition merge_related_elements (merge_tolerance : Q)
    (elements : list LayoutElement) : list LayoutElement :=
  let st := fold_left (merge_step merge_tolerance) elements ([], None) in
  match st.2 with
  | Some current => st.1 ++ [current]
  | None => st.1
  end.

(** [_analyze_page_layout(page)], [blocks] being the blocks of
    [page.get_text("dict")]. *)
Definition analyze_page_layout (merge_tolerance : Q)
    (blocks : list layout_block) : list LayoutElement :=
  let base_font_size := get_base_font_size blocks in
  let elements :=
    omap (fun block =>
            if is_text_block block
            then process_text_block block base_font_size
            else None)
         blocks in
  (* Merge related elements *)
  merge_related_elements merge_tolerance elements.

(** An entry of [structure['hierarchy']]. *)
Record heading : Type := {
  heading_text : string;
  heading_level : Z;
  heading_page : Z
}.

Definition is_heading_type (type : string) : bool :=
  String.eqb type "title" || String.eqb type "subtitle"
  || String.eqb type "heading".

(** The entries one page adds to the hierarchy. *)
Definition page_headings (page_num : nat) (layout : list LayoutElement)
    : list heading :=
  omap (fun element =>
          if is_heading_type (el_type element)
          then Some {| heading_text := el_text element;
                       heading_level := determine_heading_level element;
                       heading_page := Z.of_nat page_num + 1 |}
          else None)
       layout.

(** [_process_document_structure(doc)]: the lists [hierarchy] and
    [page_layouts] of the result; [doc] is the list of the pages' blocks. *)
Definition process_document_structure (merge_tolerance : Q)
    (doc : list (list layout_block))
    : list heading * list (list LayoutElement) :=
  fold_left
    (fun structure (it : nat * list layout_block) =>
       let layout := analyze_page_layout merge_tolerance it.2 in
       (structure.1 ++ page_headings it.1 layout, structure.2 ++ [layout]))
    (enumerate doc) ([], []).

(** The rank of an element type, from plain text up to title. *)
Definition type_rank (type : string) : nat :=
  if String.eqb type "title" then 3
  else if String.eqb type "subtitle" then 2
  else if String.eqb type "heading" then 1
  else 0.

(** [r] lies within [outer]. *)
Definition rect_within (r outer : rect) : Prop :=
  (rx0 outer <= rx0 r)%Q ∧ (ry0 outer <= ry0 r)%Q ∧
  (rx1 r <= rx1 outer)%Q ∧ (ry1 r <= ry1 outer)%Q.

(* ================================================================== *)
(** * Text around a table *)
(* ================================================================== *)

(** [fitz.Rect(bbox[0], bbox[1], bbox[2], bbox[3])] for a [bbox] of
    numbers; a [bbox] with fewer than four items, or with an item that is
    not a number, is outside the rectangles modelled here. *)
Definition rect_of (bbox : pyval) : option rect :=
  a ← py_index bbox 0 ≫= py_num;
  b ← py_index bbox 1 ≫= py_num;
  c ← py_index bbox 2 ≫= py_num;
  d ← py_index bbox 3 ≫= py_num;
  Some {| rx0 := a; ry0 := b; rx1 := c; ry1 := d |}.

(** The first loop of [_get_table_context]: the text blocks that end
    above the table, each with its lower edge, and those that start below
    it, each with its upper edge. *)
Fixpoint split_blocks (table_rect : rect) (blocks : list layout_block)
    (blocks_above blocks_below : list (layout_block * Q))
    : option (list (layout_block * Q) * list (layout_block * Q)) :=
  match blocks with
  | [] => Some (blocks_above, blocks_below)
  | block :: blocks' =>
      type ← lb_type block;
      if py_eq type (PInt 0)
      then
        block_rect ← lb_bbox block;
        (* Check if block is above the table *)
        let blocks_above :=
          if Qltb (ry1 block_rect) (ry0 table_rect)
          then blocks_above ++ [(block, ry1 block_rect)] else blocks_above in
        (* Check if block is below the table *)
        let blocks_below :=
          if Qltb (ry1 table_rect) (ry0 block_rect)
          then blocks_below ++ [(block, ry0 block_rect)] else blocks_below in
        split_blocks table_rect blocks' blocks_above blocks_below
      else split_blocks table_rect blocks' blocks_above blocks_below
  end.

(** The text of a line: its span texts one after the other. *)
Definition line_text (line : text_line) : option string :=
  spans ← line_spans line;
  texts ← mapM span_text spans;
  Some (String.concat "" texts).

(** The list [lines] built for a block. *)
Definition block_lines (block : layout_block) : option (list string) :=
  lines ← lb_lines block; mapM line_text lines.

(** The two loops that collect the context text. *)
Fixpoint collect_above (blocks : list (layout_block * Q))
    (context_above : string) : option string :=
  match blocks with
  | [] => Some context_above
  | (block, _) :: blocks' =>
      lines ← block_lines block;
      collect_above blocks'
        (String.concat newline lines +:+ newline +:+ context_above)
  end.

Fixpoint collect_below (blocks : list (layout_block * Q))
    (context_below : string) : option string :=
  match blocks with
  | [] => Some context_below
  | (block, _) :: blocks' =>
      lines ← block_lines block;
      collect_below blocks'
        (context_below +:+ newline +:+ String.concat newline lines)
  end.

(** The [try] block of [_get_table_context]; [blocks] is
    [page.get_text("dict")["blocks"]], [None] when reading it raises. *)
Definition table_context (blocks : option (list layout_block))
    (bbox : pyval) (context_range : nat) : option string :=
  (* Get all text blocks on the page *)
  blocks ← blocks;
  (* Convert table bbox to fitz.Rect *)
  table_rect ← rect_of bbox;
  (* Find blocks above and below the table *)
  '(blocks_above, blocks_below) ← split_blocks table_rect blocks [] [];
  (* Sort blocks by vertical position, closest to table first *)
  let blocks_above := sort_by (fun a b => Qltb b a) snd blocks_above in
  let blocks_below := sort_by Qltb snd blocks_below in
  (* Get context text *)
  context_above ← collect_above (take context_range blocks_above) "";
  context_below ← collect_below (take context_range blocks_below) "";
  Some (strip context_above +:+ newline +:+ strip context_below).

(** [_get_table_context(page, bbox, context_range)]:
    [except Exception: return ""] *)
Definition get_table_context (blocks : option (list layout_block))
    (bbox : pyval) (context_range : nat) : string :=
  default "" (table_context blocks bbox context_range).

(* ================================================================== *)
(** * The document loop *)
(* ================================================================== *)

Section Pages.
Context `{PyFloat}.

(** A page of the document as [extract_tables] uses it: its drawings and
    the blocks of its text dictionary ([None] when the call raises), and
    what each backend call gives for it. *)
Record pdf_page : Type := {
  pg_drawings : option (list draw_path);
  pg_blocks : option (list layout_block);
  pg_backends : backend_call -> option (list table)
}.

(** The page as [_detect_table_borders] reads it. *)
Definition border_view (p : pdf_page) : page :=
  {| get_drawings := pg_drawings p;
     get_text_blocks :=
       fmap (M:=list) (fun block => {| block_type := lb_type block |})
         <$> pg_blocks p |}.

(** [self._get_table_context(page, bbox)] with the default range; the
    method catches its own exceptions and always returns. *)
Definition page_context (p : pdf_page) (bbox : pyval) : option string :=
  Some (get_table_context (pg_blocks p) bbox 3).

(** Step 3 of the page loop: [page_tables[i]] is replaced table by table;
    an exception ends the loop and leaves the rest as it is. *)
Fixpoint refine_each (page_tables : list table) : list table :=
  match page_tables with
  | [] => []
  | t :: rest =>
      match refine_table_structure t with
      | Some refined => refined :: refine_each rest
      | None => page_tables
      end
  end.

(** Step 4 for one table: the page number, and the context when the
    table has a region. *)
Definition add_page_info (p : pdf_page) (page_number : Z) (t : table)
    : table :=
  let t := <["page" := PInt page_number]> t in
  match t !! "region" with
  | Some region =>
      <["context" := PStr (get_table_context (pg_blocks p) region 3)]> t
  | None => t
  end.

(** The body of the page loop of [extract_tables]: the tables it appends
    to [all_tables].  [recognizer] tells whether a
    [TableStructureRecognizer] could be set up. *)
Definition extract_page_tables (cfg : config) (recognizer : bool)
    (p : pdf_page) (page_number : Z) : list table :=
  (* Step 1: Analyze page to determine table characteristics *)
  let has_borders := detect_table_borders (border_view p) in
  (* Step 2: Extract tables using the unified strategy *)
  let page_tables :=
    (extract_tables_unified (pg_backends p) (page_context p)
       cfg has_borders).1 in
  (* Step 3: Apply advanced structure analysis to refine the tables *)
  let page_tables :=
    if recognizer && negb (is_nil page_tables)
    then refine_each page_tables else page_tables in
  (* Step 4: Add page information to each table *)
  add_page_info p page_number <$> page_tables.

End Pages.

Section Document.
Context `{ObjectStr} `{InterruptedSort} `{PyFloat}.

(** [extract_tables(doc, pdf_path)]; the three flags are [HAS_CAMELOT],
    [HAS_TABULA] and [HAS_PDFPLUMBER]. *)
Definition extract_tables (has_camelot has_tabula has_pdfplumber : bool)
    (cfg : config) (recognizer : bool) (doc : list pdf_page) : pass_result :=
  (* Check if any table extraction libraries are available *)
  if negb (has_camelot || has_tabula || has_pdfplumber) then Returned []
  else
    let all_tables :=
      flat_map (fun it : nat * pdf_page =>
                  extract_page_tables cfg recognizer it.2
                    (Z.of_nat it.1 + 1))
               (enumerate doc) in
    (* Step 5: Detect and handle cross-page tables *)
    if bool_decide (1 < length all_tables)
    then handle_cross_page_tables all_tables
    else Returned all_tables.

End Document.

(* ================================================================== *)
(** * Notions used in the statements *)
(* ================================================================== *)

Section Notions.
Context `{ObjectStr}.

(** A table of the result is a table of the input or the merge of two of
    them. *)
Definition from_input (tables : list table) (t : table) : Prop :=
  t ∈ tables ∨
  ∃ t1 t2, t1 ∈ tables ∧ t2 ∈ tables ∧ merge_tables t1 t2 = Some t.

(** The rows of a merged table in the words of the specification:
    [first.rows + second.rows], without the leading row of [second.rows]
    when that row is header-similar to the headers of the first table. *)
Definition merged_rows_spec (first second : table) : option pyval :=
  match first !! "rows", second !! "rows" with
  | Some (PList rows1), Some (PList rows2) =>
      let repeated :=
        match rows2 with
        | row :: _ =>
            are_headers_similar (dict_get first "headers" (PList [])) row
        | [] => false
        end in
      Some (PList (rows1 ++ (if repeated then drop 1 rows2 else rows2)))
  | _, _ => None
  end.

End Notions.

(** The page a table counts for: [t.get('page', 0)], where it is an
    integer. *)
Definition page_is (t : table) (n : Z) : Prop :=
  dict_get t "page" (PInt 0) = PInt n.

(** A table as the tabula and pdfplumber converters emit it, as far as
    the cross-page pass looks at it: no [data], no [text], and the
    bounding box [[0, 0, 0, 0]]. *)
Definition unlocated (t : table) : Prop :=
  t !! "data" = None ∧ t !! "text" = None ∧
  t !! "bbox" = Some (PList [PInt 0; PInt 0; PInt 0; PInt 0]).

(** A backend call that brought nothing: it raised or returned no
    table. *)
Definition fruitless (run_backend : backend_call -> option (list table))
    (call : backend_call) : Prop :=
  run_backend call = None ∨ run_backend call = Some [].

(** An element whose type is the one [_determine_element_type] gives
    for its font size and weight on a page of the given base size. *)
Definition classified (base_font_size : Q) (e : LayoutElement) : Prop :=
  el_type e =
  determine_element_type (el_font_size e) base_font_size (el_is_bold e)
    (el_bbox e).

(** An element is covered by a list of elements when one of them has its
    type and a bounding box around its own. *)
Definition covered (e : LayoutElement) (l : list LayoutElement) : Prop :=
  ∃ m, m ∈ l ∧ el_type m = el_type e ∧ rect_within (el_bbox e) (el_bbox m).

(** The list a state [(merged, current)] of the merging loop stands
    for. *)
Definition merged_so_far (st : list LayoutElement * option LayoutElement)
    : list LayoutElement :=
  match st.2 with
  | Some current => st.1 ++ [current]
  | None => st.1
  end.

(** A text block that ends strictly above the table or starts strictly
    below it: the blocks [_get_table_context] takes its text from. *)
Definition beside (table_rect : rect) (block : layout_block) : bool :=
  is_text_block block
  && match lb_bbox block with
     | Some block_rect =>
         Qltb (ry1 block_rect) (ry0 table_rect)
         || Qltb (ry1 table_rect) (ry0 block_rect)
     | None => false
     end.

(** A block with a type and, for a text block, a bounding box. *)
Definition well_formed_block (block : layout_block) : Prop :=
  is_Some (lb_type block) ∧
  (is_text_block block = true → is_Some (lb_bbox block)).

(** A cell that is a string without white space at either end. *)
Definition trimmed_text (cell : pyval) : Prop :=
  ∃ s, cell = PStr s ∧ strip s = s.

(** A cell on which the cleaning of the refinement changes nothing: a
    string in which the words are separated by single spaces, or a value
    that is not a string. *)
Definition normalized_cell (cell : pyval) : Prop := clean_cell cell = cell.

(* ================================================================== *)
(** * Sample inputs *)
(* ================================================================== *)

Definition name_age_city : list pyval := [PStr "Name"; PStr "Age"; PStr "City"].

Definition staff_rows_3 : list (list pyval) :=
  [[PStr "Ann"; PStr "31"; PStr "Oslo"]; [PStr "Bob"; PStr "45"; PStr "Rome"]].

Definition staff_rows_4 : list (list pyval) :=
  [[PStr "Cid"; PStr "52"; PStr "Bern"]].

(** Two tables as the backends emit them ([headers] and [rows]), on pages
    3 and 4, with bounding boxes 100 and 98 wide. *)
Definition rows_page3 : table :=
  <["page" := PInt 3]>
  (<["extraction_method" := PStr "camelot_lattice"]>
  (<["bbox" := PTuple [PInt 10; PInt 20; PInt 110; PInt 200]]>
  (<["headers" := PList name_age_city]>
  (<["rows" := py_rows staff_rows_3]>
  (<["context" := PStr "Staff by office"]> ∅))))).

Definition rows_page4 : table :=
  <["page" := PInt 4]>
  (<["extraction_method" := PStr "camelot_lattice"]>
  (<["bbox" := PTuple [PInt 10; PInt 20; PInt 108; PInt 90]]>
  (<["headers" := PList name_age_city]>
  (<["rows" := py_rows staff_rows_4]>
  (<["context" := PStr "continued"]> ∅))))).

(** The same two tables carrying [data] (header row first) and [text]. *)
Definition data_page3 : table :=
  <["page" := PInt 3]>
  (<["extraction_method" := PStr "camelot_lattice"]>
  (<["bbox" := PTuple [PInt 10; PInt 20; PInt 110; PInt 200]]>
  (<["data" := py_rows (name_age_city :: staff_rows_3)]>
  (<["text" := PStr "Staff by office"]> ∅)))).

Definition data_page4 : table :=
  <["page" := PInt 4]>
  (<["extraction_method" := PStr "camelot_lattice"]>
  (<["bbox" := PTuple [PInt 10; PInt 20; PInt 108; PInt 90]]>
  (<["data" := py_rows (name_age_city :: staff_rows_4)]>
  (<["text" := PStr "continued"]> ∅)))).

(** A table with a header row and a blank cell below it. *)
Definition sparse_table : table :=
  <["data" := py_rows [[PStr "h1"; PStr "h2"]; [PStr "a"; PStr ""]]]> ∅.

(** The example of the specification: blank rows around one row. *)
Definition padded_table : table :=
  <["data" := py_rows [[PStr ""; PStr ""; PStr ""];
                       [PStr "a"; PStr "b"; PStr "c"];
                       [PStr ""; PStr ""; PStr ""]]]> ∅.

Definition dense_table : table :=
  <["data" := py_rows [[PStr " h1"; PStr "h2 "]; [PStr "a  b"; PStr "c"]]]> ∅.

(** A data frame of two rows and two columns. *)
Definition sample_df : dataframe :=
  {| df_values := [[PStr "h1"; PStr "h2"]; [PStr "a"; PStr "b"]];
     df_columns := 2 |}.

Definition sample_camelot_table : camelot_table :=
  {| cam_accuracy := 95;
     cam_bbox := PTuple [PInt 10; PInt 20; PInt 110; PInt 200];
     cam_df := sample_df |}.

(** Three bare tables on pages 1, 2 and 3. *)
Definition on_page (n : Z) : table := <["page" := PInt n]> ∅.

(** Two tables out of page order; the text of the first page is [None]. *)
Definition late_table : table := <["page" := PInt 2]> ∅.
Definition early_table : table :=
  <["page" := PInt 1]> (<["text" := PNone]> ∅).

(** A table whose [bbox] is [None]: [len] of it raises in the sort key. *)
Definition unboxed_table : table :=
  <["page" := PInt 1]> (<["bbox" := PNone]> ∅).

(** Two tables of one page, the top of the first being [None]: the
    comparison of their sort keys raises. *)
Definition top_none_table : table :=
  <["page" := PInt 1]>
  (<["bbox" := PList [PInt 0; PNone; PInt 100; PInt 50]]> ∅).
Definition top_five_table : table :=
  <["page" := PInt 1]>
  (<["bbox" := PList [PInt 0; PInt 5; PInt 100; PInt 50]]> ∅).

(** For the examples: a sort that raises before it has moved anything, as
    when its first comparison does. *)
Definition sort_untouched : InterruptedSort :=
  {| interrupted_sort l := l.*2;
     interrupted_sort_perm l := reflexivity (l.*2) |}.

(** For the examples: IEEE 754 doubles, rounding to nearest even, with a
    [pow] that rounds correctly: [a ** 2] is the rounded product and
    [a ** 0.5] the rounded square root.  [**] raises [OverflowError] when
    the result of finite operands is out of range, and gives a [complex]
    for a base below zero under the exponent [0.5]. *)
Definition double_of_Z (n : Z) : spec_float :=
  binary_normalize 53 1024 n 0 false.

(** [m * 2 ** e] *)
Definition double_of_bits (m e : Z) : spec_float :=
  binary_normalize 53 1024 m e false.

Definition double_pow2 (a : spec_float) : option spec_float :=
  let r := SFmul 53 1024 a a in
  match a, r with
  | S754_finite _ _ _, S754_infinity _ => None
  | _, _ => Some r
  end.

Definition double_pow_half (a : spec_float) : option spec_float :=
  match a with
  | S754_infinity _ => Some (S754_infinity false)
  | S754_zero _ => Some (S754_zero false)
  | _ => if SFltb a (S754_zero false) then None
         else Some (SFsqrt 53 1024 a)
  end.

Definition binary64 : PyFloat :=
  {| pyfloat := spec_float;
     float_sub := SFsub 53 1024;
     float_add := SFadd 53 1024;
     float_abs := SFabs;
     float_pow2 := double_pow2;
     float_pow_half := double_pow_half;
     float_lt_int a n := SFltb a (double_of_Z n) |}.

(** A page with five horizontal and three vertical rules. *)
Definition hline (y : Z) : @draw_item binary64 :=
  @LineItem binary64 (double_of_Z 0, double_of_Z y)
                     (double_of_Z 200, double_of_Z y).
Definition vline (x : Z) : @draw_item binary64 :=
  @LineItem binary64 (double_of_Z x, double_of_Z 0)
                     (double_of_Z x, double_of_Z 100).


(** A segment from [(2 ** -60, 0)] to [(10, 0)]: its exact length is
    below 10, the length the method computes is [10.0]. *)
Definition grazing_line : @draw_item binary64 :=
  @LineItem binary64 (double_of_bits 1 (-60), double_of_Z 0)
                     (double_of_Z 10, double_of_Z 0).

(** A segment whose coordinate difference squared is out of range. *)
Definition remote_line : @draw_item binary64 :=
  @LineItem binary64 (double_of_Z 0, double_of_Z 0)
                     (double_of_bits 1 600, double_of_Z 0).

(** Backends for one page: camelot finds nothing, tabula raises,
    pdfplumber finds a table. *)
Definition sample_backends (call : backend_call) : option (list table) :=
  match call with
  | CallCamelot _ => Some []
  | CallTabula _ _ => None
  | CallPdfplumber => Some [rows_page3]
  end.

(** What the cross-page pass makes of the sample tables. *)
Definition rows_pages_merged : table :=
  <["is_cross_page" := PBool true]>
  (<["extraction_method" := PStr "camelot_lattice_cross_page"]>
  (<["page_range" := PList [PInt 3; PInt 4]]>
  (<["text" := PStr (String "010"%char "")]> rows_page3))).

Definition data_pages_merged : table :=
  <["is_cross_page" := PBool true]>
  (<["extraction_method" := PStr "camelot_lattice_cross_page"]>
  (<["page_range" := PList [PInt 3; PInt 4]]>
  (<["text" := PStr ("Staff by office" +:+ String "010"%char "" +:+ "continued")]>
  (<["data" := py_rows (name_age_city :: staff_rows_3 ++ staff_rows_4)]>
     data_page3)))).

Definition pages_1_2_merged : table :=
  <["is_cross_page" := PBool true]>
  (<["extraction_method" := PStr "unknown_cross_page"]>
  (<["page_range" := PList [PInt 1; PInt 2]]>
  (<["text" := PStr (String "010"%char "")]> (on_page 1)))).

(** [sparse_table] refined once and twice; [dense_table] refined. *)
Definition sparse_refined : table :=
  refined_table sparse_table [PStr "h1"; PStr "h2"] [[PStr "a"; PStr ""]].

Definition sparse_refined_twice : table :=
  refined_table sparse_table [PStr "h1"; PStr "h2"] [[PStr "a"]].

Definition dense_refined : table :=
  refined_table dense_table [PStr "h1"; PStr "h2"] [[PStr "a b"; PStr "c"]].

(** Two lines of one paragraph, as layout elements: the second starts
    where the first ends and lies under it. *)
Definition line_one : LayoutElement :=
  new_element "text" "Tables are"
    {| rx0 := 50; ry0 := 100; rx1 := 300; ry1 := 112 |} 11 "Times" false.

Definition line_two : LayoutElement :=
  new_element "text" "extracted per page."
    {| rx0 := 50; ry0 := 112; rx1 := 280; ry1 := 124 |} 11 "Times" false.

(** The blocks of a page: a caption above the place of a table, an
    image, a text block level with the table and a note below it. *)
Definition span_of (text : string) (size : Q) (font : string) : text_span :=
  {| span_text := Some text; span_size := Some size; span_font := Some font |}.

Definition text_block_at (top bottom : Q) (text : string) : layout_block :=
  {| lb_type := Some (PInt 0);
     lb_bbox := Some {| rx0 := 50; ry0 := top; rx1 := 300; ry1 := bottom |};
     lb_lines := Some [ {| line_spans := Some [span_of text 11 "Times"] |} ];
     lb_spans := Some [span_of text 11 "Times"] |}.

Definition image_block : layout_block :=
  {| lb_type := Some (PInt 1); lb_bbox := None;
     lb_lines := None; lb_spans := None |}.

Definition broken_block : layout_block :=
  {| lb_type := None; lb_bbox := None; lb_lines := None; lb_spans := None |}.

Definition sample_blocks : list layout_block :=
  [text_block_at 40 52 "Table 1: staff"; image_block;
   text_block_at 150 162 "beside"; text_block_at 320 332 "Source: HR"].

Definition sample_table_bbox : pyval :=
  PTuple [PFloat 50; PFloat 100; PFloat 300; PFloat 300].

(** A page on which only pdfplumber finds a table, and a document of two
    such pages. *)
Definition sample_pdf_page : @pdf_page binary64 :=
  {| pg_drawings := Some []; pg_blocks := Some sample_blocks;
     pg_backends := sample_backends |}.

Definition sample_doc : list (@pdf_page binary64) :=
  [sample_pdf_page; sample_pdf_page].

(** The default configuration without the fallback. *)
Definition primary_only_config : config :=
  {| cfg_method := "auto"; cfg_bordered := "camelot";
     cfg_borderless := "tabula"; cfg_fallback_to_heuristic := false;
     cfg_header_extraction := true; cfg_min_confidence := 80 |}.

(** A table as pdfplumber returns it, with padded and missing cells. *)
Definition sample_plumber_table : list (list (option string)) :=
  [[Some " Name "; Some "Age"]; [Some "Ann"; None]].

(* ================================================================== *)
(** * Properties *)
(* ================================================================== *)

Section LevenshteinFacts.
Context {A : Type} `{EqDecision A}.
Implicit Types s t u v p : list A.

Lemma levenshtein_nil_r s : levenshtein s [] = length s.
Proof. by destruct s. Qed.

Lemma levenshtein_cons a b s t :
  levenshtein (a :: s) (b :: t) =
  Nat.min (levenshtein s (b :: t) + 1)
    (Nat.min (levenshtein (a :: s) t + 1) (levenshtein s t + neq_cost a b)).
Proof. reflexivity. Qed.

Lemma edits_levenshtein s t : edits s t (levenshtein s t).
Proof.
  induction s as [|a s IHs] in t |- *.
  - induction t as [|b t IHt]; [constructor|]. by apply edits_insert.
  - induction t as [|b t IHt].
    + rewrite levenshtein_nil_r. specialize (IHs []).
      rewrite levenshtein_nil_r in IHs. by apply edits_delete.
    + rewrite levenshtein_cons.
      pose proof (IHs (b :: t)) as Hdel. pose proof (IHs t) as Hsub.
      destruct (Nat.min_spec (levenshtein s (b :: t) + 1)
        (Nat.min (levenshtein (a :: s) t + 1) (levenshtein s t + neq_cost a b)))
        as [[_ ->]|[_ ->]].
      { rewrite Nat.add_1_r. by apply edits_delete. }
      destruct (Nat.min_spec (levenshtein (a :: s) t + 1)
        (levenshtein s t + neq_cost a b)) as [[_ ->]|[_ ->]].
      { rewrite Nat.add_1_r. by apply edits_insert. }
      unfold neq_cost. destruct (decide (a = b)) as [->|_].
      * rewrite Nat.add_0_r. by apply edits_keep.
      * rewrite Nat.add_1_r. by apply edits_subst.
Qed.

Lemma levenshtein_le_edits s t n : edits s t n → levenshtein s t <= n.
Proof.
  induction 1 as [|a s t n _ IH|a b s t n _ IH|a s t n _ IH|b s t n _ IH].
  - done.
  - rewrite levenshtein_cons. unfold neq_cost. rewrite decide_True by done. lia.
  - rewrite levenshtein_cons. unfold neq_cost. destruct (decide (a = b)); lia.
  - destruct t as [|b t].
    + rewrite levenshtein_nil_r in *. simpl. lia.
    + rewrite levenshtein_cons. lia.
  - destruct s as [|a s].
    + simpl in *. lia.
    + rewrite levenshtein_cons. lia.
Qed.

Lemma edits_app s t n s' t' m :
  edits s t n → edits s' t' m → edits (s ++ s') (t ++ t') (n + m).
Proof.
  intros Hst Hst'. induction Hst; simpl; [done|by constructor..].
Qed.

Lemma edits_rev s t n : edits s t n → edits (rev s) (rev t) n.
Proof.
  induction 1 as [|a s t n _ IH|a b s t n _ IH|a s t n _ IH|b s t n _ IH]; simpl.
  - constructor.
  - rewrite <- (Nat.add_0_r n). apply edits_app; [done|]. repeat constructor.
  - rewrite <- Nat.add_1_r. apply edits_app; [done|]. repeat constructor.
  - rewrite <- Nat.add_1_r, <- (app_nil_r (rev t)).
    apply edits_app; [done|]. repeat constructor.
  - rewrite <- Nat.add_1_r, <- (app_nil_r (rev s)).
    apply edits_app; [done|]. repeat constructor.
Qed.

Lemma levenshtein_rev s t : levenshtein (rev s) (rev t) = levenshtein s t.
Proof.
  apply Nat.le_antisymm.
  - apply levenshtein_le_edits, edits_rev, edits_levenshtein.
  - rewrite <- (rev_involutive s), <- (rev_involutive t) at 1.
    apply levenshtein_le_edits, edits_rev, edits_levenshtein.
Qed.

Lemma levenshtein_snoc a b s t :
  levenshtein (s ++ [a]) (t ++ [b]) =
  Nat.min (levenshtein s (t ++ [b]) + 1)
    (Nat.min (levenshtein (s ++ [a]) t + 1) (levenshtein s t + neq_cost a b)).
Proof.
  rewrite <- (levenshtein_rev (s ++ [a]) (t ++ [b])), !rev_unit, levenshtein_cons.
  rewrite <- (rev_unit t b), <- (rev_unit s a), !levenshtein_rev. done.
Qed.
End LevenshteinFacts.

Section DP.
Context {A : Type} `{EqDecision A}.
Implicit Types s t u v p : list A.

Lemma nth_matrix_row p t j :
  j <= length t → nth j (matrix_row p t) 0 = levenshtein p (take j t).
Proof.
  intros Hj. unfold matrix_row.
  rewrite (nth_indep _ 0 (levenshtein p (take 0 t))) by (rewrite length_map, length_seq; lia).
  rewrite (map_nth (fun j => levenshtein p (take j t))), seq_nth by lia. done.
Qed.

Lemma matrix_row_nil t : matrix_row [] t = seq 0 (length t + 1).
Proof.
  unfold matrix_row. rewrite <- (map_id (seq 0 (length t + 1))) at 2.
  apply map_ext_in. intros j Hj%in_seq. simpl. rewrite length_take. lia.
Qed.

Lemma last_matrix_row p t : List.last (matrix_row p t) 0 = levenshtein p t.
Proof.
  unfold matrix_row. rewrite Nat.add_1_r, seq_S, map_app. simpl.
  rewrite last_last, firstn_all. done.
Qed.

(** One iteration of the inner loop appends the next entry of the row
    of [p ++ [c1]]. *)
Lemma lev_cell_spec p c1 u c2 v :
  partial_row p c1 (u ++ c2 :: v) (length u) ++
    [lev_cell (matrix_row p (u ++ c2 :: v))
       (partial_row p c1 (u ++ c2 :: v) (length u)) c1 (length u) c2]
  = partial_row p c1 (u ++ c2 :: v) (length u + 1).
Proof.
  set (t := u ++ c2 :: v).
  assert (Hlen : length t = length u + S (length v))
    by (unfold t; rewrite length_app; done).
  unfold partial_row at 3.
  rewrite (Nat.add_1_r (length u + 1)), seq_S, map_app. simpl.
  f_equal. f_equal. unfold lev_cell.
  rewrite !nth_matrix_row by lia.
  unfold partial_row.
  rewrite (nth_indep _ 0 (levenshtein (p ++ [c1]) (take 0 t)))
    by (rewrite length_map, length_seq; lia).
  rewrite (map_nth (fun j => levenshtein (p ++ [c1]) (take j t))), seq_nth by lia.
  simpl.
  assert (Htake1 : take (length u + 1) t = u ++ [c2]).
  { unfold t. rewrite (cons_middle c2 u v), app_assoc.
    rewrite take_app_le by (rewrite length_app; simpl; lia).
    apply take_ge. rewrite length_app; simpl; lia. }
  assert (Htake0 : take (length u) t = u) by apply take_app_length.
  rewrite Htake1, Htake0. by rewrite levenshtein_snoc.
Qed.

(** The inner loop, started after the columns of [u] have been filled,
    completes the row of [p ++ [c1]]. *)
Lemma lev_row_inner p c1 u v :
  fold_left
    (fun current_row jc => current_row ++
       [lev_cell (matrix_row p (u ++ v)) current_row c1 jc.1 jc.2])
    (combine (seq (length u) (length v)) v)
    (partial_row p c1 (u ++ v) (length u))
  = matrix_row (p ++ [c1]) (u ++ v).
Proof.
  induction v as [|c2 v IH] in u |- *.
  - simpl. unfold matrix_row, partial_row. by rewrite app_nil_r.
  - cbn [length seq combine fold_left fst snd].
    rewrite lev_cell_spec.
    specialize (IH (u ++ [c2])).
    rewrite <- app_assoc, length_app in IH. simpl in IH.
    rewrite (Nat.add_1_r (length u)) in IH |- *. exact IH.
Qed.

Lemma lev_row_spec p c1 t :
  lev_row t (matrix_row p t) (length p) c1 = matrix_row (p ++ [c1]) t.
Proof.
  unfold lev_row, enumerate.
  pose proof (lev_row_inner p c1 [] t) as Hin.
  rewrite app_nil_l in Hin. rewrite <- Hin. unfold partial_row. simpl.
  by rewrite take_0, levenshtein_nil_r, length_app.
Qed.

Lemma lev_rows_spec p q t :
  fold_left (fun previous_row ic => lev_row t previous_row ic.1 ic.2)
    (combine (seq (length p) (length q)) q) (matrix_row p t)
  = matrix_row (p ++ q) t.
Proof.
  induction q as [|c q IH] in p |- *; simpl.
  - by rewrite app_nil_r.
  - rewrite lev_row_spec. specialize (IH (p ++ [c])).
    rewrite length_app in IH. simpl in IH. rewrite Nat.add_1_r in IH.
    rewrite IH, <- app_assoc. done.
Qed.

(** The dynamic programme computes the Levenshtein distance. *)
Lemma lev_distance_levenshtein s t : lev_distance s t = levenshtein s t.
Proof.
  unfold lev_distance, enumerate.
  rewrite <- matrix_row_nil.
  pose proof (lev_rows_spec [] s t) as Hrows. simpl in Hrows.
  rewrite Hrows. apply last_matrix_row.
Qed.
End DP.

(** ** Characters and trimming *)

Lemma is_space_lower_char c : is_space (lower_char c) = is_space c.
Proof. destruct c as [[] [] [] [] [] [] [] []]; reflexivity. Qed.

Lemma lower_char_idem c : lower_char (lower_char c) = lower_char c.
Proof. destruct c as [[] [] [] [] [] [] [] []]; reflexivity. Qed.

Lemma drop_space_idem l : drop_space (drop_space l) = drop_space l.
Proof.
  induction l as [|c l IH]; simpl; [done|].
  destruct (is_space c) eqn:Hc; [done|]. simpl. by rewrite Hc.
Qed.

Lemma drop_space_nil l : drop_space l = [] ↔ forallb is_space l = true.
Proof.
  induction l as [|c l IH]; simpl; [done|].
  destruct (is_space c); simpl; [done|]. split; discriminate.
Qed.

Lemma drop_space_map_lower l :
  drop_space (map lower_char l) = map lower_char (drop_space l).
Proof.
  induction l as [|c l IH]; simpl; [done|].
  rewrite is_space_lower_char. by destruct (is_space c).
Qed.

Lemma drop_space_app_nonspace l c l' :
  is_space c = false → drop_space (l ++ c :: l') = drop_space l ++ c :: l'.
Proof.
  intros Hc. induction l as [|d l IH]; simpl.
  - by rewrite Hc.
  - by destruct (is_space d).
Qed.

Lemma drop_space_rev_drop_space r :
  drop_space (rev r) = rev r →
  drop_space (rev (drop_space r)) = rev (drop_space r).
Proof.
  induction r as [|c r IH]; simpl; [done|].
  destruct (is_space c) eqn:Hc; [|done].
  intros Hrev. apply IH.
  destruct (rev r) as [|d r'] eqn:Hr; [done|].
  simpl in Hrev |- *. destruct (is_space d) eqn:Hd; [|done].
  exfalso. apply (f_equal length) in Hrev. simpl in Hrev.
  assert (Hle : ∀ l, length (drop_space l) <= length l).
  { clear. induction l as [|x l IH]; simpl; [done|]. destruct (is_space x); simpl; lia. }
  specialize (Hle (r' ++ [c])). lia.
Qed.

Lemma strip_chars_trimmed l : trimmed (strip_chars l).
Proof.
  unfold trimmed, strip_chars. rewrite rev_involutive, drop_space_idem.
  split; [|done].
  apply drop_space_rev_drop_space. by rewrite rev_involutive, drop_space_idem.
Qed.

Lemma trimmed_strip_chars l : trimmed l → strip_chars l = l.
Proof.
  intros [Hl Hr]. unfold strip_chars. by rewrite Hl, Hr, rev_involutive.
Qed.

Lemma strip_chars_idem l : strip_chars (strip_chars l) = strip_chars l.
Proof. apply trimmed_strip_chars, strip_chars_trimmed. Qed.

Lemma strip_chars_map_lower l :
  strip_chars (map lower_char l) = map lower_char (strip_chars l).
Proof.
  unfold strip_chars.
  by rewrite drop_space_map_lower, <- map_rev, drop_space_map_lower, map_rev.
Qed.

Lemma forallb_is_space_rev l :
  forallb is_space (rev l) = forallb is_space l.
Proof.
  destruct (forallb is_space l) eqn:Hl.
  - rewrite forallb_forall in *. intros c Hc. apply Hl. by apply in_rev.
  - apply not_true_is_false. intros Hr. rewrite forallb_forall in Hr.
    assert (forallb is_space l = true); [|congruence].
    apply forallb_forall. intros c Hc. apply Hr. by apply in_rev in Hc.
Qed.

Lemma drop_space_all_space l :
  forallb is_space (drop_space l) = true ↔ forallb is_space l = true.
Proof.
  induction l as [|c l IH]; simpl; [done|].
  destruct (is_space c) eqn:Hc; simpl; [done|]. by rewrite Hc.
Qed.

Lemma strip_chars_nil l : strip_chars l = [] ↔ forallb is_space l = true.
Proof.
  unfold strip_chars. split.
  - intros Hs. apply (f_equal (@rev ascii)) in Hs. rewrite rev_involutive in Hs.
    simpl in Hs. apply drop_space_nil in Hs.
    rewrite forallb_is_space_rev in Hs. by apply drop_space_all_space.
  - intros Hl. apply drop_space_all_space in Hl.
    rewrite <- forallb_is_space_rev in Hl. apply drop_space_nil in Hl.
    by rewrite Hl.
Qed.

(** ** Strings *)

Lemma string_length_chars s : String.length s = length (list_ascii_of_string s).
Proof. induction s as [|c s IH]; simpl; congruence. Qed.

Lemma is_empty_chars s :
  is_empty s = match list_ascii_of_string s with [] => true | _ => false end.
Proof. by destruct s. Qed.

Lemma is_empty_true s : is_empty s = true ↔ s = "".
Proof. unfold is_empty. apply String.eqb_eq. Qed.

Lemma strip_idem s : strip (strip s) = strip s.
Proof.
  unfold strip. by rewrite list_ascii_of_string_of_list_ascii, strip_chars_idem.
Qed.

Lemma lower_idem s : lower (lower s) = lower s.
Proof.
  unfold lower. rewrite list_ascii_of_string_of_list_ascii, map_map.
  f_equal. apply map_ext. intros c. apply lower_char_idem.
Qed.

Lemma strip_lower s : strip (lower s) = lower (strip s).
Proof.
  unfold strip, lower.
  by rewrite !list_ascii_of_string_of_list_ascii, strip_chars_map_lower.
Qed.

(** Normalising a normalised string changes nothing. *)
Lemma strip_lower_idem s : strip (lower (strip (lower s))) = strip (lower s).
Proof. by rewrite (strip_lower (strip (lower s))), strip_idem, <- strip_lower, lower_idem. Qed.

Lemma strip_lower_key s : strip (lower (lower (strip s))) = lower (strip s).
Proof. by rewrite lower_idem, strip_lower, strip_idem. Qed.

Lemma forallb_is_space_map_lower l :
  forallb is_space (map lower_char l) = forallb is_space l.
Proof.
  induction l as [|d k IH]; simpl; [done|]. by rewrite is_space_lower_char, IH.
Qed.

Lemma is_empty_strip_lower s :
  is_empty (strip (lower s)) = whitespace_only s.
Proof.
  unfold whitespace_only. rewrite is_empty_chars. unfold strip, lower.
  rewrite !list_ascii_of_string_of_list_ascii.
  rewrite <- forallb_is_space_map_lower.
  destruct (strip_chars (map lower_char (list_ascii_of_string s))) as [|c l] eqn:Hs.
  - apply strip_chars_nil in Hs. by rewrite Hs.
  - symmetry. apply not_true_is_false. intros Hall.
    apply strip_chars_nil in Hall. congruence.
Qed.

Section MoreLevenshtein.
Context {A : Type} `{EqDecision A}.
Implicit Types s t : list A.

Lemma edits_sym s t n : edits s t n → edits t s n.
Proof. induction 1; by constructor. Qed.

Lemma levenshtein_sym s t : levenshtein s t = levenshtein t s.
Proof.
  apply Nat.le_antisymm; apply levenshtein_le_edits, edits_sym, edits_levenshtein.
Qed.

Lemma levenshtein_refl s : levenshtein s s = 0.
Proof.
  assert (edits s s 0) as Hs%levenshtein_le_edits by (induction s; by constructor).
  lia.
Qed.

Lemma levenshtein_nil_l t : levenshtein [] t = length t.
Proof. done. Qed.
End MoreLevenshtein.

(** ** Rational arithmetic *)

Lemma Q_of_nat_div_self n : (0 < n)%nat → (Q_of_nat n / Q_of_nat n == 1)%Q.
Proof.
  intros Hn. apply Qmult_inv_r. unfold Q_of_nat, Qeq. simpl. lia.
Qed.

Lemma Qltb_lt x y : Qltb x y = true ↔ (x < y)%Q.
Proof.
  unfold Qltb. rewrite negb_true_iff, <- not_true_iff_false, Qle_bool_iff.
  split; [apply Qnot_le_lt|apply Qlt_not_le].
Qed.

Lemma Qltb_proper t x y : (x == y)%Q → Qltb t x = Qltb t y.
Proof.
  intros Hxy. apply eq_true_iff_eq. rewrite !Qltb_lt. by rewrite Hxy.
Qed.

(** ** [_string_similarity] *)

(** The value of [_string_similarity], with the recursive call unfolded.
    [a] and [b] are the normalised arguments. *)
Lemma string_similarity_rec_unfold n s1 s2 :
  let a := strip (lower s1) in
  let b := strip (lower s2) in
  string_similarity_rec (S (S n)) s1 s2 = Some (
    if is_empty a || is_empty b then 0%Q
    else if String.eqb a b then 1%Q
    else
      let long := if (String.length a <? String.length b)%nat then b else a in
      let short := if (String.length a <? String.length b)%nat then a else b in
      let max_len := Nat.max (String.length long) (String.length short) in
      if (0 <? max_len)%nat
      then (1 - Q_of_nat (lev_distance (list_ascii_of_string long)
                            (list_ascii_of_string short)) / Q_of_nat max_len)%Q
      else 1%Q).
Proof.
  intros a b. cbn [string_similarity_rec]. fold a b.
  destruct (is_empty a || is_empty b) eqn:Hempty; [done|].
  destruct (String.eqb a b) eqn:Hab; [done|].
  destruct (String.length a <? String.length b)%nat eqn:Hlen; [|done].
  unfold a, b. rewrite !strip_lower_idem. fold a b.
  rewrite orb_comm, Hempty.
  rewrite String.eqb_sym, Hab.
  apply Nat.ltb_lt in Hlen.
  destruct (String.length b <? String.length a)%nat eqn:Hlen'; [|done].
  apply Nat.ltb_lt in Hlen'. lia.
Qed.

(** Two levels of recursion are enough: more fuel gives the same value. *)
Lemma string_similarity_total n s1 s2 :
  string_similarity_rec (S (S n)) s1 s2 = Some (string_similarity s1 s2).
Proof.
  unfold string_similarity.
  by rewrite (string_similarity_rec_unfold 0), (string_similarity_rec_unfold n).
Qed.

Lemma string_similarity_blank s1 s2 :
  is_empty (strip (lower s1)) || is_empty (strip (lower s2)) = true →
  string_similarity s1 s2 = 0%Q.
Proof.
  intros Hempty. unfold string_similarity.
  rewrite (string_similarity_rec_unfold 0). simpl. by rewrite Hempty.
Qed.

Lemma string_similarity_same s1 s2 :
  is_empty (strip (lower s1)) = false →
  strip (lower s1) = strip (lower s2) →
  string_similarity s1 s2 = 1%Q.
Proof.
  intros Hempty Heq. unfold string_similarity.
  rewrite (string_similarity_rec_unfold 0). simpl.
  rewrite <- Heq, Hempty, String.eqb_refl. done.
Qed.

(** Where the normalised Levenshtein similarity has a value, the method
    returns it. *)
Lemma string_similarity_normalized s1 s2 q :
  normalized_levenshtein (strip (lower s1)) (strip (lower s2)) = Some q →
  (string_similarity s1 s2 == q)%Q.
Proof.
  unfold normalized_levenshtein, string_similarity.
  rewrite (string_similarity_rec_unfold 0). cbn zeta.
  set (a := strip (lower s1)). set (b := strip (lower s2)).
  rewrite !(string_length_chars a), !(string_length_chars b), !is_empty_chars.
  destruct (Nat.max _ _ =? 0)%nat eqn:Hmax; [done|].
  apply Nat.eqb_neq in Hmax. intros [= <-]. simpl.
  destruct (list_ascii_of_string a) as [|ca la] eqn:Ha.
  { destruct (list_ascii_of_string b) as [|cb lb] eqn:Hb; [done|].
    simpl. rewrite Q_of_nat_div_self by lia. ring. }
  destruct (list_ascii_of_string b) as [|cb lb] eqn:Hb.
  { simpl. rewrite Q_of_nat_div_self by lia. ring. }
  cbn [orb].
  destruct (String.eqb a b) eqn:Hab.
  { apply String.eqb_eq in Hab. assert (ca :: la = cb :: lb) as -> by congruence.
    rewrite levenshtein_refl. unfold Q_of_nat at 1. simpl.
    unfold Qdiv. ring. }
  rewrite !string_length_chars.
  destruct (length (ca :: la) <? length (cb :: lb))%nat eqn:Hlen; rewrite ?Ha, ?Hb.
  - rewrite lev_distance_levenshtein, (levenshtein_sym (cb :: lb)), (Nat.max_comm (length (cb :: lb))).
    destruct (0 <? _)%nat eqn:Hpos; [done|]. apply Nat.ltb_ge in Hpos. simpl in *. lia.
  - rewrite lev_distance_levenshtein.
    destruct (0 <? _)%nat eqn:Hpos; [done|]. apply Nat.ltb_ge in Hpos. simpl in *. lia.
Qed.

(** The test [_string_similarity(h1, h2) > 0.8] of the header loop. *)
Lemma similarity_exceeds s1 s2 t :
  (0 <= t)%Q →
  Qltb t (string_similarity s1 s2) =
  exceeds (normalized_levenshtein (strip (lower s1)) (strip (lower s2))) t.
Proof.
  intros Ht.
  destruct (normalized_levenshtein _ _) as [q|] eqn:Hq; simpl.
  - apply Qltb_proper. by apply string_similarity_normalized.
  - unfold normalized_levenshtein in Hq.
    destruct (Nat.max _ _ =? 0)%nat eqn:Hmax; [|done].
    apply Nat.eqb_eq in Hmax.
    rewrite string_similarity_blank.
    + apply not_true_is_false. rewrite Qltb_lt. by apply Qle_not_lt.
    + destruct (strip (lower s1)); [done|]. simpl in Hmax. lia.
Qed.

Section Headers.
Context `{ObjectStr}.

Lemma header_score h1 h2 :
  Qltb (8 # 10) (string_similarity (header_key h1) (header_key h2)) =
  exceeds (normalized_levenshtein (header_key h1) (header_key h2)) (8 # 10).
Proof.
  rewrite similarity_exceeds by done.
  unfold header_key. by rewrite !strip_lower_key.
Qed.

Lemma similarity_count_spec l1 l2 :
  length (filter
    (fun p : string * string => Qltb (8 # 10) (string_similarity p.1 p.2) = true)
    (combine (map (fun h => lower (strip (py_str h))) l1)
             (map (fun h => lower (strip (py_str h))) l2)))
  = similar_columns l1 l2.
Proof.
  unfold similar_columns.
  induction l1 as [|h1 l1 IH] in l2 |- *; [reflexivity|].
  destruct l2 as [|h2 l2]; [reflexivity|].
  cbn [map combine zip_with].
  rewrite !filter_cons. cbn [fst snd].
  change (lower (strip (py_str h1))) with (header_key h1).
  change (lower (strip (py_str h2))) with (header_key h2).
  rewrite header_score.
  destruct (exceeds _ _).
  - rewrite !decide_True by reflexivity. cbn [length]. f_equal. apply IH.
  - rewrite !decide_False by discriminate. apply IH.
Qed.

Lemma are_headers_similar_length l1 l2 :
  length l1 ≠ length l2 → are_headers_similar (PList l1) (PList l2) = false.
Proof.
  intros Hlen. unfold are_headers_similar.
  destruct (negb (py_truthy (PList l1)) || negb (py_truthy (PList l2)));
    [reflexivity|].
  rewrite !length_map. apply Nat.eqb_neq in Hlen. rewrite Hlen. reflexivity.
Qed.

Lemma are_headers_similar_ratio l1 l2 :
  length l1 = length l2 → l1 ≠ [] →
  are_headers_similar (PList l1) (PList l2) =
  Qltb (7 # 10) (Q_of_nat (similar_columns l1 l2) / Q_of_nat (length l1)).
Proof.
  intros Hlen Hne. unfold are_headers_similar.
  destruct l1 as [|h1 l1]; [congruence|]. destruct l2 as [|h2 l2]; [discriminate|].
  cbn [py_truthy negb orb]. rewrite !length_map, Hlen, Nat.eqb_refl.
  cbn [negb]. rewrite similarity_count_spec. cbn [map].
  reflexivity.
Qed.

(** Claim C4, as the code has it: [_string_similarity(s, s)] is 1.0 for
    every [s] that has a character other than white space, and 0.0 for
    every [s] made of white space only (the strings are trimmed before the
    emptiness test); [_string_similarity("", "x")] is 0.0. *)
Theorem string_similarity_self_spec (s : string) :
  string_similarity s s = (if whitespace_only s then 0 else 1)%Q ∧
  string_similarity "" "x" = 0%Q.
Proof.
  split; [|reflexivity].
  rewrite <- is_empty_strip_lower.
  destruct (is_empty (strip (lower s))) eqn:Hs.
  - apply string_similarity_blank. rewrite Hs. reflexivity.
  - apply string_similarity_same; [exact Hs|reflexivity].
Qed.

(** Claim C7: [_are_headers_similar] is false for header lists of different
    lengths; for non-empty lists of one length it is true exactly when the
    columns whose similarity exceeds 0.8, divided by the number of
    columns, exceed 0.7; and the similarity of two headers is the
    normalised Levenshtein similarity [1 - distance / max_len] of the
    trimmed, lower-cased strings wherever that quotient is defined (two
    blank headers, for which it is not, are not counted). *)
Theorem are_headers_similar_spec (headers1 headers2 : list pyval) :
  (length headers1 ≠ length headers2 →
     are_headers_similar (PList headers1) (PList headers2) = false) ∧
  (length headers1 = length headers2 → headers1 ≠ [] →
     (are_headers_similar (PList headers1) (PList headers2) = true ↔
      (7 # 10 < Q_of_nat (similar_columns headers1 headers2)
                / Q_of_nat (length headers1))%Q)) ∧
  (∀ s1 s2 q,
     normalized_levenshtein (strip (lower s1)) (strip (lower s2)) = Some q →
     (string_similarity s1 s2 == q)%Q).
Proof.
  split; [apply are_headers_similar_length|]. split.
  - intros Hlen Hne. rewrite are_headers_similar_ratio by assumption.
    apply Qltb_lt.
  - intros s1 s2 q. apply string_similarity_normalized.
Qed.
End Headers.

(** ** [split] and [join] *)

Lemma push_word_clean w ws :
  forallb (fun c => negb (is_space c)) w = true → clean_words ws →
  clean_words (push_word w ws).
Proof.
  intros Hw Hws. destruct w as [|c w]; [done|]. by constructor.
Qed.

Lemma split_step_space c acc :
  is_space c = true → split_step c acc = ([], push_word acc.1 acc.2).
Proof. unfold split_step. by intros ->. Qed.

Lemma split_step_char c acc :
  is_space c = false → split_step c acc = (c :: acc.1, acc.2).
Proof. unfold split_step. by intros ->. Qed.

Lemma split_fold_clean l :
  let acc := foldr split_step ([], []) l in
  forallb (fun c => negb (is_space c)) acc.1 = true ∧ clean_words acc.2.
Proof.
  induction l as [|c l [IH1 IH2]]; cbn [foldr].
  - split; [done|constructor].
  - destruct (is_space c) eqn:Hc.
    + rewrite split_step_space by done. cbn [fst snd].
      split; [done|]. by apply push_word_clean.
    + rewrite split_step_char by done. cbn [fst snd forallb].
      split; [|done]. by rewrite Hc, IH1.
Qed.

Lemma split_chars_clean l : clean_words (split_chars l).
Proof.
  unfold split_chars. destruct (split_fold_clean l) as [H1 H2].
  by apply push_word_clean.
Qed.

Lemma split_fold_word w rest :
  forallb (fun c => negb (is_space c)) w = true →
  foldr split_step ([], []) (w ++ rest) =
  (w ++ (foldr split_step ([], []) rest).1, (foldr split_step ([], []) rest).2).
Proof.
  induction w as [|c w IH]; cbn [forallb app foldr].
  - intros _. by destruct (foldr split_step ([], []) rest).
  - intros [Hc Hw]%andb_true_iff. rewrite IH by done.
    apply negb_true_iff in Hc. by rewrite split_step_char.
Qed.

Lemma split_chars_join ws : clean_words ws → split_chars (join_space ws) = ws.
Proof.
  induction 1 as [|w ws [Hne Hw] Hws IH]; [done|].
  destruct ws as [|w' ws].
  - cbn [join_space]. unfold split_chars.
    rewrite <- (app_nil_r w) at 1 2. rewrite split_fold_word by done.
    cbn. rewrite app_nil_r. by destruct w.
  - change (join_space (w :: w' :: ws))
      with (w ++ " "%char :: join_space (w' :: ws)).
    unfold split_chars. rewrite split_fold_word by done.
    cbn [foldr fst snd]. rewrite split_step_space by done. cbn [fst snd].
    unfold split_chars in IH. rewrite IH. rewrite app_nil_r. by destruct w.
Qed.

Lemma drop_space_head c l : is_space c = false → drop_space (c :: l) = c :: l.
Proof. intros Hc. cbn. by rewrite Hc. Qed.

Lemma join_space_head w ws :
  clean_words (w :: ws) →
  ∃ c l, join_space (w :: ws) = c :: l ∧ is_space c = false.
Proof.
  intros [[Hne Hw] _]%Forall_cons. destruct w as [|c w]; [done|].
  cbn in Hw. apply andb_true_iff in Hw as [Hc%negb_true_iff _].
  destruct ws; by eexists _, _.
Qed.

Lemma join_space_last w ws :
  clean_words (w :: ws) →
  ∃ l c, join_space (w :: ws) = l ++ [c] ∧ is_space c = false.
Proof.
  induction ws as [|w' ws IH] in w |- *.
  - intros [[Hne Hw] _]%Forall_cons. cbn [join_space].
    destruct (exists_last Hne) as (l & c & ->). exists l, c. split; [done|].
    rewrite forallb_app in Hw. apply andb_true_iff in Hw as [_ Hc].
    cbn in Hc. rewrite andb_true_r in Hc. by apply negb_true_iff.
  - intros [_ Hws]%Forall_cons. destruct (IH w' Hws) as (l & c & Hl & Hc).
    change (join_space (w :: w' :: ws))
      with (w ++ " "%char :: join_space (w' :: ws)).
    rewrite Hl. exists (w ++ " "%char :: l), c. split; [|done].
    by rewrite <- app_assoc.
Qed.

Lemma join_space_trimmed ws : clean_words ws → trimmed (join_space ws).
Proof.
  intros Hws. destruct ws as [|w ws]; [done|]. split.
  - destruct (join_space_head w ws Hws) as (c & l & -> & Hc).
    by apply drop_space_head.
  - destruct (join_space_last w ws Hws) as (l & c & -> & Hc).
    rewrite rev_unit. by apply drop_space_head.
Qed.

(** Normalising white space twice is normalising it once. *)
Lemma normalize_ws_idem s : normalize_ws (normalize_ws s) = normalize_ws s.
Proof.
  unfold normalize_ws. rewrite list_ascii_of_string_of_list_ascii.
  set (ws := split_chars (strip_chars (list_ascii_of_string s))).
  assert (Hws : clean_words ws) by apply split_chars_clean.
  rewrite (trimmed_strip_chars _ (join_space_trimmed ws Hws)).
  by rewrite split_chars_join.
Qed.

Section Merge.
Context `{ObjectStr}.

(** What [_merge_tables] writes into the copy of [table1]. *)
Lemma merge_tables_unfold (table1 table2 m : table) :
  merge_tables table1 table2 = Some m →
  ∃ text1 text2,
    dict_get table1 "text" (PStr "") = PStr text1 ∧
    dict_get table2 "text" (PStr "") = PStr text2 ∧
    m = <["is_cross_page" := PBool true]>
        (<["extraction_method" :=
             PStr (py_str (dict_get table1 "extraction_method" (PStr "unknown"))
                   +:+ "_cross_page")]>
        (<["page_range" := PList [dict_get table1 "page" (PInt 0);
                                  dict_get table2 "page" (PInt 0)]]>
        (<["text" := PStr (text1 +:+ String "010"%char "" +:+ text2)]>
           (match table1 !! "data", table2 !! "data" with
            | Some (PList data1), Some (PList data2) =>
                <["data" := PList (data1 ++ drop (start_idx data1 data2) data2)]> table1
            | _, _ => table1
            end)))).
Proof.
  unfold merge_tables. intros Hm.
  destruct (dict_get table1 "text" (PStr "")) as [| | | |text1| |] eqn:H1;
    try discriminate.
  destruct (dict_get table2 "text" (PStr "")) as [| | | |text2| |] eqn:H2;
    try discriminate.
  exists text1, text2. cbn in Hm. by injection Hm as <-.
Qed.

(** What [_merge_tables] returns: the merged table is a copy of the first
    table in which [data], when both tables carry a list under that key,
    is the first table's data followed by the second's, without the
    second's first row when the two first rows are header-similar; [text]
    is the two texts joined by a newline; [page_range] is the pair of the
    two pages; [extraction_method] is the first table's method followed by
    [_cross_page]; [is_cross_page] is true; and every other key, among
    them [bbox], [headers], [rows] and [context], is that of the first
    table. *)
Lemma merge_tables_spec (table1 table2 m : table) :
  merge_tables table1 table2 = Some m →
  (∀ data1 data2,
     table1 !! "data" = Some (PList data1) →
     table2 !! "data" = Some (PList data2) →
     m !! "data" = Some (PList (data1 ++ drop (start_idx data1 data2) data2))) ∧
  ((is_list <$> table1 !! "data") ≠ Some true ∨
   (is_list <$> table2 !! "data") ≠ Some true →
     m !! "data" = table1 !! "data") ∧
  (∃ text1 text2,
     dict_get table1 "text" (PStr "") = PStr text1 ∧
     dict_get table2 "text" (PStr "") = PStr text2 ∧
     m !! "text" = Some (PStr (text1 +:+ String "010"%char "" +:+ text2))) ∧
  m !! "page_range" =
    Some (PList [dict_get table1 "page" (PInt 0); dict_get table2 "page" (PInt 0)]) ∧
  m !! "extraction_method" =
    Some (PStr (py_str (dict_get table1 "extraction_method" (PStr "unknown"))
                +:+ "_cross_page")) ∧
  m !! "is_cross_page" = Some (PBool true) ∧
  (∀ key, key ∉ merge_keys → m !! key = table1 !! key).
Proof.
  intros (text1 & text2 & Ht1 & Ht2 & ->)%merge_tables_unfold.
  repeat split.
  - intros data1 data2 -> ->.
    rewrite !lookup_insert_ne by done. by rewrite lookup_insert_eq.
  - intros Hd. rewrite !lookup_insert_ne by done.
    destruct (table1 !! "data") as [[]|] eqn:E1;
      destruct (table2 !! "data") as [[]|] eqn:E2;
      try done; simpl in Hd; by destruct Hd.
  - exists text1, text2. repeat split; [done..|].
    rewrite !lookup_insert_ne by done. by rewrite lookup_insert_eq.
  - rewrite !lookup_insert_ne by done. by rewrite lookup_insert_eq.
  - rewrite !lookup_insert_ne by done. by rewrite lookup_insert_eq.
  - by rewrite lookup_insert_eq.
  - intros key Hkey. unfold merge_keys in Hkey.
    rewrite !not_elem_of_cons in Hkey. destruct Hkey as (?&?&?&?&?&_).
    rewrite !lookup_insert_ne by done.
    destruct (table1 !! "data") as [[]|] eqn:E1;
      destruct (table2 !! "data") as [[]|] eqn:E2;
      try done; by rewrite lookup_insert_ne.
Qed.
End Merge.

(** ** Comparisons of integers *)

Lemma py_eq_int a b : py_eq (PInt a) (PInt b) = bool_decide (a = b).
Proof.
  cbn. unfold Qeq_bool. cbn. rewrite !Z.mul_1_r.
  apply eq_true_iff_eq. by rewrite bool_decide_eq_true, Z.eqb_eq.
Qed.

Lemma py_lt_int a b : py_lt (PInt a) (PInt b) = Some (bool_decide (a < b)%Z).
Proof.
  cbn. unfold Qle_bool. cbn. rewrite !Z.mul_1_r. f_equal.
  apply eq_true_iff_eq. rewrite bool_decide_eq_true, negb_true_iff, Z.leb_gt. done.
Qed.

Lemma key_lt_pages a b y1 y2 :
  a ≠ b → key_lt (PInt a, y1) (PInt b, y2) = Some (bool_decide (a < b)%Z).
Proof.
  intros Hab. unfold key_lt. cbn [fst snd].
  rewrite py_eq_int, bool_decide_eq_false_2 by done. apply py_lt_int.
Qed.

Lemma sort_key_page t k :
  sort_key t = Some k → k.1 = dict_get t "page" (PInt 0).
Proof.
  unfold sort_key. destruct (t !! "bbox") as [bbox|]; [|by intros [= <-]].
  destruct (py_len bbox) as [n|]; [|done]. cbn.
  case_bool_decide; [|by intros [= <-]].
  destruct (py_index bbox 1); [|done]. by intros [= <-].
Qed.

(** ** The sort *)

Section Sorting.
Implicit Types l : list ((pyval * pyval) * table).

Lemma insert_keyed_perm x l l' : insert_keyed x l = Some l' → l' ≡ₚ x :: l.
Proof.
  induction l as [|h l IH] in l' |- *; cbn.
  - by intros [= <-].
  - destruct (key_lt h.1 x.1) as [[]|]; cbn; [|by intros [= <-]|done].
    destruct (insert_keyed x l) as [l''|]; cbn; [|done].
    intros [= <-]. rewrite (IH l'') by done. apply perm_swap.
Qed.

Lemma sort_keyed_perm l l' : sort_keyed l = Some l' → l' ≡ₚ l.
Proof.
  induction l as [|x l IH] in l' |- *; cbn.
  - by intros [= <-].
  - destruct (sort_keyed l) as [s|]; cbn; [|done].
    intros Hins%insert_keyed_perm. rewrite Hins. by rewrite (IH s).
Qed.

Lemma sort_keyed_sorted l : keyed_sorted l → sort_keyed l = Some l.
Proof.
  induction 1 as [|x l Hl IH Hx]; cbn; [done|].
  rewrite IH. cbn. destruct Hx as [|h l Hh]; cbn; [done|]. by rewrite Hh.
Qed.
End Sorting.

(** ** Orders of two and three tables *)

Lemma perm_two_cases {X} (b c : X) l :
  [b; c] ≡ₚ l → l = [b; c] ∨ l = [c; b].
Proof.
  intros (k1 & k2 & -> & Hc)%Permutation_cons_inv_l.
  apply Permutation_singleton_l in Hc.
  destruct k1 as [|x k1]; simpl in Hc.
  - subst k2. by left.
  - injection Hc as <- Hk. apply eq_sym, app_eq_nil in Hk as [-> ->]. by right.
Qed.

Lemma perm_three_cases {X} (a b c : X) l :
  l ≡ₚ [a; b; c] →
  l = [a; b; c] ∨ l = [a; c; b] ∨ l = [b; a; c] ∨
  l = [c; a; b] ∨ l = [b; c; a] ∨ l = [c; b; a].
Proof.
  intros Hl. symmetry in Hl.
  apply Permutation_cons_inv_l in Hl as (k1 & k2 & -> & Hbc).
  apply perm_two_cases in Hbc.
  destruct k1 as [|x [|y [|z k1]]]; simpl in Hbc |- *;
    destruct Hbc as [Hbc|Hbc]; simplify_eq; auto 10;
    try (apply (f_equal length) in Hbc; simpl in Hbc; rewrite ?length_app in Hbc; simpl in Hbc; lia).
Qed.

(** ** The pass *)

Section Pass.
Context `{ObjectStr} `{InterruptedSort}.

Lemma handle_cross_page_tables_unfold (tables : list table) :
  handle_cross_page_tables tables =
  if bool_decide (length tables < 2) then Returned tables
  else match mapM sort_key tables with
       | None => Recovered tables
       | Some keys =>
           match sort_keyed (zip keys tables) with
           | None => Recovered (interrupted_sort (zip keys tables))
           | Some sorted =>
               match merge_scan sorted.*2 with
               | Some merged_tables => Returned merged_tables
               | None => Recovered sorted.*2
               end
           end
       end.
Proof. done. Qed.

(** The pointer advances by two after a merge and by one otherwise. *)
Lemma merge_scan_merged current_table next_table rest m :
  py_succ (dict_get current_table "page" (PInt 0))
    = Some (dict_get next_table "page" (PInt 0)) →
  py_eq (dict_get next_table "page" (PInt 0)) (dict_get next_table "page" (PInt 0)) = true →
  are_tables_related current_table next_table = Some true →
  merge_tables current_table next_table = Some m →
  merge_scan (current_table :: next_table :: rest) = (m ::.) <$> merge_scan rest.
Proof.
  intros Hsucc Heq Hrel Hm. cbn [merge_scan].
  rewrite Hsucc. cbn. rewrite Heq, Hrel. cbn. rewrite Hm. cbn.
  by destruct (merge_scan rest).
Qed.

(** Claim C6: for three pairwise related tables on pages 1, 2 and 3,
    passed in any order (their sort keys can be computed and the first
    two merge without an exception), one pass returns the merge of the
    tables of pages 1 and 2 followed by the table of page 3 as it is:
    after a merge the scan goes on two tables further, so the merged table
    is never compared with the next one. *)
Theorem three_page_tables_one_pass (t1 t2 t3 m : table) (tables : list table) :
  tables ≡ₚ [t1; t2; t3] →
  t1 !! "page" = Some (PInt 1) →
  t2 !! "page" = Some (PInt 2) →
  t3 !! "page" = Some (PInt 3) →
  is_Some (sort_key t1) → is_Some (sort_key t2) → is_Some (sort_key t3) →
  are_tables_related t1 t2 = Some true →
  are_tables_related t2 t3 = Some true →
  merge_tables t1 t2 = Some m →
  handle_cross_page_tables tables = Returned [m; t3].
Proof.
  intros Hperm Hp1 Hp2 Hp3 [k1 Hk1] [k2 Hk2] [k3 Hk3] Hrel12 _ Hm.
  pose proof (sort_key_page _ _ Hk1) as Hk1p.
  pose proof (sort_key_page _ _ Hk2) as Hk2p.
  pose proof (sort_key_page _ _ Hk3) as Hk3p.
  unfold dict_get in Hk1p, Hk2p, Hk3p. rewrite Hp1 in Hk1p. rewrite Hp2 in Hk2p.
  rewrite Hp3 in Hk3p. cbn in Hk1p, Hk2p, Hk3p.
  destruct k1 as [p1 y1], k2 as [p2 y2], k3 as [p3 y3]. cbn in Hk1p, Hk2p, Hk3p. subst.
  apply perm_three_cases in Hperm as [->|[->|[->|[->|[->| ->]]]]];
    rewrite handle_cross_page_tables_unfold;
    rewrite bool_decide_eq_false_2 by (cbn; lia);
    cbn [mapM]; rewrite Hk1, Hk2, Hk3; cbn;
    repeat first [ rewrite key_lt_pages by done
                 | rewrite bool_decide_eq_false_2 by lia
                 | rewrite bool_decide_eq_true_2 by lia
                 | progress cbn ];
    unfold dict_get; rewrite Hp1, Hp2; cbn;
    rewrite Hrel12; cbn; rewrite Hm; done.
Qed.

(** Claim C9, as the code has it.  Whatever raises in the [try] block,
    the pass returns: its result is a returned list in every case.  When
    it recovers, the list it returns holds the tables it was given, none
    merged: it is a permutation of the argument, and the argument itself
    when that was in sorted order already.  Its order is that of the
    argument when a sort key could not be computed; the order the
    interrupted sort left when a comparison of [tables.sort] raised; and
    the sorted order when the scan raised, the sort being in place. *)
Theorem handle_cross_page_tables_recovery (tables : list table) :
  (∃ r, handle_cross_page_tables tables = Returned r
        ∨ handle_cross_page_tables tables = Recovered r) ∧
  (∀ r, handle_cross_page_tables tables = Recovered r →
     r ≡ₚ tables ∧ (tables_sorted tables → r = tables)) ∧
  (2 <= length tables →
     mapM sort_key tables = None →
     handle_cross_page_tables tables = Recovered tables) ∧
  (∀ keys,
     2 <= length tables →
     mapM sort_key tables = Some keys →
     sort_keyed (zip keys tables) = None →
     handle_cross_page_tables tables
       = Recovered (interrupted_sort (zip keys tables))) ∧
  (∀ keys sorted,
     2 <= length tables →
     mapM sort_key tables = Some keys →
     sort_keyed (zip keys tables) = Some sorted →
     merge_scan sorted.*2 = None →
     handle_cross_page_tables tables = Recovered sorted.*2).
Proof.
  split; [|split; [|split; [|split]]].
  - destruct (handle_cross_page_tables tables) as [r|r]; exists r; auto.
  - intros r. rewrite handle_cross_page_tables_unfold.
    case_bool_decide; [done|].
    destruct (mapM sort_key tables) as [keys|] eqn:Hkeys.
    2:{ intros [= <-]. split; [done|]. by intros (keys & ? & _). }
    apply length_mapM in Hkeys as Hlen.
    destruct (sort_keyed (zip keys tables)) as [sorted|] eqn:Hsort.
    + destruct (merge_scan sorted.*2); [done|]. intros [= <-]. split.
      * apply sort_keyed_perm in Hsort. rewrite Hsort.
        rewrite snd_zip by lia. done.
      * intros (keys' & Hkeys' & Hsorted).
        assert (keys' = keys) as -> by congruence.
        rewrite (sort_keyed_sorted _ Hsorted) in Hsort. injection Hsort as <-.
        apply snd_zip. lia.
    + intros [= <-]. split.
      * rewrite interrupted_sort_perm. rewrite snd_zip by lia. done.
      * intros (keys' & Hkeys' & Hsorted).
        assert (keys' = keys) as -> by congruence.
        by rewrite (sort_keyed_sorted _ Hsorted) in Hsort.
  - intros Hlen Hkeys. rewrite handle_cross_page_tables_unfold.
    rewrite bool_decide_eq_false_2 by lia. by rewrite Hkeys.
  - intros keys Hlen Hkeys Hsort. rewrite handle_cross_page_tables_unfold.
    rewrite bool_decide_eq_false_2 by lia. by rewrite Hkeys, Hsort.
  - intros keys sorted Hlen Hkeys Hsort Hscan.
    rewrite handle_cross_page_tables_unfold.
    rewrite bool_decide_eq_false_2 by lia. by rewrite Hkeys, Hsort, Hscan.
Qed.
End Pass.

(** ** Cells *)

Lemma clean_cell_idem c : clean_cell (clean_cell c) = clean_cell c.
Proof. destruct c; cbn; try done. by rewrite normalize_ws_idem. Qed.

Lemma clean_cells_idem (cells : list pyval) :
  clean_cell <$> (clean_cell <$> cells) = clean_cell <$> cells.
Proof.
  rewrite <- list_fmap_compose. apply list_fmap_ext. intros _ c _.
  apply clean_cell_idem.
Qed.

(** ** Transposition *)

Lemma zip_star_cons row rows :
  rows ≠ [] → zip_star (row :: rows) = zip_with cons row (zip_star rows).
Proof. by destruct rows. Qed.

Lemma zip_star_length rows n :
  rows ≠ [] → rectangular rows n → length (zip_star rows) = n.
Proof.
  induction rows as [|row rows IH]; [done|]. intros _ [Hrow Hrows]%Forall_cons.
  destruct rows as [|row' rows].
  - cbn. by rewrite length_map.
  - rewrite zip_star_cons by done. rewrite length_zip_with, IH by done. lia.
Qed.

Lemma zip_with_cons_lengths (row : list pyval) cols n :
  rectangular cols n → rectangular (zip_with cons row cols) (S n).
Proof.
  unfold rectangular. intros Hcols.
  induction Hcols as [|col cols Hcol Hcols IH] in row |- *.
  - destruct row; constructor.
  - destruct row as [|c row]; constructor; [cbn; lia|apply IH].
Qed.

(** Every column has one cell per row. *)
Lemma zip_star_columns rows :
  rectangular (zip_star rows) (length rows).
Proof.
  induction rows as [|row rows IH]; [constructor|].
  destruct rows as [|row' rows].
  - cbn. apply Forall_forall. intros col (c & -> & _)%list_elem_of_fmap. done.
  - rewrite zip_star_cons by done. by apply zip_with_cons_lengths.
Qed.

Lemma zip_star_singletons (row : list pyval) :
  row ≠ [] → zip_star ((fun cell => [cell]) <$> row) = [row].
Proof.
  induction row as [|c row IH]; [done|]. intros _.
  destruct row as [|c' row]; [done|].
  change ((fun cell => [cell]) <$> c :: c' :: row)
    with ([c] :: ((fun cell => [cell]) <$> c' :: row)).
  rewrite zip_star_cons by done. rewrite IH by done. done.
Qed.

Lemma zip_star_zip_cons (row : list pyval) cols :
  length row = length cols → row ≠ [] →
  zip_star (zip_with cons row cols) = row :: zip_star cols.
Proof.
  induction row as [|c row IH] in cols |- *; [done|].
  destruct cols as [|col cols]; [done|]. intros [= Hlen] _.
  destruct row as [|c' row].
  - destruct cols; [|done]. done.
  - destruct cols as [|col' cols]; [done|].
    change (zip_with cons (c :: c' :: row) (col :: col' :: cols))
      with ((c :: col) :: zip_with cons (c' :: row) (col' :: cols)).
    rewrite zip_star_cons by done. rewrite IH by done.
    by rewrite (zip_star_cons col) by done.
Qed.

(** Transposing a matrix twice gives it back. *)
Lemma zip_star_involutive rows n :
  rows ≠ [] → 0 < n → rectangular rows n → zip_star (zip_star rows) = rows.
Proof.
  induction rows as [|row rows IH]; [done|].
  intros _ Hn [Hrow Hrows]%Forall_cons.
  assert (row ≠ []) by (intros ->; cbn in Hrow; lia).
  destruct rows as [|row' rows].
  - by apply zip_star_singletons.
  - rewrite zip_star_cons by done.
    rewrite zip_star_zip_cons; [|by rewrite (zip_star_length _ n)|done].
    by rewrite IH.
Qed.

(** ** The steps of the refinement *)

Section Steps.
(** [wrap] is [PList] or [PTuple]: a row object and its cells. *)
Variable wrap : list pyval → pyval.
Hypothesis iter_wrap : ∀ cells, py_iter (wrap cells) = Some cells.

Lemma filter_content_wrapped rows :
  filter_content (wrap <$> rows) =
  Some (wrap <$> List.filter (existsb cell_has_content) rows).
Proof using iter_wrap.
  induction rows as [|row rows IH]; [done|].
  cbn [fmap list_fmap filter_content List.filter].
  unfold row_has_content. rewrite iter_wrap. cbn. rewrite IH. cbn.
  by destruct (existsb cell_has_content row).
Qed.

Lemma mapM_iter_wrapped rows : mapM py_iter (wrap <$> rows) = Some rows.
Proof using iter_wrap. apply mapM_fmap_Some. intros cells. apply iter_wrap. Qed.

Lemma transpose_wrapped rows :
  transpose (wrap <$> rows) = Some (PTuple <$> zip_star rows).
Proof using iter_wrap. unfold transpose. by rewrite mapM_iter_wrapped. Qed.

Lemma clean_rows_wrapped rows :
  mapM clean_row (wrap <$> rows) =
  Some (PList <$> (fmap clean_cell <$> rows)).
Proof using iter_wrap.
  apply mapM_Some. induction rows as [|row rows IH]; constructor; [|done].
  unfold clean_row. by rewrite iter_wrap.
Qed.
End Steps.

Lemma filter_all_content (rows : list (list pyval)) :
  Forall (fun row => existsb cell_has_content row = true) rows →
  List.filter (existsb cell_has_content) rows = rows.
Proof.
  induction 1 as [|row rows Hrow _ IH]; [done|]. cbn. by rewrite Hrow, IH.
Qed.

(** The rows [filter_content] keeps can be iterated and have content. *)
Lemma filter_content_kept rows kept :
  filter_content rows = Some kept →
  ∃ cells, mapM py_iter kept = Some cells ∧
           Forall (fun row => existsb cell_has_content row = true) cells.
Proof.
  induction rows as [|row rows IH] in kept |- *; cbn.
  - intros [= <-]. by exists [].
  - unfold row_has_content.
    destruct (py_iter row) as [cells|] eqn:Hrow; [|done]. cbn.
    destruct (filter_content rows) as [kept'|]; [|done]. cbn.
    destruct (IH kept' eq_refl) as (cells' & Hiter & Hcontent).
    destruct (existsb cell_has_content cells) eqn:Hcells; intros [= <-].
    + exists (cells :: cells'). cbn. rewrite Hrow. cbn. rewrite Hiter. cbn.
      split; [done|]. by constructor.
    + by exists cells'.
Qed.

Lemma existsb_lookup (cells : list pyval) :
  existsb cell_has_content cells = true ↔
  ∃ i c, cells !! i = Some c ∧ cell_has_content c = true.
Proof.
  rewrite existsb_exists. split.
  - intros (c & Hin & Hc). apply list_elem_of_In, list_elem_of_lookup in Hin as [i Hi].
    by exists i, c.
  - intros (i & c & Hi & Hc). exists c. split; [|done].
    apply list_elem_of_In, list_elem_of_lookup. by exists i.
Qed.

(** When every row has content, so has some column: the columns are as
    many as the cells of the shortest row, and that row has content. *)
Lemma zip_star_some_content rows :
  rows ≠ [] →
  Forall (fun row => existsb cell_has_content row = true) rows →
  Exists (fun col => existsb cell_has_content col = true) (zip_star rows).
Proof.
  induction rows as [|row rows IH]; [done|]. intros _ [Hrow Hrows]%Forall_cons.
  apply existsb_lookup in Hrow as (i & c & Hi & Hc).
  destruct rows as [|row' rows].
  - cbn. apply Exists_exists. exists [c]. split.
    + apply list_elem_of_fmap. exists c. split; [done|].
      apply list_elem_of_lookup. by exists i.
    + cbn. by rewrite Hc.
  - rewrite zip_star_cons by done.
    specialize (IH ltac:(done) Hrows).
    apply Exists_exists in IH as (col & Hcol & Hcontent).
    apply list_elem_of_lookup in Hcol as [j Hj].
    apply Exists_exists.
    destruct (row !! j) as [cj|] eqn:Hrj.
    + exists (cj :: col). split.
      * apply list_elem_of_lookup. exists j.
        rewrite lookup_zip_with, Hrj. cbn [mbind option_bind]. by rewrite Hj.
      * cbn. rewrite Hcontent. apply orb_true_r.
    + apply lookup_ge_None in Hrj. apply lookup_lt_Some in Hi as Hilt.
      apply lookup_lt_Some in Hj as Hjlt.
      destruct (lookup_lt_is_Some_2 (zip_star (row' :: rows)) i) as [ci Hci]; [lia|].
      exists (c :: ci). split.
      * apply list_elem_of_lookup. exists i.
        rewrite lookup_zip_with, Hi. cbn [mbind option_bind]. by rewrite Hci.
      * cbn. by rewrite Hc.
Qed.

Lemma filter_some_content (cols : list (list pyval)) :
  Exists (fun col => existsb cell_has_content col = true) cols →
  List.filter (existsb cell_has_content) cols ≠ [].
Proof.
  induction 1 as [col cols Hcol|col cols _ IH]; cbn.
  - by rewrite Hcol.
  - by destruct (existsb cell_has_content col).
Qed.

Lemma filter_rectangular (cols : list (list pyval)) n :
  rectangular cols n → rectangular (List.filter (existsb cell_has_content) cols) n.
Proof.
  unfold rectangular. rewrite !Forall_forall. intros Hcols col Hin.
  apply list_elem_of_In, filter_In in Hin as [Hin _]. by apply Hcols, list_elem_of_In.
Qed.

(** After step 2 the rows are tuples of one width. *)
Lemma drop_empty_columns_shape data cells data' :
  mapM py_iter data = Some cells →
  Forall (fun row => existsb cell_has_content row = true) cells →
  drop_empty_columns data = Some data' →
  ∃ rows n, data' = PTuple <$> rows ∧ rectangular rows n ∧ (rows ≠ [] → 0 < n).
Proof.
  intros Hiter Hcontent. unfold drop_empty_columns.
  destruct data as [|row data].
  { intros [= <-]. exists [], 0. split; [done|]. split; [constructor|].
    intros Hne. by destruct Hne. }
  assert (Htr : transpose (row :: data) = Some (PTuple <$> zip_star cells)).
  { unfold transpose. by rewrite Hiter. }
  rewrite Htr. cbn [mbind option_bind].
  rewrite (filter_content_wrapped PTuple) by done. cbn [mbind option_bind].
  assert (Hcells : cells ≠ []).
  { apply length_mapM in Hiter. by destruct cells. }
  pose proof (filter_some_content _ (zip_star_some_content _ Hcells Hcontent)) as Hkept.
  pose proof (filter_rectangular _ _ (zip_star_columns cells)) as Hrect.
  destruct (List.filter (existsb cell_has_content) (zip_star cells))
    as [|col cols]; [done|].
  cbn [fmap list_fmap].
  change (PTuple col :: (PTuple <$> cols)) with (PTuple <$> col :: cols).
  rewrite (transpose_wrapped PTuple) by done. intros [= <-].
  exists (zip_star (col :: cols)), (length (col :: cols)).
  split; [done|]. split; [apply zip_star_columns|]. cbn. lia.
Qed.

Lemma truthy_iter_nonempty v cells :
  py_truthy v = true → py_iter v = Some cells → cells ≠ [].
Proof.
  destruct v; try done; cbn.
  - destruct s; [done|]. by intros _ [= <-].
  - destruct l; [done|]. by intros _ [= <-].
  - destruct l; [done|]. by intros _ [= <-].
Qed.

(** ** The shape of a refined table *)

Lemma refine_without_data (t : table) :
  t !! "data" = None ∨ (∃ d, t !! "data" = Some d ∧ py_truthy d = false) →
  refine_table_structure t = Some t.
Proof.
  unfold refine_table_structure. intros [->|(d & -> & ->)]; done.
Qed.

Lemma refine_shape (t t' : table) :
  refine_table_structure t = Some t' →
  (t' = t ∧
   (t !! "data" = None ∨ ∃ d, t !! "data" = Some d ∧ py_truthy d = false)) ∨
  ∃ hs rows n,
    t' = refined_table t hs rows ∧ rectangular rows n ∧
    (rows ≠ [] → 0 < n ∧ hs ≠ []).
Proof.
  unfold refine_table_structure.
  destruct (t !! "data") as [d|] eqn:Hd; [|intros [= <-]; left; auto].
  destruct (py_truthy d) eqn:Htruthy; cbn [negb];
    [|intros [= <-]; left; eauto].
  destruct (py_iter d) as [data0|]; [|done]. cbn [mbind option_bind].
  destruct (filter_content data0) as [data1|] eqn:Hfilter; [|done].
  cbn [mbind option_bind].
  destruct (drop_empty_columns data1) as [data2|] eqn:Hcols; [|done].
  cbn [mbind option_bind].
  destruct (filter_content_kept _ _ Hfilter) as (cells & Hiter & Hcontent).
  destruct (drop_empty_columns_shape _ _ _ Hiter Hcontent Hcols)
    as (rows & n & -> & Hrect & Hn).
  intros Hrefine. right.
  destruct rows as [|row rows].
  - cbn in Hrefine. destruct (py_iter _) as [hs|]; [|done].
    injection Hrefine as <-. exists hs, [], n. split; [done|].
    split; [constructor|]. intros Hne. by destruct Hne.
  - specialize (Hn ltac:(done)). apply Forall_cons in Hrect as [Hrow Hrows].
    cbn [fmap list_fmap] in Hrefine.
    destruct (py_truthy (dict_get t "headers" (PList []))) eqn:Hh;
      cbn [negb] in Hrefine.
    + destruct (py_iter (dict_get t "headers" (PList []))) as [hs|] eqn:Hhs;
        [|done].
      cbn [mbind option_bind] in Hrefine.
      change (PTuple row :: (PTuple <$> rows))
        with (PTuple <$> row :: rows) in Hrefine.
      rewrite (clean_rows_wrapped PTuple) in Hrefine by done.
      injection Hrefine as <-. exists hs, (row :: rows), n.
      split; [done|]. split; [by constructor|].
      intros _. split; [done|]. by eapply truthy_iter_nonempty.
    + cbn [py_iter mbind option_bind] in Hrefine.
      rewrite (clean_rows_wrapped PTuple) in Hrefine by done.
      injection Hrefine as <-. exists row, rows, n.
      split; [done|]. split; [done|].
      intros _. split; [done|]. intros ->. cbn in Hrow. lia.
Qed.

(** ** A second pass *)

Lemma drop_empty_columns_pruned (rows : list (list pyval)) n :
  rows ≠ [] → 0 < n → rectangular rows n →
  Forall (fun col => existsb cell_has_content col = true) (zip_star rows) →
  drop_empty_columns (PList <$> rows) = Some (PTuple <$> rows).
Proof.
  intros Hne Hn Hrect Hcols. unfold drop_empty_columns.
  destruct rows as [|row rows]; [done|]. cbn [fmap list_fmap].
  change (PList row :: (PList <$> rows)) with (PList <$> row :: rows).
  rewrite (transpose_wrapped PList) by done. cbn [mbind option_bind].
  rewrite (filter_content_wrapped PTuple) by done. cbn [mbind option_bind].
  rewrite filter_all_content by done.
  pose proof (zip_star_length _ _ Hne Hrect) as Hlen.
  destruct (zip_star (row :: rows)) as [|col cols] eqn:Hz; [cbn in Hlen; lia|].
  cbn [fmap list_fmap].
  change (PTuple col :: (PTuple <$> cols)) with (PTuple <$> col :: cols).
  rewrite (transpose_wrapped PTuple) by done.
  by rewrite <- Hz, (zip_star_involutive _ n).
Qed.

Lemma rectangular_clean (rows : list (list pyval)) n :
  rectangular rows n → rectangular (fmap (M:=list) clean_cell <$> rows) n.
Proof.
  unfold rectangular. intros Hrows. apply Forall_fmap.
  eapply Forall_impl; [done|]. intros row Hrow. cbn. by rewrite length_fmap.
Qed.

Lemma clean_rows_idem (rows : list (list pyval)) :
  fmap (M:=list) clean_cell <$> (fmap (M:=list) clean_cell <$> rows)
  = fmap (M:=list) clean_cell <$> rows.
Proof.
  rewrite <- list_fmap_compose. apply list_fmap_ext. intros _ row _.
  apply clean_cells_idem.
Qed.

Lemma refine_refined_table (t : table) hs rows n :
  rectangular rows n → (rows ≠ [] → 0 < n ∧ hs ≠ []) →
  fully_pruned (refined_table t hs rows) →
  refine_table_structure (refined_table t hs rows)
  = Some (refined_table t hs rows).
Proof.
  intros Hrect Hne Hpruned.
  set (t' := refined_table t hs rows).
  assert (Hdata : t' !! "data" = Some (PList (PList <$> (fmap clean_cell <$> rows)))).
  { unfold t', refined_table. rewrite !lookup_insert_ne by done. by rewrite lookup_insert_eq. }
  assert (Hheaders : t' !! "headers" = Some (PList (clean_cell <$> hs))).
  { unfold t', refined_table. rewrite lookup_insert_ne by done. by rewrite lookup_insert_eq. }
  assert (Hrefined : t' !! "refined" = Some (PBool true)).
  { unfold t', refined_table. by rewrite lookup_insert_eq. }
  destruct (Hpruned _ Hdata) as [Hrows Hcols].
  unfold refine_table_structure. rewrite Hdata.
  destruct rows as [|row rows]; [done|].
  destruct Hne as [Hn Hhs]; [done|].
  set (R := fmap (M:=list) clean_cell <$> row :: rows) in *.
  assert (HR : R ≠ []) by done.
  assert (Htruthy : py_truthy (PList (PList <$> R)) = true) by done.
  rewrite Htruthy. cbn [negb py_iter mbind option_bind].
  rewrite (filter_content_wrapped PList) by done. cbn [mbind option_bind].
  rewrite filter_all_content by done.
  rewrite (drop_empty_columns_pruned R n) by (done || by apply rectangular_clean).
  cbn [mbind option_bind].
  unfold dict_get. rewrite Hheaders. cbn [default from_option id].
  assert (Hth : py_truthy (PList (clean_cell <$> hs)) = true) by (by destruct hs).
  rewrite Hth. cbn [negb].
  replace (match PTuple <$> R with
           | [] => (PList (clean_cell <$> hs), PTuple <$> R)
           | _ :: _ => (PList (clean_cell <$> hs), PTuple <$> R)
           end) with (PList (clean_cell <$> hs), PTuple <$> R)
    by (by destruct (PTuple <$> R)).
  cbn [py_iter mbind option_bind].
  rewrite (clean_rows_wrapped PTuple) by done. cbn [mbind option_bind].
  unfold R. rewrite clean_rows_idem, clean_cells_idem. fold R.
  by rewrite (insert_id t' "data"), (insert_id t' "headers"), (insert_id t' "refined").
Qed.

(** A refined table without a blank row or column is a fixpoint. *)
Lemma refine_fixpoint (t t' : table) :
  refine_table_structure t = Some t' →
  fully_pruned t' →
  refine_table_structure t' = Some t'.
Proof.
  intros Hrefine Hpruned.
  destruct (refine_shape _ _ Hrefine) as [[-> _]|(hs & rows & n & -> & Hrect & Hne)];
    [done|].
  by eapply refine_refined_table.
Qed.

(** ** What a second pass leaves *)

(** The column [j] of a matrix holds the cell [j] of every row. *)
Lemma zip_star_lookup (rows : list (list pyval)) j col :
  rows ≠ [] →
  zip_star rows !! j = Some col ↔ Forall2 (fun row c => row !! j = Some c) rows col.
Proof.
  induction rows as [|row rows IH] in col |- *; [done|]. intros _.
  destruct rows as [|row' rows].
  - cbn [zip_star]. rewrite list_lookup_fmap. split.
    + destruct (row !! j) as [c|] eqn:Hc; [|done]. intros [= <-].
      by repeat constructor.
    + intros Hcol. apply Forall2_cons_inv_l in Hcol as (c & col' & Hc & Hnil & ->).
      apply Forall2_nil_inv_l in Hnil as ->. by rewrite Hc.
  - rewrite zip_star_cons by done. rewrite lookup_zip_with. split.
    + destruct (row !! j) as [c|] eqn:Hc; [|done]. cbn [mbind option_bind].
      destruct (zip_star (row' :: rows) !! j) as [col'|] eqn:Hcol'; [|done].
      intros [= <-]. constructor; [done|]. by apply IH.
    + intros Hcol. apply Forall2_cons_inv_l in Hcol as (c & col' & Hc & Hrest & ->).
      rewrite Hc. cbn [mbind option_bind].
      apply IH in Hrest; [|done]. by rewrite Hrest.
Qed.

Lemma rectangular_column (rows : list (list pyval)) n j :
  rectangular rows n → j < n →
  ∃ col, Forall2 (fun row c => row !! j = Some c) rows col.
Proof.
  induction 1 as [|row rows Hrow _ IH]; intros Hj.
  - exists []. constructor.
  - destruct (IH Hj) as [col Hcol].
    destruct (lookup_lt_is_Some_2 row j) as [c Hc]; [lia|].
    exists (c :: col). by constructor.
Qed.

Lemma filter_content_all (rows : list (list pyval)) :
  Forall (fun row => existsb cell_has_content row = true)
    (List.filter (existsb cell_has_content) rows).
Proof.
  apply Forall_forall. intros row Hin.
  by apply list_elem_of_In, filter_In in Hin as [_ Hrow].
Qed.

(** Deleting the blank columns of a matrix whose rows all have content
    leaves content in every row. *)
Lemma pruned_rows_content (rows : list (list pyval)) n :
  rows ≠ [] → rectangular rows n →
  Forall (fun row => existsb cell_has_content row = true) rows →
  Forall (fun row => existsb cell_has_content row = true)
    (zip_star (List.filter (existsb cell_has_content) (zip_star rows))).
Proof.
  intros Hne Hrect Hrows.
  set (cols := List.filter (existsb cell_has_content) (zip_star rows)).
  assert (Hcols : cols ≠ [])
    by (by apply filter_some_content, zip_star_some_content).
  assert (Hcrect : rectangular cols (length rows))
    by apply filter_rectangular, zip_star_columns.
  apply Forall_forall. intros out Hout.
  apply list_elem_of_lookup in Hout as [i Hi].
  pose proof (lookup_lt_Some _ _ _ Hi) as Hilt.
  rewrite (zip_star_length _ _ Hcols Hcrect) in Hilt.
  destruct (lookup_lt_is_Some_2 rows i Hilt) as [row Hrow].
  pose proof (proj1 (Forall_lookup _ _) Hrows _ _ Hrow) as Hcontent.
  apply existsb_lookup in Hcontent as (j & c & Hc & Hcc).
  pose proof (proj1 (Forall_lookup _ _) Hrect _ _ Hrow) as Hlen. cbn in Hlen.
  destruct (rectangular_column rows n j Hrect) as [col Hcol].
  { apply lookup_lt_Some in Hc. lia. }
  destruct (Forall2_lookup_l _ _ _ _ _ Hcol Hrow) as (c' & Hci & Hc').
  assert (c' = c) as -> by congruence.
  apply zip_star_lookup in Hcol; [|done].
  assert (Hin : col ∈ cols).
  { apply list_elem_of_In, filter_In. split.
    - apply list_elem_of_In, list_elem_of_lookup. eauto.
    - apply existsb_lookup. eauto. }
  apply list_elem_of_lookup in Hin as [j' Hj'].
  apply zip_star_lookup in Hi; [|done].
  destruct (Forall2_lookup_l _ _ _ _ _ Hi Hj') as (c'' & Hout & Hc'').
  assert (c'' = c) as -> by congruence.
  apply existsb_lookup. eauto.
Qed.

Lemma zip_with_cons_Forall (P : pyval → Prop) (row : list pyval) cols :
  Forall P row → Forall (Forall P) cols →
  Forall (Forall P) (zip_with cons row cols).
Proof.
  intros Hrow Hcols. induction Hcols as [|col cols Hcol _ IH] in row, Hrow |- *.
  - destruct row; constructor.
  - destruct Hrow as [|c row Hc Hrow]; constructor; [by constructor|by apply IH].
Qed.

(** The cells of the columns are the cells of the rows. *)
Lemma zip_star_Forall (P : pyval → Prop) (rows : list (list pyval)) :
  Forall (Forall P) rows → Forall (Forall P) (zip_star rows).
Proof.
  induction 1 as [|row rows Hrow Hrows IH]; [constructor|].
  destruct rows as [|row' rows].
  - cbn. apply Forall_fmap. eapply Forall_impl; [done|]. intros c Hc.
    by repeat constructor.
  - rewrite zip_star_cons by done. by apply zip_with_cons_Forall.
Qed.

Lemma filter_Forall {X} (P : X → Prop) f (l : list X) :
  Forall P l → Forall P (List.filter f l).
Proof.
  rewrite !Forall_forall. intros Hl x Hin.
  apply list_elem_of_In, filter_In in Hin as [Hin _]. by apply Hl, list_elem_of_In.
Qed.

Lemma clean_rows_fixed (rows : list (list pyval)) :
  Forall (Forall (fun c => clean_cell c = c)) rows →
  fmap (M:=list) clean_cell <$> rows = rows.
Proof.
  induction 1 as [|row rows Hrow _ IH]; [done|].
  cbn [fmap list_fmap]. f_equal; [|done].
  induction Hrow as [|c row Hc _ IHrow]; [done|]. cbn. by rewrite Hc, IHrow.
Qed.

Lemma cleaned_rows_clean (rows : list (list pyval)) :
  Forall (Forall (fun c => clean_cell c = c)) (fmap (M:=list) clean_cell <$> rows).
Proof.
  apply Forall_fmap, Forall_forall. intros row _. cbn.
  apply Forall_fmap, Forall_forall. intros c _. apply clean_cell_idem.
Qed.

Lemma drop_empty_columns_wrapped (rows : list (list pyval)) :
  rows ≠ [] →
  Forall (fun row => existsb cell_has_content row = true) rows →
  drop_empty_columns (PList <$> rows)
  = Some (PTuple <$> zip_star (List.filter (existsb cell_has_content) (zip_star rows))).
Proof.
  intros Hne Hrows.
  pose proof (filter_some_content _ (zip_star_some_content _ Hne Hrows)) as Hcols.
  unfold drop_empty_columns.
  destruct rows as [|row rows]; [done|]. cbn [fmap list_fmap].
  change (PList row :: (PList <$> rows)) with (PList <$> row :: rows).
  rewrite (transpose_wrapped PList) by done. cbn [mbind option_bind].
  rewrite (filter_content_wrapped PTuple) by done. cbn [mbind option_bind].
  destruct (List.filter (existsb cell_has_content) (zip_star (row :: rows)))
    as [|col cols]; [done|].
  cbn [fmap list_fmap].
  change (PTuple col :: (PTuple <$> cols)) with (PTuple <$> col :: cols).
  by rewrite (transpose_wrapped PTuple).
Qed.

(** The data a pass leaves when it starts from rows of cells. *)
Lemma prune_rows (rows : list (list pyval)) n :
  rectangular rows n →
  ∃ pruned,
    (filter_content (PList <$> rows) ≫= drop_empty_columns) = Some (PTuple <$> pruned) ∧
    Forall (fun row => existsb cell_has_content row = true) pruned ∧
    Forall (fun col => existsb cell_has_content col = true) (zip_star pruned) ∧
    (Forall (Forall (fun c => clean_cell c = c)) rows →
     Forall (Forall (fun c => clean_cell c = c)) pruned).
Proof.
  intros Hrect.
  rewrite (filter_content_wrapped PList) by done. cbn [mbind option_bind].
  set (kept := List.filter (existsb cell_has_content) rows).
  assert (Hkept : Forall (fun row => existsb cell_has_content row = true) kept)
    by apply filter_content_all.
  assert (Hkrect : rectangular kept n) by by apply filter_rectangular.
  destruct (decide (kept = [])) as [->|Hne].
  { exists []. cbn. repeat split; constructor. }
  set (cols := List.filter (existsb cell_has_content) (zip_star kept)).
  assert (Hcols : cols ≠ [])
    by (by apply filter_some_content, zip_star_some_content).
  assert (Hcrect : rectangular cols (length kept))
    by apply filter_rectangular, zip_star_columns.
  exists (zip_star cols). split; [|split; [|split]].
  - by apply drop_empty_columns_wrapped.
  - by eapply pruned_rows_content.
  - rewrite (zip_star_involutive cols (length kept)); [|done| |done].
    + apply filter_content_all.
    + destruct kept; [done|]. cbn. lia.
  - intros Hclean. apply zip_star_Forall, filter_Forall, zip_star_Forall.
    by apply filter_Forall.
Qed.

Lemma fmap_PList_inj (rows rows' : list (list pyval)) :
  PList <$> rows = PList <$> rows' → rows = rows'.
Proof.
  induction rows as [|row rows IH] in rows' |- *; destruct rows' as [|row' rows'];
    try done.
  cbn [fmap list_fmap]. intros [= -> Hrows]. f_equal. by apply IH.
Qed.

Lemma refined_table_lookup (t : table) hs rows :
  refined_table t hs rows !! "data"
    = Some (PList (PList <$> (fmap (M:=list) clean_cell <$> rows))) ∧
  refined_table t hs rows !! "headers" = Some (PList (clean_cell <$> hs)) ∧
  refined_table t hs rows !! "refined" = Some (PBool true).
Proof.
  unfold refined_table. repeat split.
  - rewrite !lookup_insert_ne by done. by rewrite lookup_insert_eq.
  - rewrite lookup_insert_ne by done. by rewrite lookup_insert_eq.
  - by rewrite lookup_insert_eq.
Qed.

(** Refining a refined table writes over the three keys of the first
    pass. *)
Lemma refined_table_again (t : table) hs rows hs' rows' :
  refined_table (refined_table t hs rows) hs' rows' = refined_table t hs' rows'.
Proof.
  unfold refined_table. apply map_eq. intros key.
  destruct (decide (key = "refined")) as [->|?];
    [by rewrite !lookup_insert_eq|].
  rewrite !(lookup_insert_ne _ "refined") by done.
  destruct (decide (key = "headers")) as [->|?];
    [by rewrite !lookup_insert_eq|].
  rewrite !(lookup_insert_ne _ "headers") by done.
  destruct (decide (key = "data")) as [->|?];
    [by rewrite !lookup_insert_eq|].
  rewrite !(lookup_insert_ne _ "data") by done.
  rewrite !(lookup_insert_ne _ "refined") by done.
  rewrite !(lookup_insert_ne _ "headers") by done.
  by rewrite !(lookup_insert_ne _ "data") by done.
Qed.

(** A second pass succeeds, keeps the headers and leaves no blank row or
    column. *)
Lemma refine_second_pass (t : table) hs rows n :
  rectangular rows n → (rows ≠ [] → 0 < n ∧ hs ≠ []) →
  ∃ pruned,
    refine_table_structure (refined_table t hs rows)
      = Some (refined_table t hs pruned) ∧
    fully_pruned (refined_table t hs pruned).
Proof.
  intros Hrect Hne.
  destruct (refined_table_lookup t hs rows) as (Hdata & Hheaders & _).
  destruct rows as [|row rows].
  { exists []. split.
    - unfold refine_table_structure. by rewrite Hdata.
    - intros rows' Hrows'. rewrite Hdata in Hrows'. injection Hrows' as Hrows'.
      destruct rows'; [|done]. split; constructor. }
  destruct Hne as [Hn Hhs]; [done|].
  set (R := fmap (M:=list) clean_cell <$> row :: rows) in *.
  destruct (prune_rows R n) as (pruned & Hprune & Hprows & Hpcols & Hpclean);
    [by apply rectangular_clean|].
  specialize (Hpclean (cleaned_rows_clean _)).
  exists pruned. split.
  - unfold refine_table_structure. rewrite Hdata.
    assert (Htruthy : py_truthy (PList (PList <$> R)) = true) by done.
    rewrite Htruthy. cbn [negb py_iter mbind option_bind].
    destruct (filter_content (PList <$> R)) as [data1|]; [|done].
    cbn [mbind option_bind] in Hprune |- *. rewrite Hprune.
    cbn [mbind option_bind].
    unfold dict_get. rewrite Hheaders. cbn [default from_option id].
    assert (Hth : py_truthy (PList (clean_cell <$> hs)) = true) by (by destruct hs).
    rewrite Hth. cbn [negb].
    replace (match PTuple <$> pruned with
             | [] => (PList (clean_cell <$> hs), PTuple <$> pruned)
             | _ :: _ => (PList (clean_cell <$> hs), PTuple <$> pruned)
             end) with (PList (clean_cell <$> hs), PTuple <$> pruned)
      by (by destruct (PTuple <$> pruned)).
    cbn [py_iter mbind option_bind].
    rewrite (clean_rows_wrapped PTuple) by done. cbn [mbind option_bind].
    rewrite clean_cells_idem. f_equal.
    apply (refined_table_again t hs (row :: rows) hs pruned).
  - intros rows' Hrows'.
    destruct (refined_table_lookup t hs pruned) as (Hdata' & _ & _).
    rewrite Hdata' in Hrows'. injection Hrows' as Hrows'.
    apply fmap_PList_inj in Hrows'. rewrite clean_rows_fixed in Hrows' by done.
    by subst rows'.
Qed.

(** Claim C2, as the code has it: refining a refined table changes nothing
    when the refined [data] has no row and no column of blank cells only
    (in particular when it has no row at all); in every case a second
    pass succeeds, keeps the headers, and its result is a fixpoint, so
    that three passes give what two give. *)
Theorem refine_idempotent_when_pruned (t t' : table) :
  refine_table_structure t = Some t' →
  (fully_pruned t' → refine_table_structure t' = Some t') ∧
  ∃ t'', refine_table_structure t' = Some t'' ∧
         t'' !! "headers" = t' !! "headers" ∧
         refine_table_structure t'' = Some t''.
Proof.
  intros Hrefine. split; [by apply (refine_fixpoint t)|].
  destruct (refine_shape _ _ Hrefine) as [[-> _]|(hs & rows & n & -> & Hrect & Hne)].
  - by exists t.
  - destruct (refine_second_pass t hs rows n Hrect Hne) as (pruned & Htwo & Hpruned).
    exists (refined_table t hs pruned). split; [done|]. split.
    + destruct (refined_table_lookup t hs pruned) as (_ & -> & _).
      by destruct (refined_table_lookup t hs rows) as (_ & -> & _).
    + by apply (refine_fixpoint (refined_table t hs rows)).
Qed.

(** ** The dictionaries the converters build *)

Ltac lookup_dict :=
  repeat first [ rewrite lookup_insert_eq | rewrite lookup_insert_ne by done
               | rewrite lookup_empty ].

Lemma camelot_table_dict_data cfg page_number flavor i tbl :
  camelot_table_dict cfg page_number flavor i tbl !! "data" = None.
Proof.
  unfold camelot_table_dict.
  destruct (cfg_header_extraction cfg && negb (df_empty (cam_df tbl)));
    by lookup_dict.
Qed.

Lemma tabula_table_dict_data cfg page_number lattice i df :
  tabula_table_dict cfg page_number lattice i df !! "data" = None.
Proof.
  unfold tabula_table_dict.
  destruct (cfg_header_extraction cfg && negb (df_empty df)); by lookup_dict.
Qed.

Lemma pdfplumber_table_dict_data cfg page_number vs hs i table_data :
  pdfplumber_table_dict cfg page_number vs hs i table_data !! "data" = None.
Proof.
  unfold pdfplumber_table_dict.
  destruct (negb (cfg_header_extraction cfg) && _); by lookup_dict.
Qed.

Lemma camelot_table_dict_keys cfg page_number flavor i tbl :
  is_Some (camelot_table_dict cfg page_number flavor i tbl !! "headers") ∧
  is_Some (camelot_table_dict cfg page_number flavor i tbl !! "rows").
Proof.
  unfold camelot_table_dict.
  destruct (cfg_header_extraction cfg && negb (df_empty (cam_df tbl)));
    split; by lookup_dict.
Qed.

Lemma tabula_table_dict_keys cfg page_number lattice i df :
  is_Some (tabula_table_dict cfg page_number lattice i df !! "headers") ∧
  is_Some (tabula_table_dict cfg page_number lattice i df !! "rows").
Proof.
  unfold tabula_table_dict.
  destruct (cfg_header_extraction cfg && negb (df_empty df));
    split; by lookup_dict.
Qed.

Lemma pdfplumber_table_dict_keys cfg page_number vs hs i table_data :
  is_Some (pdfplumber_table_dict cfg page_number vs hs i table_data !! "headers") ∧
  is_Some (pdfplumber_table_dict cfg page_number vs hs i table_data !! "rows").
Proof.
  unfold pdfplumber_table_dict.
  destruct (negb (cfg_header_extraction cfg) && _); split; by lookup_dict.
Qed.

(** With header extraction the camelot and tabula converters take the
    first row out of [rows] and leave [num_rows] at the number of rows of
    the data frame. *)
Lemma camelot_num_rows cfg page_number flavor i tbl :
  cfg_header_extraction cfg = true → df_empty (cam_df tbl) = false →
  let d := camelot_table_dict cfg page_number flavor i tbl in
  d !! "rows" = Some (py_rows (df_iloc_from1 (cam_df tbl))) ∧
  d !! "num_rows" =
    Some (PInt (Z.of_nat (S (length (df_iloc_from1 (cam_df tbl)))))).
Proof.
  intros Hcfg Hdf. unfold camelot_table_dict. rewrite Hcfg, Hdf. cbn [andb negb].
  split; lookup_dict; [done|]. do 3 f_equal. unfold df_iloc_from1.
  unfold df_empty in Hdf. destruct (df_values (cam_df tbl)); [done|]. done.
Qed.

Lemma tabula_num_rows cfg page_number lattice i df :
  cfg_header_extraction cfg = true → df_empty df = false →
  let d := tabula_table_dict cfg page_number lattice i df in
  d !! "rows" = Some (py_rows (df_iloc_from1 df)) ∧
  d !! "num_rows" = Some (PInt (Z.of_nat (S (length (df_iloc_from1 df))))).
Proof.
  intros Hcfg Hdf. unfold tabula_table_dict. rewrite Hcfg, Hdf. cbn [andb negb].
  split; lookup_dict; [done|]. do 3 f_equal. unfold df_iloc_from1.
  unfold df_empty in Hdf. destruct (df_values df); [done|]. done.
Qed.

(** The pdfplumber converter keeps [num_rows] equal to the length of
    [rows], with and without header extraction. *)
Lemma pdfplumber_num_rows cfg page_number vs hs i table_data :
  let d := pdfplumber_table_dict cfg page_number vs hs i table_data in
  ∃ rows, d !! "rows" = Some (py_rows rows) ∧
          d !! "num_rows" = Some (PInt (Z.of_nat (length rows))).
Proof.
  unfold pdfplumber_table_dict.
  set (rows := map (map plumber_cell) table_data).
  destruct (negb (cfg_header_extraction cfg) && _) eqn:Hcfg.
  - exists rows. split; by lookup_dict.
  - exists (if bool_decide (1 < length rows) then tail rows else []).
    split; lookup_dict; [done|]. do 2 f_equal.
    case_bool_decide; [|done]. destruct rows; cbn in *; lia.
Qed.

(** Every table a converter returns is one of its dictionaries. *)
Lemma extract_with_camelot_dict cfg page_number flavor read (t : table) :
  t ∈ extract_with_camelot cfg page_number flavor read →
  ∃ i tbl, t = camelot_table_dict cfg page_number flavor i tbl.
Proof.
  unfold extract_with_camelot. destruct read as [tables|];
    [|by intros ?%elem_of_nil].
  intros ([i tbl] & _ & Hdict)%list_elem_of_omap. cbn in Hdict.
  destruct (Qltb _ _); [done|]. injection Hdict as <-. by exists i, tbl.
Qed.

Lemma extract_with_tabula_dict cfg page_number lattice read (t : table) :
  t ∈ extract_with_tabula cfg page_number lattice read →
  ∃ i df, t = tabula_table_dict cfg page_number lattice i df.
Proof.
  unfold extract_with_tabula. destruct read as [tables|];
    [|by intros ?%elem_of_nil].
  intros ([i df] & _ & Hdict)%list_elem_of_omap. cbn in Hdict.
  destruct (df_empty df); [done|]. injection Hdict as <-. by exists i, df.
Qed.

Lemma extract_with_pdfplumber_dict cfg page_number vs hs read (t : table) :
  t ∈ extract_with_pdfplumber cfg page_number vs hs read →
  ∃ i table_data, t = pdfplumber_table_dict cfg page_number vs hs i table_data.
Proof.
  unfold extract_with_pdfplumber. destruct read as [tables|];
    [|by intros ?%elem_of_nil].
  intros ([i td] & _ & Hdict)%list_elem_of_omap. cbn in Hdict.
  destruct td; [done|]. injection Hdict as <-. by eexists i, _.
Qed.

(** ** Refinement of backend tables *)

Section BackendTables.
Variable get_table_context : pyval → option string.

Lemma add_context_data (t : table) :
  add_context get_table_context t !! "data" = t !! "data".
Proof.
  unfold add_context. destruct (t !! "bbox") as [bbox|]; [|done].
  destruct (get_table_context bbox); by lookup_dict.
Qed.

(** Claim C10: [_refine_table_structure] returns a table that has no
    [data], or whose [data] is empty, as it is; the three converters emit
    [headers] and [rows] and never [data], so every table they produce,
    also once its context is attached, is returned by the refinement
    unchanged. *)
Theorem refine_identity_on_backend_tables :
  (∀ t : table,
     t !! "data" = None ∨ (∃ d, t !! "data" = Some d ∧ py_truthy d = false) →
     refine_table_structure t = Some t) ∧
  (∀ cfg page_number flavor read t,
     t ∈ extract_with_camelot cfg page_number flavor read →
     t !! "data" = None ∧ is_Some (t !! "headers") ∧ is_Some (t !! "rows") ∧
     refine_table_structure t = Some t) ∧
  (∀ cfg page_number lattice read t,
     t ∈ extract_with_tabula cfg page_number lattice read →
     t !! "data" = None ∧ is_Some (t !! "headers") ∧ is_Some (t !! "rows") ∧
     refine_table_structure t = Some t) ∧
  (∀ cfg page_number vs hs read t,
     t ∈ extract_with_pdfplumber cfg page_number vs hs read →
     t !! "data" = None ∧ is_Some (t !! "headers") ∧ is_Some (t !! "rows") ∧
     refine_table_structure t = Some t) ∧
  (∀ t : table,
     t !! "data" = None →
     refine_table_structure (add_context get_table_context t)
     = Some (add_context get_table_context t)).
Proof.
  assert (Hid : ∀ t : table, t !! "data" = None →
            refine_table_structure t = Some t)
    by (intros t Ht; apply refine_without_data; by left).
  split; [apply refine_without_data|]. split; [|split; [|split]].
  - intros cfg page_number flavor read t
      (i & tbl & ->)%extract_with_camelot_dict.
    pose proof (camelot_table_dict_data cfg page_number flavor i tbl).
    pose proof (camelot_table_dict_keys cfg page_number flavor i tbl) as [??].
    auto.
  - intros cfg page_number lattice read t
      (i & df & ->)%extract_with_tabula_dict.
    pose proof (tabula_table_dict_data cfg page_number lattice i df).
    pose proof (tabula_table_dict_keys cfg page_number lattice i df) as [??].
    auto.
  - intros cfg page_number vs hs read t
      (i & td & ->)%extract_with_pdfplumber_dict.
    pose proof (pdfplumber_table_dict_data cfg page_number vs hs i td).
    pose proof (pdfplumber_table_dict_keys cfg page_number vs hs i td) as [??].
    auto.
  - intros t Ht. apply Hid. by rewrite add_context_data.
Qed.
End BackendTables.

Section Fallback.
Variable run_backend : backend_call → option (list table).
Variable get_table_context : pyval → option string.

Lemma attempt_unfold call tables calls :
  attempt run_backend call (tables, calls) =
  (match run_backend call with Some r => r | None => tables end, calls ++ [call]).
Proof. done. Qed.

(** The chain of fallback attempts, entered with no table found, is the
    search for the first non-empty result among the other backends. *)
Lemma fallback_attempts_spec method has_borders calls :
  fallback_attempts run_backend method has_borders ([], calls) =
  ((first_non_empty run_backend (fallback_calls method has_borders)).1,
   calls ++ (first_non_empty run_backend (fallback_calls method has_borders)).2).
Proof.
  unfold fallback_attempts, fallback_calls, backend_order.
  cbn [List.filter].
  destruct (String.eqb method "camelot") eqn:Hc;
  destruct (String.eqb method "tabula") eqn:Ht;
  destruct (String.eqb method "pdfplumber") eqn:Hp;
  cbn [negb fmap list_fmap call_of String.eqb Ascii.eqb Bool.eqb andb
       first_non_empty];
  rewrite ?attempt_unfold; cbn [fst snd];
  repeat match goal with
  | |- context [run_backend ?c] =>
      let r := fresh "r" in
      destruct (run_backend c) as [[|? ?]|] eqn:r;
      cbn [is_nil andb fst snd negb]; rewrite ?attempt_unfold; cbn [fst snd]
  end;
  rewrite <- ?app_assoc, ?app_nil_r; reflexivity.
Qed.

(** Claim C8: when the primary method gives no table and
    [fallback_to_heuristic] is set, [_extract_tables_unified] tries the
    backends other than the primary one in the order camelot, tabula,
    pdfplumber and stops at the first non-empty result; the calls made are
    the primary call followed by the calls of that search. *)
Theorem fallback_order_spec cfg has_borders :
  (fallback_calls "camelot" has_borders
     = [tabula_call has_borders; CallPdfplumber] ∧
   fallback_calls "tabula" has_borders
     = [camelot_call has_borders; CallPdfplumber] ∧
   fallback_calls "pdfplumber" has_borders
     = [camelot_call has_borders; tabula_call has_borders]) ∧
  let method := resolve_method cfg has_borders in
  let st := primary_attempt run_backend method has_borders ([], []) in
  let retry := first_non_empty run_backend (fallback_calls method has_borders) in
  (st.1 = [] → cfg_fallback_to_heuristic cfg = true →
   extract_tables_unified run_backend get_table_context cfg has_borders
   = (add_context get_table_context <$> retry.1, st.2 ++ retry.2)).
Proof.
  split; [done|].
  intros method st retry Hempty Hflag. unfold extract_tables_unified.
  fold method st. rewrite Hflag, Hempty. cbn [is_nil andb].
  destruct st as [tables calls]. cbn in Hempty. subst tables.
  by rewrite fallback_attempts_spec.
Qed.
End Fallback.

Section BorderFacts.
Context `{PyFloat}.

(** ** Line counting *)








Lemma upright_is_line item : is_upright item = true → is_line item = true.
Proof.
  unfold is_upright. destruct item; cbn; [|done].
  by intros [[? _]%andb_true_iff _]%andb_true_iff.
Qed.

(** ** The classifier *)




End BorderFacts.

(** * Further properties of the similarity measures *)

Section DistanceBounds.
Context {A : Type} `{EqDecision A}.
Implicit Types s t : list A.

(** Substituting along the shorter string and inserting or deleting the
    rest is an edit script: the distance is at most the longer length. *)
Lemma levenshtein_le_max s t :
  levenshtein s t <= Nat.max (length s) (length t).
Proof.
  induction s as [|a s IH] in t |- *; [simpl; lia|].
  destruct t as [|b t]; [rewrite levenshtein_nil_r; lia|].
  rewrite levenshtein_cons. specialize (IH t).
  unfold neq_cost. destruct (decide (a = b)); simpl; lia.
Qed.

Lemma edits_zero s t : edits s t 0 → s = t.
Proof.
  remember 0 as n eqn:Hn. induction 1; try discriminate; [done|].
  f_equal. auto.
Qed.

Lemma levenshtein_zero s t : levenshtein s t = 0 → s = t.
Proof.
  intros Hd. apply edits_zero. rewrite <- Hd. apply edits_levenshtein.
Qed.
End DistanceBounds.

Lemma list_ascii_of_string_inj a b :
  list_ascii_of_string a = list_ascii_of_string b → a = b.
Proof.
  intros Hab. rewrite <- (string_of_list_ascii_of_string a),
    <- (string_of_list_ascii_of_string b). by rewrite Hab.
Qed.

Lemma Q_of_nat_le m n : (m <= n)%nat → (Q_of_nat m <= Q_of_nat n)%Q.
Proof. intros Hmn. unfold Q_of_nat, Qle. simpl. lia. Qed.

Lemma Q_of_nat_pos n : (0 < n)%nat → (0 < Q_of_nat n)%Q.
Proof. intros Hn. unfold Q_of_nat, Qlt. simpl. lia. Qed.

Lemma Q_of_nat_nonneg n : (0 <= Q_of_nat n)%Q.
Proof. unfold Q_of_nat, Qle. simpl. lia. Qed.

(** The score of two strings whose normal forms [a] and [b] are neither
    empty nor equal. *)
Lemma string_similarity_distance s1 s2 :
  let a := strip (lower s1) in
  let b := strip (lower s2) in
  is_empty a = false → is_empty b = false → a ≠ b →
  string_similarity s1 s2 =
    (1 - Q_of_nat (levenshtein (list_ascii_of_string a) (list_ascii_of_string b))
         / Q_of_nat (Nat.max (String.length a) (String.length b)))%Q.
Proof.
  intros a b Ha Hb Hab. unfold string_similarity.
  rewrite (string_similarity_rec_unfold 0). fold a b. cbn [default from_option id].
  rewrite Ha, Hb. cbn [orb].
  apply String.eqb_neq in Hab. rewrite Hab.
  assert (0 < String.length a)%nat as Hlen.
  { destruct a; [done|simpl; lia]. }
  destruct (String.length a <? String.length b)%nat eqn:Hlt.
  - apply Nat.ltb_lt in Hlt.
    rewrite lev_distance_levenshtein, (levenshtein_sym (list_ascii_of_string b)).
    rewrite (Nat.max_comm (String.length b)).
    destruct (0 <? _)%nat eqn:Hpos; [done|]. apply Nat.ltb_ge in Hpos. lia.
  - rewrite lev_distance_levenshtein.
    destruct (0 <? _)%nat eqn:Hpos; [done|]. apply Nat.ltb_ge in Hpos. lia.
Qed.

Lemma string_similarity_comm (s1 s2 : string) :
  string_similarity s1 s2 = string_similarity s2 s1.
Proof.
  destruct (is_empty (strip (lower s1))) eqn:H1.
  { rewrite !string_similarity_blank; [done|by rewrite H1, orb_true_r|by rewrite H1]. }
  destruct (is_empty (strip (lower s2))) eqn:H2.
  { rewrite !string_similarity_blank; [done|by rewrite H2|by rewrite H2, orb_true_r]. }
  destruct (decide (strip (lower s1) = strip (lower s2))) as [Heq|Hne].
  { rewrite !string_similarity_same; done. }
  rewrite !string_similarity_distance by done.
  by rewrite levenshtein_sym, Nat.max_comm.
Qed.

(** Property X1.
    [_string_similarity] does not depend on the order of its arguments:
    the method swaps them itself when the first is the shorter, and the
    distance of two strings of one length is symmetric. *)
Theorem string_similarity_sym (s1 s2 : string) :
  string_similarity s1 s2 = string_similarity s2 s1.
Proof. apply string_similarity_comm. Qed.

(** Property X2.
    The score of [_string_similarity] is a number between 0 and 1: the
    distance of two strings never exceeds the length of the longer. *)
Theorem string_similarity_range (s1 s2 : string) :
  (0 <= string_similarity s1 s2 <= 1)%Q.
Proof.
  destruct (is_empty (strip (lower s1))) eqn:H1.
  { rewrite string_similarity_blank by (by rewrite H1). split; lra. }
  destruct (is_empty (strip (lower s2))) eqn:H2.
  { rewrite string_similarity_blank by (by rewrite H2, orb_true_r). split; lra. }
  destruct (decide (strip (lower s1) = strip (lower s2))) as [Heq|Hne].
  { rewrite string_similarity_same by done. split; lra. }
  rewrite string_similarity_distance by done.
  set (a := strip (lower s1)) in *. set (b := strip (lower s2)) in *.
  pose proof (levenshtein_le_max (list_ascii_of_string a) (list_ascii_of_string b))
    as Hle.
  rewrite <- !string_length_chars in Hle.
  assert (0 < Nat.max (String.length a) (String.length b))%nat as Hpos.
  { destruct a; [done|simpl; lia]. }
  apply Q_of_nat_le in Hle. apply Q_of_nat_pos in Hpos.
  pose proof (Q_of_nat_nonneg
    (levenshtein (list_ascii_of_string a) (list_ascii_of_string b))) as Hd.
  set (d := Q_of_nat (levenshtein _ _)) in *.
  set (m := Q_of_nat (Nat.max _ _)) in *.
  assert (0 <= d / m)%Q as Hlo.
  { apply Qle_shift_div_l; [exact Hpos|]. rewrite Qmult_0_l. exact Hd. }
  assert (d / m <= 1)%Q as Hhi.
  { apply Qle_shift_div_r; [exact Hpos|]. rewrite Qmult_1_l. exact Hle. }
  split; lra.
Qed.

(** Property X3.
    The score is 1 only for two strings that are equal once trimmed and
    put in lower case, and that are not blank. *)
Theorem string_similarity_one_iff (s1 s2 : string) :
  (string_similarity s1 s2 == 1)%Q ↔
  whitespace_only s1 = false ∧ strip (lower s1) = strip (lower s2).
Proof.
  rewrite <- is_empty_strip_lower. split.
  - intros Hone.
    destruct (is_empty (strip (lower s1))) eqn:H1.
    { rewrite string_similarity_blank in Hone by (by rewrite H1). lra. }
    split; [done|].
    destruct (is_empty (strip (lower s2))) eqn:H2.
    { rewrite string_similarity_blank in Hone by (by rewrite H2, orb_true_r). lra. }
    destruct (decide (strip (lower s1) = strip (lower s2))) as [Heq|Hne]; [done|].
    exfalso. rewrite string_similarity_distance in Hone by done.
    set (a := strip (lower s1)) in *. set (b := strip (lower s2)) in *.
    assert (0 < Nat.max (String.length a) (String.length b))%nat as Hpos.
    { destruct a; [done|simpl; lia]. }
    assert (0 < levenshtein (list_ascii_of_string a) (list_ascii_of_string b))%nat
      as Hd.
    { apply Nat.neq_0_lt_0. intros Hz%levenshtein_zero.
      by apply Hne, list_ascii_of_string_inj. }
    apply Q_of_nat_pos in Hpos, Hd.
    set (d := Q_of_nat (levenshtein _ _)) in *.
    set (m := Q_of_nat (Nat.max _ _)) in *.
    assert (0 < d / m)%Q as Hlo.
    { apply Qlt_shift_div_l; [exact Hpos|]. rewrite Qmult_0_l. exact Hd. }
    lra.
  - intros [H1 Heq]. by rewrite string_similarity_same.
Qed.

(** ** Headers *)

Lemma Qltb_compat x x' y y' :
  (x == x')%Q → (y == y')%Q → Qltb x y = Qltb x' y'.
Proof.
  intros Hx Hy. apply eq_true_iff_eq. rewrite !Qltb_lt. by rewrite Hx, Hy.
Qed.

Section HeaderFacts.
Context `{ObjectStr}.

(** A header scores 1 against itself unless it is blank. *)
Lemma header_key_self (h : pyval) :
  string_similarity (header_key h) (header_key h) =
  (if whitespace_only (py_str h) then 0 else 1)%Q.
Proof.
  unfold header_key.
  assert (is_empty (strip (lower (lower (strip (py_str h)))))
          = whitespace_only (py_str h)) as Hblank.
  { by rewrite strip_lower_key, <- strip_lower, is_empty_strip_lower. }
  destruct (whitespace_only (py_str h)).
  - apply string_similarity_blank. by rewrite Hblank.
  - by apply string_similarity_same.
Qed.

Lemma similarity_count_comm (l1 l2 : list string) :
  length (filter
    (fun p : string * string => Qltb (8 # 10) (string_similarity p.1 p.2) = true)
    (combine l1 l2)) =
  length (filter
    (fun p : string * string => Qltb (8 # 10) (string_similarity p.1 p.2) = true)
    (combine l2 l1)).
Proof.
  induction l1 as [|a l1 IH] in l2 |- *; destruct l2 as [|b l2]; try done.
  cbn [combine]. rewrite !filter_cons. cbn [fst snd].
  rewrite (string_similarity_comm b a).
  destruct (decide _); cbn [length]; by rewrite IH.
Qed.

Lemma are_headers_similar_comm (headers1 headers2 : pyval) :
  are_headers_similar headers1 headers2 = are_headers_similar headers2 headers1.
Proof.
  unfold are_headers_similar.
  rewrite (orb_comm (negb (py_truthy headers2))).
  destruct (negb (py_truthy headers1) || negb (py_truthy headers2)) eqn:Hfalsy;
    [done|].
  destruct headers1 as [| | | | |h1|], headers2 as [| | | | |h2|]; try done.
  rewrite !length_map, (Nat.eqb_sym (length h2)).
  destruct (length h1 =? length h2)%nat eqn:Hlen; [|done]. cbn [negb].
  apply Nat.eqb_eq in Hlen.
  rewrite similarity_count_comm.
  destruct h1, h2; try done. cbn [map]. cbn [length] in *. by rewrite Hlen.
Qed.

(** Property X4.
    A header row compared with itself: every cell that is not blank
    counts as a similar column, a blank cell never does, so the row is
    similar to itself exactly when more than 70% of its cells have
    content. *)
Theorem are_headers_similar_self (headers : list pyval) :
  are_headers_similar (PList headers) (PList headers) =
  Qltb (7 # 10)
    (Q_of_nat (length (filter (fun h => whitespace_only (py_str h) = false) headers))
     / Q_of_nat (length headers)).
Proof.
  destruct headers as [|h0 l0] eqn:Hl; [reflexivity|]. rewrite <- Hl.
  unfold are_headers_similar.
  assert (py_truthy (PList headers) = true) as -> by by rewrite Hl.
  cbn [negb orb]. rewrite !length_map, Nat.eqb_refl. cbn [negb].
  assert (length (filter
      (fun p : string * string => Qltb (8 # 10) (string_similarity p.1 p.2) = true)
      (combine (map (fun h => lower (strip (py_str h))) headers)
               (map (fun h => lower (strip (py_str h))) headers)))
    = length (filter (fun h => whitespace_only (py_str h) = false) headers)) as ->.
  { clear Hl. induction headers as [|h l IH]; [done|].
    cbn [map combine]. rewrite !filter_cons. cbn [fst snd].
    change (lower (strip (py_str h))) with (header_key h).
    rewrite header_key_self.
    destruct (whitespace_only (py_str h)).
    - rewrite decide_False by done. rewrite decide_False by done. apply IH.
    - rewrite decide_True by done. rewrite decide_True by done.
      cbn [length]. by rewrite IH. }
  rewrite Hl at 1. cbn [map]. by rewrite Hl.
Qed.

(** ** Related tables *)

Lemma py_max_comm a b : (py_max a b == py_max b a)%Q.
Proof.
  unfold py_max.
  destruct (Qltb a b) eqn:Hab, (Qltb b a) eqn:Hba; try reflexivity.
  - apply Qltb_lt in Hab, Hba. lra.
  - apply not_true_iff_false in Hab, Hba. rewrite Qltb_lt in Hab, Hba. lra.
Qed.

Lemma Qabs_sub_comm a b : (Qabs (a - b) == Qabs (b - a))%Q.
Proof.
  rewrite <- (Qabs_opp (a - b)). apply Qabs_wd. ring.
Qed.

Lemma widths_compatible_comm (table1 table2 : table) :
  widths_compatible table1 table2 = widths_compatible table2 table1.
Proof.
  unfold widths_compatible.
  destruct (table1 !! "bbox") as [bbox1|], (table2 !! "bbox") as [bbox2|];
    try done.
  destruct (is_list_or_tuple bbox1), (is_list_or_tuple bbox2); try done.
  cbn [andb].
  destruct (bool_decide (4 <= default 0 (py_len bbox1))),
    (bool_decide (4 <= default 0 (py_len bbox2))); try done.
  cbn [andb].
  destruct (py_index bbox1 2 ≫= py_num) as [a1|],
    (py_index bbox1 0 ≫= py_num) as [a0|],
    (py_index bbox2 2 ≫= py_num) as [b1|],
    (py_index bbox2 0 ≫= py_num) as [b0|]; try done.
  cbn [mbind option_bind].
  rewrite (Qltb_compat 0 0 (py_max (a1 - a0) (b1 - b0)) (py_max (b1 - b0) (a1 - a0)))
    by (reflexivity || apply py_max_comm).
  rewrite (Qltb_compat (2 # 10) (2 # 10)
    (Qabs (a1 - a0 - (b1 - b0)) / py_max (a1 - a0) (b1 - b0))
    (Qabs (b1 - b0 - (a1 - a0)) / py_max (b1 - b0) (a1 - a0))); [done|reflexivity|].
  by rewrite py_max_comm, Qabs_sub_comm.
Qed.

(** Property X5.
    Neither [_are_headers_similar] nor [_are_tables_related] depends on
    the order of its two arguments, exceptions included. *)
Theorem are_tables_related_sym (table1 table2 : table) (headers1 headers2 : pyval) :
  are_headers_similar headers1 headers2 = are_headers_similar headers2 headers1 ∧
  are_tables_related table1 table2 = are_tables_related table2 table1.
Proof.
  split; [apply are_headers_similar_comm|].
  unfold are_tables_related. rewrite widths_compatible_comm.
  destruct (table1 !! "data") as [data1|], (table2 !! "data") as [data2|];
    try done.
  rewrite (orb_comm (negb (py_truthy data2))).
  destruct (negb (py_truthy data1) || negb (py_truthy data2)); [done|].
  rewrite (Nat.eqb_sym (col_count data2)).
  destruct (col_count data1 =? col_count data2)%nat eqn:Hcols; [|done].
  apply Nat.eqb_eq in Hcols. rewrite <- Hcols. cbn [negb orb].
  destruct (col_count data1 =? 0)%nat; [done|].
  rewrite (are_headers_similar_comm (header_row data2)).
  by rewrite (andb_comm (py_truthy (header_row data2))).
Qed.
End HeaderFacts.

(** * Further properties of the cross-page pass *)

Section PassFacts.
Context `{ObjectStr} `{InterruptedSort}.

(** ** When the merge raises *)

(** [_merge_tables] raises exactly when one of the two tables has a
    [text] entry that is not a string: the concatenation of the texts is
    the only step of the method that can fail. *)
Lemma merge_tables_raises_iff (table1 table2 : table) :
  merge_tables table1 table2 = None ↔
  (∃ v, table1 !! "text" = Some v ∧ py_as_str v = None) ∨
  (∃ v, table2 !! "text" = Some v ∧ py_as_str v = None).
Proof.
  unfold merge_tables, dict_get. split.
  - destruct (table1 !! "text") as [v1|] eqn:H1; cbn [default from_option id].
    + destruct (py_as_str v1) eqn:Hv1; [|left; eauto].
      cbn [mbind option_bind].
      destruct (table2 !! "text") as [v2|] eqn:H2; cbn [default from_option id].
      * destruct (py_as_str v2) eqn:Hv2; [done|right; eauto].
      * done.
    + cbn [py_as_str mbind option_bind].
      destruct (table2 !! "text") as [v2|] eqn:H2; cbn [default from_option id].
      * destruct (py_as_str v2) eqn:Hv2; [done|right; eauto].
      * done.
  - intros [(v & -> & Hv)|(v & -> & Hv)]; cbn [default from_option id].
    + rewrite Hv. reflexivity.
    + rewrite Hv. destruct (py_as_str (default _ (table1 !! "text"))); reflexivity.
Qed.

(** ** What the scan returns *)

Lemma from_input_mono tables tables' t :
  tables ⊆ tables' → from_input tables t → from_input tables' t.
Proof.
  intros Hsub [Ht|(t1 & t2 & H1 & H2 & Hm)]; [left; auto|].
  right. exists t1, t2. auto.
Qed.

Lemma merge_scan_step (current next : table) rest :
  merge_scan (current :: next :: rest) =
  expected ← py_succ (dict_get current "page" (PInt 0));
  related ←
    (if py_eq (dict_get next "page" (PInt 0)) expected
     then are_tables_related current next
     else Some false);
  if (related : bool)
  then
    merged_table ← merge_tables current next;
    merged_tables ← merge_scan rest;
    Some (merged_table :: merged_tables)
  else
    merged_tables ← merge_scan (next :: rest);
    Some (current :: merged_tables).
Proof. reflexivity. Qed.

Lemma merge_scan_from_input (tables out : list table) :
  merge_scan tables = Some out →
  length out <= length tables ∧ Forall (from_input tables) out.
Proof.
  revert out.
  induction tables as [tables IH] using (induction_ltof1 _ (@length table)).
  unfold ltof in IH. intros out.
  destruct tables as [|current [|next rest]].
  - intros [= <-]. split; [done|constructor].
  - intros [= <-]. split; [done|]. constructor; [left; constructor|constructor].
  - rewrite merge_scan_step.
    destruct (py_succ _) as [expected|]; [|done]. cbn [mbind option_bind].
    destruct (if py_eq _ _ then _ else _) as [[]|]; [| |done];
      cbn [mbind option_bind].
    + destruct (merge_tables current next) as [m|] eqn:Hm; [|done].
      cbn [mbind option_bind].
      destruct (merge_scan rest) as [out'|] eqn:Hrest; [|done].
      intros [= <-].
      destruct (IH rest ltac:(simpl; lia) out' Hrest) as [Hlen Hall].
      split; [simpl; lia|]. constructor.
      * right. exists current, next.
        split_and!; [constructor|do 2 constructor|done].
      * eapply Forall_impl; [exact Hall|]. intros t.
        apply from_input_mono. intros x Hx. do 2 constructor. exact Hx.
    + destruct (merge_scan (next :: rest)) as [out'|] eqn:Hrest; [|done].
      intros [= <-].
      destruct (IH (next :: rest) ltac:(simpl; lia) out' Hrest) as [Hlen Hall].
      split; [simpl in *; lia|]. constructor.
      * left. constructor.
      * eapply Forall_impl; [exact Hall|]. intros t.
        apply from_input_mono. intros x Hx. constructor. exact Hx.
Qed.

Lemma sorted_tables_perm (tables : list table) keys sorted :
  mapM sort_key tables = Some keys →
  sort_keyed (zip keys tables) = Some sorted →
  sorted.*2 ≡ₚ tables.
Proof.
  intros Hkeys Hsort. apply sort_keyed_perm in Hsort. rewrite Hsort.
  apply length_mapM in Hkeys. rewrite snd_zip; [done|lia].
Qed.

Lemma handle_from_input (tables out : list table) :
  handle_cross_page_tables tables = Returned out ∨
  handle_cross_page_tables tables = Recovered out →
  length out <= length tables ∧ Forall (from_input tables) out.
Proof.
  assert (∀ l : list table, l ≡ₚ tables →
            length l <= length tables ∧ Forall (from_input tables) l) as Hperm.
  { intros l Hl. split; [by rewrite Hl|].
    apply Forall_forall. intros t Ht. left. by rewrite <- Hl. }
  rewrite handle_cross_page_tables_unfold.
  case_bool_decide as Hshort.
  { intros [[= <-]|?]; [|done]. by apply Hperm. }
  destruct (mapM sort_key tables) as [keys|] eqn:Hkeys.
  2: { intros [?|[= <-]]; [done|]. by apply Hperm. }
  destruct (sort_keyed (zip keys tables)) as [sorted|] eqn:Hsort.
  2: { intros [?|[= <-]]; [done|]. apply Hperm.
       rewrite interrupted_sort_perm. apply length_mapM in Hkeys.
       rewrite snd_zip; [done|lia]. }
  pose proof (sorted_tables_perm _ _ _ Hkeys Hsort) as Hsorted.
  destruct (merge_scan sorted.*2) as [merged|] eqn:Hscan.
  - intros [[= <-]|?]; [|done].
    destruct (merge_scan_from_input _ _ Hscan) as [Hlen Hall].
    split; [by rewrite <- Hsorted|].
    eapply Forall_impl; [exact Hall|]. intros t.
    apply from_input_mono. intros x. by rewrite Hsorted.
  - intros [?|[= <-]]; [done|]. by apply Hperm.
Qed.

(** Property X6.
    The pass never makes tables up and never returns more than it was
    given: whenever it returns a list (normally or after a caught
    exception), that list is no longer than the input and each of its
    tables is a table of the input or the merge of two tables of the
    input. *)
Theorem handle_cross_page_tables_from_input (tables out : list table) :
  handle_cross_page_tables tables = Returned out ∨
  handle_cross_page_tables tables = Recovered out →
  length out <= length tables ∧ Forall (from_input tables) out.
Proof. apply handle_from_input. Qed.

(** ** Tables that are not on consecutive pages *)

Lemma merge_scan_apart (tables : list table) :
  Forall (fun t => ∃ n, page_is t n) tables →
  (∀ t1 t2 n1 n2, t1 ∈ tables → t2 ∈ tables →
     page_is t1 n1 → page_is t2 n2 → n2 ≠ (n1 + 1)%Z) →
  merge_scan tables = Some tables.
Proof.
  induction tables as [|current rest IH]; [done|].
  intros Hpages Hapart. destruct rest as [|next rest]; [done|].
  rewrite merge_scan_step.
  apply Forall_cons in Hpages as [[n1 H1] Hrest].
  pose proof Hrest as [[n2 H2] _]%Forall_cons.
  unfold page_is in H1, H2. rewrite H1, H2. cbn [py_succ mbind option_bind].
  rewrite py_eq_int, bool_decide_eq_false_2.
  2: { apply (Hapart current next); [constructor|do 2 constructor|done|done]. }
  cbn [mbind option_bind].
  rewrite IH; [done|done|].
  intros t1 t2 m1 m2 Ht1 Ht2. apply Hapart; by constructor.
Qed.

(** Property X7.
    Tables are merged only across consecutive pages: when no table of
    the list is on the page after that of another one (for instance when
    all are on one page), the pass returns the tables it was given, in
    sorted order, and merges nothing. *)
Theorem no_merge_without_consecutive_pages (tables : list table) keys sorted :
  Forall (fun t => ∃ n, page_is t n) tables →
  (∀ t1 t2 n1 n2, t1 ∈ tables → t2 ∈ tables →
     page_is t1 n1 → page_is t2 n2 → n2 ≠ (n1 + 1)%Z) →
  mapM sort_key tables = Some keys →
  sort_keyed (zip keys tables) = Some sorted →
  ∃ out, handle_cross_page_tables tables = Returned out ∧ out ≡ₚ tables.
Proof.
  intros Hpages Hapart Hkeys Hsort.
  rewrite handle_cross_page_tables_unfold.
  case_bool_decide as Hshort; [by exists tables|].
  rewrite Hkeys, Hsort.
  pose proof (sorted_tables_perm _ _ _ Hkeys Hsort) as Hsorted.
  rewrite merge_scan_apart.
  - by exists sorted.*2.
  - by rewrite Hsorted.
  - intros t1 t2 n1 n2 Ht1 Ht2. rewrite Hsorted in Ht1, Ht2. by apply Hapart.
Qed.

(** ** Backend tables on consecutive pages *)

Lemma tabula_unlocated cfg page_number lattice i df :
  let t := tabula_table_dict cfg page_number lattice i df in
  unlocated t ∧ t !! "page" = Some (PInt page_number).
Proof.
  unfold unlocated, tabula_table_dict.
  destruct (cfg_header_extraction cfg && negb (df_empty df));
    repeat split; by lookup_dict.
Qed.

Lemma pdfplumber_unlocated cfg page_number vs hs i table_data :
  let t := pdfplumber_table_dict cfg page_number vs hs i table_data in
  unlocated t ∧ t !! "page" = Some (PInt page_number).
Proof.
  unfold unlocated, pdfplumber_table_dict.
  destruct (negb (cfg_header_extraction cfg) && _);
    repeat split; by lookup_dict.
Qed.

Lemma unlocated_merge (t1 t2 : table) (p : Z) :
  unlocated t1 → unlocated t2 →
  t1 !! "page" = Some (PInt p) → t2 !! "page" = Some (PInt (p + 1)) →
  ∃ m, handle_cross_page_tables [t1; t2] = Returned [m] ∧
       merge_tables t1 t2 = Some m ∧
       m !! "rows" = t1 !! "rows" ∧ m !! "headers" = t1 !! "headers".
Proof.
  intros (Hd1 & Ht1 & Hb1) (Hd2 & Ht2 & Hb2) Hp1 Hp2.
  assert (are_tables_related t1 t2 = Some true) as Hrel.
  { unfold are_tables_related, widths_compatible. by rewrite Hd1, Hb1, Hb2. }
  assert (∃ m, merge_tables t1 t2 = Some m ∧
               m !! "rows" = t1 !! "rows" ∧ m !! "headers" = t1 !! "headers")
    as (m & Hm & Hrows & Hheaders).
  { unfold merge_tables, dict_get. rewrite Hd1, Ht1, Ht2.
    cbn [default from_option id py_as_str mbind option_bind].
    eexists. split; [reflexivity|]. split; by lookup_dict. }
  exists m. split; [|done].
  rewrite handle_cross_page_tables_unfold. cbn [length bool_decide].
  rewrite bool_decide_eq_false_2 by (simpl; lia).
  assert (sort_key t1 = Some (PInt p, PInt 0)) as Hk1.
  { unfold sort_key, dict_get. by rewrite Hb1, Hp1. }
  assert (sort_key t2 = Some (PInt (p + 1), PInt 0)) as Hk2.
  { unfold sort_key, dict_get. by rewrite Hb2, Hp2. }
  cbn [mapM]. rewrite Hk1, Hk2. cbn [mbind option_bind mret option_ret].
  cbn [zip zip_with sort_keyed insert_keyed mbind option_bind fst snd].
  rewrite key_lt_pages by lia. rewrite bool_decide_eq_false_2 by lia.
  cbn [mbind option_bind fmap list_fmap snd].
  rewrite merge_scan_step. unfold dict_get at 1 2. rewrite Hp1, Hp2.
  cbn [default from_option id py_succ mbind option_bind].
  rewrite py_eq_int, bool_decide_eq_true_2 by done.
  rewrite Hrel. cbn [mbind option_bind]. rewrite Hm. done.
Qed.

(** Property X8.
    Two tables that tabula (or pdfplumber) found on consecutive pages are
    always merged by the pass, whatever they contain: the converters give
    every table the bounding box [[0, 0, 0, 0]] and no [data], so nothing
    tells the tables apart.  The merged table has the rows and headers of
    the first table only. *)
Theorem backend_tables_always_merged cfg (p : Z) lattice1 lattice2 i1 i2 df1 df2
    vs hs j1 j2 cells1 cells2 :
  (∃ m, handle_cross_page_tables
          [tabula_table_dict cfg p lattice1 i1 df1;
           tabula_table_dict cfg (p + 1) lattice2 i2 df2] = Returned [m] ∧
        m !! "rows" = tabula_table_dict cfg p lattice1 i1 df1 !! "rows" ∧
        m !! "headers" = tabula_table_dict cfg p lattice1 i1 df1 !! "headers") ∧
  (∃ m, handle_cross_page_tables
          [pdfplumber_table_dict cfg p vs hs j1 cells1;
           pdfplumber_table_dict cfg (p + 1) vs hs j2 cells2] = Returned [m] ∧
        m !! "rows" = pdfplumber_table_dict cfg p vs hs j1 cells1 !! "rows" ∧
        m !! "headers" = pdfplumber_table_dict cfg p vs hs j1 cells1 !! "headers").
Proof.
  split.
  - destruct (tabula_unlocated cfg p lattice1 i1 df1) as [Hu1 Hp1].
    destruct (tabula_unlocated cfg (p + 1) lattice2 i2 df2) as [Hu2 Hp2].
    destruct (unlocated_merge _ _ p Hu1 Hu2 Hp1 Hp2) as (m & Hm & _ & Hr & Hh).
    by exists m.
  - destruct (pdfplumber_unlocated cfg p vs hs j1 cells1) as [Hu1 Hp1].
    destruct (pdfplumber_unlocated cfg (p + 1) vs hs j2 cells2) as [Hu2 Hp2].
    destruct (unlocated_merge _ _ p Hu1 Hu2 Hp1 Hp2) as (m & Hm & _ & Hr & Hh).
    by exists m.
Qed.
(** ** The rows of a merged table *)

Lemma fused_table_keys (first second m : table) :
  merge_tables first second = Some m →
  m !! "rows" = first !! "rows" ∧
  m !! "context" = first !! "context" ∧
  m !! "headers" = first !! "headers" ∧
  m !! "bbox" = first !! "bbox" ∧
  m !! "page_range" =
    Some (PList [dict_get first "page" (PInt 0);
                 dict_get second "page" (PInt 0)]) ∧
  m !! "is_cross_page" = Some (PBool true).
Proof.
  intros Hm.
  destruct (merge_tables_spec _ _ _ Hm) as (_ & _ & _ & Hrange & _ & Hcross & Hrest).
  assert (∀ key, key ∈ ["rows"; "context"; "headers"; "bbox"] →
                 key ∉ merge_keys) as Hother.
  { intros key Hkey Hin. unfold merge_keys in Hin.
    repeat (apply elem_of_cons in Hkey as [->|Hkey];
            [ repeat (apply elem_of_cons in Hin as [Hin|Hin]; [discriminate|]);
              by apply elem_of_nil in Hin | ]).
    by apply elem_of_nil in Hkey. }
  repeat split; try done; apply Hrest, Hother.
  - constructor.
  - do 2 constructor.
  - do 3 constructor.
  - do 4 constructor.
Qed.

(** Claim C1, a defect of [_merge_tables].  The three converters store
    the rows of a table under [rows] and the text around it under
    [context], and none of them writes [data]; [_merge_tables] joins what
    it finds under [data] and [text].  So every table of the result of
    the pass is a table of the input or the merge of two of them that
    carries, under [page_range] and [is_cross_page], the [rows] and the
    [context] of the first alone: the rows of the second are lost.  On
    the specification's example, the tables of pages 3 and 4 as the
    converters emit them, the pass returns one table with
    [page_range = [3, 4]] whose rows are the page-3 rows and whose context
    is that of page 3, where the specification has the page-3 rows
    followed by the page-4 rows. *)
Theorem cross_page_merge_loses_rows :
  (∀ cfg page_number flavor i tbl,
     camelot_table_dict cfg page_number flavor i tbl !! "data" = None) ∧
  (∀ cfg page_number lattice i df,
     tabula_table_dict cfg page_number lattice i df !! "data" = None) ∧
  (∀ cfg page_number vs hs i table_data,
     pdfplumber_table_dict cfg page_number vs hs i table_data !! "data" = None) ∧
  (∀ (tables out : list table) (m : table),
     handle_cross_page_tables tables = Returned out →
     m ∈ out →
     m ∈ tables ∨
     ∃ first second,
       first ∈ tables ∧ second ∈ tables ∧
       merge_tables first second = Some m ∧
       m !! "rows" = first !! "rows" ∧
       m !! "context" = first !! "context" ∧
       m !! "headers" = first !! "headers" ∧
       m !! "bbox" = first !! "bbox" ∧
       m !! "page_range" =
         Some (PList [dict_get first "page" (PInt 0);
                      dict_get second "page" (PInt 0)]) ∧
       m !! "is_cross_page" = Some (PBool true)) ∧
  are_tables_related rows_page3 rows_page4 = Some true ∧
  merge_tables rows_page3 rows_page4 = Some rows_pages_merged ∧
  handle_cross_page_tables [rows_page3; rows_page4]
    = Returned [rows_pages_merged] ∧
  rows_pages_merged !! "page_range" = Some (PList [PInt 3; PInt 4]) ∧
  rows_pages_merged !! "is_cross_page" = Some (PBool true) ∧
  rows_pages_merged !! "rows" = Some (py_rows staff_rows_3) ∧
  rows_pages_merged !! "context" = rows_page3 !! "context" ∧
  merged_rows_spec rows_page3 rows_page4
    = Some (py_rows (staff_rows_3 ++ staff_rows_4)) ∧
  rows_pages_merged !! "rows" ≠ merged_rows_spec rows_page3 rows_page4.
Proof.
  split; [intros; apply camelot_table_dict_data|].
  split; [intros; apply tabula_table_dict_data|].
  split; [intros; apply pdfplumber_table_dict_data|].
  split.
  { intros tables out m Hpass Hm.
    destruct (handle_from_input tables out (or_introl Hpass)) as [_ Hall].
    rewrite Forall_forall in Hall.
    destruct (Hall m Hm) as [Hin|(first & second & H1 & H2 & Hmerge)];
      [by left|right].
    exists first, second. split; [done|]. split; [done|]. split; [done|].
    by apply fused_table_keys. }
  assert (Hspec : merged_rows_spec rows_page3 rows_page4
                  = Some (py_rows (staff_rows_3 ++ staff_rows_4)))
    by (vm_compute; reflexivity).
  repeat split; try (vm_compute; reflexivity).
  rewrite Hspec. vm_compute. discriminate.
Qed.

End PassFacts.

(** * Further properties of the refinement and of the converters *)

(** Property X10.
    [_refine_table_structure] works on a copy of the table and writes
    three keys only: every other entry of the table is returned as it
    was, and a table that had rows to refine is marked [refined]. *)
Theorem refine_writes_three_keys (t t' : table) :
  refine_table_structure t = Some t' →
  (∀ key, key ≠ "data" → key ≠ "headers" → key ≠ "refined" →
     t' !! key = t !! key) ∧
  (∀ d, t !! "data" = Some d → py_truthy d = true →
     t' !! "refined" = Some (PBool true)).
Proof.
  intros [[-> Hnone]|(hs & rows & n & -> & _)]%refine_shape.
  - split; [done|]. intros d Hd Htruthy.
    destruct Hnone as [Hnone|(d' & Hd' & Hfalsy)]; congruence.
  - split.
    + intros key ? ? ?. unfold refined_table. by lookup_dict.
    + intros _ _ _. unfold refined_table. by lookup_dict.
Qed.

(** Property X11.
    Every cell of a refined table is clean: the headers and the rows it
    returns hold strings whose words are separated by single spaces, with
    no white space at either end (and values that are not strings, as
    they were), so that cleaning them again changes nothing. *)
Theorem refined_cells_normalized (t t' : table) (d : pyval) :
  refine_table_structure t = Some t' →
  t !! "data" = Some d → py_truthy d = true →
  ∃ hs rows,
    t' !! "headers" = Some (PList hs) ∧ t' !! "data" = Some (py_rows rows) ∧
    Forall normalized_cell hs ∧ Forall (Forall normalized_cell) rows.
Proof.
  intros [[-> Hnone]|(hs & rows & n & -> & _)]%refine_shape Hd Htruthy.
  { destruct Hnone as [Hnone|(d' & Hd' & Hfalsy)]; congruence. }
  destruct (refined_table_lookup t hs rows) as (Hdata & Hheaders & _).
  exists (clean_cell <$> hs), (fmap (M:=list) clean_cell <$> rows).
  split; [done|]. split; [done|]. split.
  - apply Forall_fmap, Forall_true. intros c. apply clean_cell_idem.
  - apply Forall_fmap, Forall_true. intros row.
    apply Forall_fmap, Forall_true. intros c. apply clean_cell_idem.
Qed.

(** ** The converters *)

Lemma enumerate_lookup {X} (l : list X) i x :
  (i, x) ∈ enumerate l → l !! i = Some x.
Proof.
  unfold enumerate.
  assert (∀ k, (i, x) ∈ combine (seq k (length l)) l → ∃ j, i = k + j ∧ l !! j = Some x)
    as Hgen.
  { induction l as [|y l IH]; intros k; cbn [length seq combine].
    - by intros ?%elem_of_nil.
    - intros [[= -> ->]|Hin]%elem_of_cons.
      + exists 0. split; [lia|done].
      + destruct (IH _ Hin) as (j & -> & Hj). exists (S j). split; [lia|done]. }
  intros (j & -> & Hj)%Hgen. done.
Qed.

(** Property X9.
    Camelot tables are kept only when their accuracy reaches the
    configured threshold: every table [_extract_with_camelot] returns
    comes from a table of the backend whose accuracy is at least
    [min_confidence], carries that accuracy divided by 100 as its
    [confidence], and is numbered by its position in the backend's list. *)
Theorem camelot_tables_meet_threshold cfg page_number flavor tables (t : table) :
  t ∈ extract_with_camelot cfg page_number flavor (Some tables) →
  ∃ i tbl,
    tables !! i = Some tbl ∧
    (cfg_min_confidence cfg <= cam_accuracy tbl)%Q ∧
    t !! "confidence" = Some (PFloat (cam_accuracy tbl / 100)) ∧
    t !! "id" = Some (PStr (table_id page_number i)).
Proof.
  unfold extract_with_camelot.
  intros ([i tbl] & Hin & Hdict)%list_elem_of_omap. cbn [fst snd] in Hdict.
  destruct (Qltb _ _) eqn:Hlow; [done|]. injection Hdict as <-.
  exists i, tbl. split; [by apply enumerate_lookup|]. split.
  - apply not_true_iff_false in Hlow. unfold Qltb in Hlow.
    rewrite negb_true_iff, not_false_iff_true in Hlow.
    by apply Qle_bool_iff.
  - unfold camelot_table_dict.
    destruct (cfg_header_extraction cfg && negb (df_empty (cam_df tbl)));
      split; by lookup_dict.
Qed.

Lemma df_nonempty_values df :
  df_empty df = false → ∃ row rows, df_values df = row :: rows.
Proof.
  unfold df_empty. destruct (df_values df) as [|row rows]; [done|]. eauto.
Qed.

(** Property X12.
    No row of a data frame is lost by the camelot and tabula converters:
    for a data frame that is not empty, [headers] is its first row, and
    [rows] is the rest of the frame when header extraction is on, and the
    whole frame, first row included, when it is off. *)
Theorem converters_keep_all_rows cfg page_number flavor lattice i tbl df :
  df_empty (cam_df tbl) = false → df_empty df = false →
  (∃ header rows,
     camelot_table_dict cfg page_number flavor i tbl !! "headers"
       = Some (PList header) ∧
     camelot_table_dict cfg page_number flavor i tbl !! "rows"
       = Some (py_rows rows) ∧
     head (df_values (cam_df tbl)) = Some header ∧
     (if cfg_header_extraction cfg then header :: rows else rows)
       = df_values (cam_df tbl)) ∧
  (∃ header rows,
     tabula_table_dict cfg page_number lattice i df !! "headers"
       = Some (PList header) ∧
     tabula_table_dict cfg page_number lattice i df !! "rows"
       = Some (py_rows rows) ∧
     head (df_values df) = Some header ∧
     (if cfg_header_extraction cfg then header :: rows else rows)
       = df_values df).
Proof.
  intros Hcam Hdf. split.
  - destruct (df_nonempty_values _ Hcam) as (row & rows & Hvalues).
    unfold camelot_table_dict, df_iloc0, df_iloc_from1.
    rewrite Hcam, Hvalues. cbn [negb andb head tail default from_option id].
    destruct (cfg_header_extraction cfg).
    + exists row, rows. repeat split; by lookup_dict.
    + exists row, (row :: rows). repeat split; by lookup_dict.
  - destruct (df_nonempty_values _ Hdf) as (row & rows & Hvalues).
    unfold tabula_table_dict, df_iloc0, df_iloc_from1.
    rewrite Hdf, Hvalues. cbn [negb andb head tail default from_option id].
    destruct (cfg_header_extraction cfg).
    + exists row, rows. repeat split; by lookup_dict.
    + exists row, (row :: rows). repeat split; by lookup_dict.
Qed.

Lemma plumber_cell_trimmed cell : trimmed_text (plumber_cell cell).
Proof.
  destruct cell as [s|]; cbn.
  - exists (strip s). split; [done|]. apply strip_idem.
  - by exists "".
Qed.

Lemma plumber_rows_trimmed (table_data : list (list (option string))) :
  Forall (Forall trimmed_text) (map (map plumber_cell) table_data).
Proof.
  induction table_data as [|row rows IH]; cbn [map]; constructor; [|done].
  induction row as [|cell row IHrow]; cbn [map]; constructor; [|done].
  apply plumber_cell_trimmed.
Qed.

(** Property X13.
    Every cell of a table [_extract_with_pdfplumber] returns is a string
    without white space at its ends: a missing cell becomes the empty
    string, any other is trimmed. *)
Theorem pdfplumber_cells_trimmed cfg page_number vs hs read (t : table) :
  t ∈ extract_with_pdfplumber cfg page_number vs hs read →
  ∃ header rows,
    t !! "headers" = Some (PList header) ∧ t !! "rows" = Some (py_rows rows) ∧
    Forall trimmed_text header ∧ Forall (Forall trimmed_text) rows.
Proof.
  intros (i & table_data & ->)%extract_with_pdfplumber_dict.
  pose proof (plumber_rows_trimmed table_data) as Hall.
  unfold pdfplumber_table_dict.
  set (rows := map (map plumber_cell) table_data) in *.
  destruct (negb (cfg_header_extraction cfg) && _).
  - exists [], rows. split; [by lookup_dict|]. split; [by lookup_dict|].
    split; [constructor|done].
  - exists (default [] (head rows)),
      (if bool_decide (1 < length rows) then tail rows else []).
    split; [by lookup_dict|]. split; [by lookup_dict|].
    destruct rows as [|row rows']; cbn.
    + split; constructor.
    + apply Forall_cons in Hall as [Hrow Hrows]. split; [done|].
      case_bool_decide; [done|constructor].
Qed.

(** * Table identifiers *)

Lemma str_of_Z_inj a b : str_of_Z a = str_of_Z b → a = b.
Proof.
  unfold str_of_Z. intros Hab.
  assert (∀ z, Z.to_int z ≠ Decimal.Pos Decimal.Nil ∧
               Z.to_int z ≠ Decimal.Neg Decimal.Nil) as Hnil.
  { intros z. split; intros Hz; pose proof (f_equal Z.of_int Hz) as Hz';
      rewrite DecimalZ.of_to in Hz'; cbn in Hz'; by subst z. }
  apply DecimalZ.to_int_inj.
  destruct (Hnil a) as [Ha1 Ha2], (Hnil b) as [Hb1 Hb2].
  pose proof (NilZero.isi _ Ha1 Ha2) as Ha.
  pose proof (NilZero.isi _ Hb1 Hb2) as Hb.
  rewrite Hab in Ha. congruence.
Qed.

Lemma append_inj_r (p a b : string) : p +:+ a = p +:+ b → a = b.
Proof. induction p as [|c p IH]; cbn; [done|]. intros [= Hab]. auto. Qed.

Lemma table_id_inj page_number i j :
  table_id page_number i = table_id page_number j → i = j.
Proof.
  unfold table_id. intros Hij.
  do 3 apply append_inj_r in Hij. apply str_of_Z_inj in Hij. lia.
Qed.

(** The identifiers of the dictionaries built from an enumerated list are
    the identifiers of distinct positions. *)
Lemma enumerated_ids_distinct {X} (page_number : Z)
    (f : nat * X → option table) (l : list X) :
  (∀ i x t, f (i, x) = Some t → t !! "id" = Some (PStr (table_id page_number i))) →
  NoDup ((fun t : table => t !! "id") <$> omap f (enumerate l)).
Proof.
  intros Hid. unfold enumerate. generalize 0 as k.
  induction l as [|x l IH]; intros k; cbn [length seq combine omap list_omap].
  { constructor. }
  assert (∀ t, t ∈ omap f (combine (seq (S k) (length l)) l) →
            ∃ i, k < i ∧ t !! "id" = Some (PStr (table_id page_number i)))
    as Hlater.
  { intros t ([i y] & Hin & Ht)%list_elem_of_omap. exists i.
    split; [|by eapply Hid].
    apply list_elem_of_In, in_combine_l, in_seq in Hin. lia. }
  destruct (f (k, x)) as [t|] eqn:Ht; [|apply IH].
  cbn [fmap list_fmap]. constructor; [|apply IH].
  intros (t' & Heq & (i & Hi & Hid')%Hlater)%list_elem_of_fmap.
  rewrite (Hid _ _ _ Ht), Hid' in Heq.
  assert (table_id page_number k = table_id page_number i) as Heq'%table_id_inj
    by congruence.
  lia.
Qed.

(** Property X14.
    Within the result of one converter call the table identifiers are
    pairwise different, also when tables of the backend were skipped:
    each identifier is built from the position of the table in the list
    the backend returned. *)
Theorem table_ids_unique cfg page_number flavor lattice vs hs
    read_camelot read_tabula read_pdfplumber :
  NoDup ((fun t : table => t !! "id")
           <$> extract_with_camelot cfg page_number flavor read_camelot) ∧
  NoDup ((fun t : table => t !! "id")
           <$> extract_with_tabula cfg page_number lattice read_tabula) ∧
  NoDup ((fun t : table => t !! "id")
           <$> extract_with_pdfplumber cfg page_number vs hs read_pdfplumber).
Proof.
  split_and!.
  - destruct read_camelot as [tables|]; [|constructor].
    apply (enumerated_ids_distinct page_number). intros i tbl t. cbn [fst snd].
    destruct (Qltb _ _); [done|]. intros [= <-]. unfold camelot_table_dict.
    destruct (cfg_header_extraction cfg && _); by lookup_dict.
  - destruct read_tabula as [tables|]; [|constructor].
    apply (enumerated_ids_distinct page_number). intros i df t. cbn [fst snd].
    destruct (df_empty df); [done|]. intros [= <-]. unfold tabula_table_dict.
    destruct (cfg_header_extraction cfg && _); by lookup_dict.
  - destruct read_pdfplumber as [tables|]; [|constructor].
    apply (enumerated_ids_distinct page_number). intros i td t. cbn [fst snd].
    destruct td; [done|]. intros [= <-]. unfold pdfplumber_table_dict.
    destruct (negb (cfg_header_extraction cfg) && _); by lookup_dict.
Qed.

(** * The calls of the unified extraction *)

Section Calls.
Variable run_backend : backend_call → option (list table).
Variable get_table_context : pyval → option string.

Ltac distinct_calls :=
  repeat match goal with
  | |- NoDup [] => constructor
  | |- NoDup (_ :: _) => constructor
  | |- _ ∉ _ =>
      let Hin := fresh in
      intros Hin;
      repeat (apply elem_of_cons in Hin as [Hin|Hin]; [discriminate Hin|]);
      by apply elem_of_nil in Hin
  end.

(** Property X15.
    [_extract_tables_unified] never calls a backend twice for a page and
    makes at most three calls; with [fallback_to_heuristic] off it makes
    at most one. *)
Theorem unified_calls_distinct cfg has_borders :
  let calls :=
    (extract_tables_unified run_backend get_table_context cfg has_borders).2 in
  NoDup calls ∧ length calls <= 3 ∧
  (cfg_fallback_to_heuristic cfg = false → length calls <= 1).
Proof.
  unfold extract_tables_unified, primary_attempt, fallback_attempts.
  generalize (resolve_method cfg has_borders) as method. intros method.
  cbn [snd].
  destruct (String.eqb method "camelot") eqn:Hc;
  destruct (String.eqb method "tabula") eqn:Ht;
  destruct (String.eqb method "pdfplumber") eqn:Hp;
  destruct (cfg_fallback_to_heuristic cfg);
  cbn [negb andb]; rewrite ?attempt_unfold; cbn [fst snd app is_nil andb];
  repeat match goal with
  | |- context [run_backend ?c] =>
      let r := fresh "r" in
      destruct (run_backend c) as [[|? ?]|] eqn:r;
      cbn [is_nil andb fst snd negb app]; rewrite ?attempt_unfold;
      cbn [fst snd app is_nil andb]
  end;
  unfold camelot_call, tabula_call; destruct has_borders;
  (split; [distinct_calls|split; [cbn; lia|intros; first [done|cbn; lia]]]).
Qed.

Ltac all_fruitless :=
  repeat (constructor; [unfold fruitless; by auto|]); constructor.

Lemma unified_last_call cfg has_borders :
  let r := extract_tables_unified run_backend get_table_context cfg has_borders in
  (r.1 = [] → Forall (fruitless run_backend) r.2) ∧
  (r.1 ≠ [] →
   ∃ call tables,
     last r.2 = Some call ∧ run_backend call = Some tables ∧
     r.1 = add_context get_table_context <$> tables ∧
     Forall (fruitless run_backend) (List.removelast r.2)).
Proof.
  unfold extract_tables_unified, primary_attempt, fallback_attempts,
    camelot_call, tabula_call.
  generalize (resolve_method cfg has_borders) as method. intros method.
  destruct has_borders;
  destruct (String.eqb method "camelot") eqn:Hc;
  destruct (String.eqb method "tabula") eqn:Ht;
  destruct (String.eqb method "pdfplumber") eqn:Hp;
  destruct (cfg_fallback_to_heuristic cfg);
  cbn [negb andb]; rewrite ?attempt_unfold; cbn [fst snd app is_nil andb];
  repeat match goal with
  | |- context [run_backend ?c] =>
      let r := fresh "r" in
      destruct (run_backend c) as [[|? ?]|] eqn:r;
      cbn [is_nil andb fst snd negb app]; rewrite ?attempt_unfold;
      cbn [fst snd app is_nil andb]
  end;
  cbn [fmap list_fmap];
  (split;
   [ intros Hnil; first [discriminate Hnil | all_fruitless]
   | intros Hne; first [done | do 2 eexists; split_and!;
       [reflexivity|eassumption|reflexivity|cbn [List.removelast]; all_fruitless]] ]).
Qed.

(** Property X16.
    The tables [_extract_tables_unified] returns are those of the last
    backend it called, each with its context attached; every call before
    that one raised or found nothing.  When it returns no table, every
    call it made raised or found nothing. *)
Theorem unified_tables_from_last_call cfg has_borders :
  let r := extract_tables_unified run_backend get_table_context cfg has_borders in
  (r.1 = [] → Forall (fruitless run_backend) r.2) ∧
  (r.1 ≠ [] →
   ∃ call tables,
     last r.2 = Some call ∧ run_backend call = Some tables ∧
     r.1 = add_context get_table_context <$> tables ∧
     Forall (fruitless run_backend) (List.removelast r.2)).
Proof. apply unified_last_call. Qed.
End Calls.

(** * Overlapping regions *)

Lemma coords_four region (x0 y0 x1 y1 : Q) :
  coords region = Some [x0; y0; x1; y1] →
  py_truthy region = true ∧
  ∃ a b c d, unpack4 region = Some (a, b, c, d) ∧
    py_num a = Some x0 ∧ py_num b = Some y0 ∧
    py_num c = Some x1 ∧ py_num d = Some y1.
Proof.
  assert (∀ l, mapM py_num l = Some [x0; y0; x1; y1] →
            ∃ a b c d, l = [a; b; c; d] ∧
              py_num a = Some x0 ∧ py_num b = Some y0 ∧
              py_num c = Some x1 ∧ py_num d = Some y1) as Hfour.
  { intros l Hl. apply mapM_Some in Hl.
    apply Forall2_cons_inv_r in Hl as (a & l1 & Ha & Hl & ->).
    apply Forall2_cons_inv_r in Hl as (b & l2 & Hb & Hl & ->).
    apply Forall2_cons_inv_r in Hl as (c & l3 & Hc & Hl & ->).
    apply Forall2_cons_inv_r in Hl as (d & l4 & Hd & Hl & ->).
    apply Forall2_nil_inv_r in Hl as ->. by exists a, b, c, d. }
  destruct region as [| | | | |l|l]; try done; cbn [coords];
    intros (a & b & c & d & -> & Hnum)%Hfour; (split; [done|]);
    by exists a, b, c, d.
Qed.

Lemma py_lt_num a b x y :
  py_num a = Some x → py_num b = Some y → py_lt a b = Some (Qltb x y).
Proof.
  destruct a, b; cbn; intros Ha Hb; try discriminate;
    injection Ha as <-; injection Hb as <-; done.
Qed.

(** The answer for two regions of four numbers each. *)
Lemma regions_overlap_numbers region1 region2 x01 y01 x11 y11 x02 y02 x12 y12 :
  coords region1 = Some [x01; y01; x11; y11] →
  coords region2 = Some [x02; y02; x12; y12] →
  regions_overlap region1 region2 =
  Some (negb (Qltb x11 x02 || Qltb x12 x01) && negb (Qltb y11 y02 || Qltb y12 y01)).
Proof.
  intros (Ht1 & a1 & b1 & c1 & d1 & Hu1 & Ha1 & Hb1 & Hc1 & Hd1)%coords_four
         (Ht2 & a2 & b2 & c2 & d2 & Hu2 & Ha2 & Hb2 & Hc2 & Hd2)%coords_four.
  unfold regions_overlap, lt_or_lt. rewrite Ht1, Ht2, Hu1, Hu2.
  cbn [negb orb mbind option_bind].
  rewrite (py_lt_num c1 a2 x11 x02), (py_lt_num c2 a1 x12 x01),
    (py_lt_num d1 b2 y11 y02), (py_lt_num d2 b1 y12 y01) by done.
  cbn [mbind option_bind].
  destruct (Qltb x11 x02); cbn [mbind option_bind orb negb andb]; [done|].
  destruct (Qltb x12 x01); cbn [mbind option_bind orb negb andb]; [done|].
  destruct (Qltb y11 y02); cbn [mbind option_bind orb negb andb]; [done|].
  by destruct (Qltb y12 y01).
Qed.

Lemma Qltb_false x y : Qltb x y = false ↔ (y <= x)%Q.
Proof.
  rewrite <- not_true_iff_false, Qltb_lt. split; [apply Qnot_lt_le|apply Qle_not_lt].
Qed.

(** Property X17.
    For two boxes of numbers whose corners are in order,
    [_regions_overlap] answers true exactly when the two closed
    rectangles have a point in common; boxes that only touch along an
    edge or at a corner count as overlapping. *)
Theorem regions_overlap_common_point (region1 region2 : pyval)
    (x01 y01 x11 y11 x02 y02 x12 y12 : Q) :
  coords region1 = Some [x01; y01; x11; y11] →
  coords region2 = Some [x02; y02; x12; y12] →
  (x01 <= x11)%Q → (y01 <= y11)%Q → (x02 <= x12)%Q → (y02 <= y12)%Q →
  ∃ answer, regions_overlap region1 region2 = Some answer ∧
    (answer = true ↔
     ∃ x y : Q, (x01 <= x <= x11)%Q ∧ (y01 <= y <= y11)%Q ∧
                (x02 <= x <= x12)%Q ∧ (y02 <= y <= y12)%Q).
Proof.
  intros H1 H2 Hx1 Hy1 Hx2 Hy2.
  rewrite (regions_overlap_numbers _ _ _ _ _ _ _ _ _ _ H1 H2).
  eexists. split; [reflexivity|].
  rewrite andb_true_iff, !negb_true_iff, !orb_false_iff, !Qltb_false. split.
  - intros [[Ha Hb] [Hc Hd]].
    exists (if Qltb x01 x02 then x02 else x01), (if Qltb y01 y02 then y02 else y01).
    destruct (Qltb x01 x02) eqn:Hx; destruct (Qltb y01 y02) eqn:Hy;
      first [apply Qltb_lt in Hx|apply Qltb_false in Hx];
      first [apply Qltb_lt in Hy|apply Qltb_false in Hy]; repeat split; lra.
  - intros (x & y & [? ?] & [? ?] & [? ?] & [? ?]). repeat split; lra.
Qed.

(** Property X18.
    [_regions_overlap] does not depend on the order of its arguments,
    and a box overlaps itself exactly when its corners are in order: an
    inverted box, whose right edge is left of its left edge or whose
    bottom is above its top, does not even overlap itself. *)
Theorem regions_overlap_sym (region1 region2 : pyval)
    (x01 y01 x11 y11 x02 y02 x12 y12 : Q) :
  coords region1 = Some [x01; y01; x11; y11] →
  coords region2 = Some [x02; y02; x12; y12] →
  regions_overlap region1 region2 = regions_overlap region2 region1 ∧
  (regions_overlap region1 region1 = Some true ↔ (x01 <= x11)%Q ∧ (y01 <= y11)%Q).
Proof.
  intros H1 H2.
  rewrite (regions_overlap_numbers _ _ _ _ _ _ _ _ _ _ H1 H2),
    (regions_overlap_numbers _ _ _ _ _ _ _ _ _ _ H2 H1),
    (regions_overlap_numbers _ _ _ _ _ _ _ _ _ _ H1 H1).
  split.
  - by rewrite (orb_comm (Qltb x12 x01)), (orb_comm (Qltb y12 y01)).
  - rewrite !orb_diag. split.
    + intros [= Hb]. apply andb_true_iff in Hb as [Hx Hy].
      by rewrite !negb_true_iff, !Qltb_false in Hx, Hy.
    + intros [Hx Hy]. apply Qltb_false in Hx, Hy. by rewrite Hx, Hy.
Qed.

(** * Page layout *)

Lemma Qle_bool_false x y : Qle_bool x y = false ↔ (y < x)%Q.
Proof.
  rewrite <- not_true_iff_false, Qle_bool_iff.
  split; [apply Qnot_le_lt|apply Qlt_not_le].
Qed.

Ltac compare_sizes :=
  repeat match goal with
  | H : Qle_bool _ _ = true |- _ => apply Qle_bool_iff in H
  | H : Qle_bool _ _ = false |- _ => apply Qle_bool_false in H
  | H : Qltb _ _ = true |- _ => apply Qltb_lt in H
  | H : Qltb _ _ = false |- _ => apply Qltb_false in H
  end.

Ltac split_sizes :=
  repeat match goal with
  | |- context [Qle_bool ?a ?b] => destruct (Qle_bool a b) eqn:?
  | |- context [Qltb ?a ?b] => destruct (Qltb a b) eqn:?
  end.

(** ** Element types *)

(** Property X19.
    The type of an element never goes down when its font gets larger or
    bold: in the order text, heading, subtitle, title, a block with a
    larger font size, and bold if the other one is, has a type at least as
    high as the other block's on the same page. *)
Theorem element_type_monotone (font_size1 font_size2 base_font_size : Q)
    (is_bold1 is_bold2 : bool) (bbox1 bbox2 : rect) :
  (font_size1 <= font_size2)%Q → (is_bold1 = true → is_bold2 = true) →
  type_rank (determine_element_type font_size1 base_font_size is_bold1 bbox1)
  <= type_rank (determine_element_type font_size2 base_font_size is_bold2 bbox2).
Proof.
  intros Hsize Hbold. unfold determine_element_type.
  destruct is_bold1, is_bold2; try (by specialize (Hbold eq_refl));
    rewrite ?andb_true_r, ?andb_false_r, ?orb_false_r; cbn [orb];
    split_sizes; cbn [orb]; try (cbn; lia); exfalso; compare_sizes; lra.
Qed.

(** Property X20.
    On a page with a positive base font size a block is plain text
    exactly when it is not bold and its font is no larger than the base
    size. *)
Theorem plain_text_iff (font_size base_font_size : Q) (is_bold : bool)
    (bbox : rect) :
  (0 < base_font_size)%Q →
  determine_element_type font_size base_font_size is_bold bbox = "text" ↔
  is_bold = false ∧ (font_size <= base_font_size)%Q.
Proof.
  intros Hbase. unfold determine_element_type. split.
  - destruct is_bold; rewrite ?andb_true_r, ?andb_false_r, ?orb_false_r;
      cbn [orb]; split_sizes; cbn [orb]; try discriminate.
    intros _. compare_sizes. split; [done|lra].
  - intros [-> Hsize]. rewrite ?andb_false_r, ?orb_false_r. cbn [orb].
    split_sizes; try done; exfalso; compare_sizes; lra.
Qed.

Lemma determine_element_type_bbox font_size base_font_size is_bold bbox bbox' :
  determine_element_type font_size base_font_size is_bold bbox =
  determine_element_type font_size base_font_size is_bold bbox'.
Proof. done. Qed.

(** ** Merging *)

Lemma py_min_le a b : (py_min a b <= a)%Q ∧ (py_min a b <= b)%Q.
Proof.
  unfold py_min. destruct (Qltb b a) eqn:Hba; compare_sizes; split; lra.
Qed.

Lemma py_max_ge a b : (a <= py_max a b)%Q ∧ (b <= py_max a b)%Q.
Proof.
  unfold py_max. destruct (Qltb a b) eqn:Hab; compare_sizes; split; lra.
Qed.

Lemma rect_within_refl r : rect_within r r.
Proof. unfold rect_within. repeat split; lra. Qed.

Lemma rect_within_trans r1 r2 r3 :
  rect_within r1 r2 → rect_within r2 r3 → rect_within r1 r3.
Proof. unfold rect_within. intros (?&?&?&?) (?&?&?&?). repeat split; lra. Qed.

Lemma merge_elements_within elem1 elem2 :
  rect_within (el_bbox elem1) (el_bbox (merge_elements elem1 elem2)) ∧
  rect_within (el_bbox elem2) (el_bbox (merge_elements elem1 elem2)).
Proof.
  unfold rect_within, merge_elements. cbn.
  pose proof (py_min_le (rx0 (el_bbox elem1)) (rx0 (el_bbox elem2))).
  pose proof (py_min_le (ry0 (el_bbox elem1)) (ry0 (el_bbox elem2))).
  pose proof (py_max_ge (rx1 (el_bbox elem1)) (rx1 (el_bbox elem2))).
  pose proof (py_max_ge (ry1 (el_bbox elem1)) (ry1 (el_bbox elem2))).
  tauto.
Qed.

Lemma should_merge_type tol elem1 elem2 :
  should_merge_elements tol elem1 elem2 = true → el_type elem1 = el_type elem2.
Proof.
  unfold should_merge_elements.
  intros [[Htype _]%andb_true_iff _]%andb_true_iff. by apply String.eqb_eq.
Qed.

Lemma covered_mono e l l' : l ⊆ l' → covered e l → covered e l'.
Proof. intros Hsub (m & Hm & Hrest). exists m. split; [by apply Hsub|done]. Qed.

Lemma covered_self e l : e ∈ l → covered e l.
Proof. intros He. exists e. split; [done|]. split; [done|apply rect_within_refl]. Qed.

Lemma merge_related_unfold tol elements :
  merge_related_elements tol elements =
  merged_so_far (fold_left (merge_step tol) elements ([], None)).
Proof. done. Qed.

Lemma merge_step_covered tol st element seen :
  Forall (fun e => covered e (merged_so_far st)) seen →
  Forall (fun e => covered e (merged_so_far (merge_step tol st element)))
    (seen ++ [element]).
Proof.
  intros Hseen. destruct st as [merged [current|]];
    unfold merge_step, merged_so_far in *; cbn [fst snd] in *.
  - destruct (should_merge_elements tol current element) eqn:Hmerge;
      cbn [fst snd]; apply Forall_app; split.
    + eapply Forall_impl; [exact Hseen|]. intros e (m & Hm & Htype & Hbox).
      apply elem_of_app in Hm as [Hm|Hm%list_elem_of_singleton].
      * exists m. split; [apply elem_of_app; by left|done].
      * subst m. exists (merge_elements current element).
        split; [apply elem_of_app; right; constructor|]. split; [done|].
        eapply rect_within_trans; [exact Hbox|].
        apply merge_elements_within.
    + constructor; [|constructor].
      exists (merge_elements current element).
      split; [apply elem_of_app; right; constructor|].
      split; [exact (should_merge_type tol _ _ Hmerge)|apply merge_elements_within].
    + eapply Forall_impl; [exact Hseen|]. intros e.
      apply covered_mono. intros x Hx. apply elem_of_app. by left.
    + constructor; [|constructor].
      apply covered_self, elem_of_app. right. constructor.
  - apply Forall_app. split.
    + eapply Forall_impl; [exact Hseen|]. intros e.
      apply covered_mono. intros x Hx. apply elem_of_app. by left.
    + constructor; [|constructor].
      apply covered_self, elem_of_app. right. constructor.
Qed.

Lemma merge_fold_covered tol elements st seen :
  Forall (fun e => covered e (merged_so_far st)) seen →
  Forall (fun e => covered e
            (merged_so_far (fold_left (merge_step tol) elements st)))
    (seen ++ elements).
Proof.
  induction elements as [|element elements IH] in st, seen |- *.
  - by rewrite app_nil_r.
  - intros Hseen. cbn [fold_left].
    rewrite (cons_middle element), app_assoc. apply IH.
    by apply merge_step_covered.
Qed.

(** Property X21.
    Merging loses no block: every element given to
    [_merge_related_elements] is covered by an element of the result that
    has its type and whose bounding box contains its own. *)
Theorem merge_related_elements_cover tol (elements : list LayoutElement)
    (e : LayoutElement) :
  e ∈ elements →
  ∃ m, m ∈ merge_related_elements tol elements ∧
       el_type m = el_type e ∧ rect_within (el_bbox e) (el_bbox m).
Proof.
  intros He. rewrite merge_related_unfold.
  pose proof (merge_fold_covered tol elements ([], None) []) as Hall.
  cbn [app] in Hall. specialize (Hall ltac:(constructor)).
  rewrite Forall_forall in Hall. by apply Hall.
Qed.

(** ** The text of the merged elements *)

Lemma append_assoc (a b c : string) : (a +:+ b) +:+ c = a +:+ (b +:+ c).
Proof.
  induction a as [|x a IH]; [done|].
  change (String x ((a +:+ b) +:+ c) = String x (a +:+ b +:+ c)). by f_equal.
Qed.

Lemma concat_cons sep (w : string) ws :
  ws ≠ [] → String.concat sep (w :: ws) = w +:+ sep +:+ String.concat sep ws.
Proof. by destruct ws. Qed.

Lemma concat_merge (ws : list string) (a b : string) rest :
  String.concat " " (ws ++ (a +:+ " " +:+ b) :: rest) =
  String.concat " " (ws ++ a :: b :: rest).
Proof.
  induction ws as [|w ws IH].
  - cbn [app]. rewrite (concat_cons " " a) by done.
    destruct rest as [|r rest]; [done|].
    rewrite !(concat_cons " " _ (r :: rest)) by done.
    by rewrite !append_assoc.
  - cbn [app]. rewrite !concat_cons by (by destruct ws). by rewrite IH.
Qed.

Lemma merge_fold_text tol elements st :
  String.concat " "
    (el_text <$> merged_so_far (fold_left (merge_step tol) elements st)) =
  String.concat " " ((el_text <$> merged_so_far st) ++ (el_text <$> elements)).
Proof.
  induction elements as [|element elements IH] in st |- *.
  - by rewrite app_nil_r.
  - cbn [fold_left]. rewrite IH. clear IH.
    destruct st as [merged [current|]];
      unfold merge_step, merged_so_far; cbn [fst snd].
    + destruct (should_merge_elements tol current element); cbn [fst snd].
      * rewrite !fmap_app. cbn [fmap list_fmap merge_elements new_element el_text].
        rewrite <- !app_assoc. cbn [app]. apply concat_merge.
      * rewrite !fmap_app. cbn [fmap list_fmap]. by rewrite <- !app_assoc.
    + rewrite !fmap_app. cbn [fmap list_fmap]. by rewrite <- !app_assoc.
Qed.

Lemma merge_fold_length tol elements st :
  length (merged_so_far (fold_left (merge_step tol) elements st))
  <= length (merged_so_far st) + length elements ∧
  (merged_so_far st ≠ [] ∨ elements ≠ [] →
   merged_so_far (fold_left (merge_step tol) elements st) ≠ []).
Proof.
  induction elements as [|element elements IH] in st |- *.
  - cbn [fold_left length]. split; [lia|]. by intros [?|?].
  - cbn [fold_left length]. destruct (IH (merge_step tol st element)) as [Hlen Hne].
    assert (length (merged_so_far (merge_step tol st element))
            <= S (length (merged_so_far st)) ∧
            merged_so_far (merge_step tol st element) ≠ []) as [Hstep Hstep'].
    { destruct st as [merged [current|]];
        unfold merge_step, merged_so_far; cbn [fst snd].
      - destruct (should_merge_elements tol current element); cbn [fst snd];
          rewrite ?length_app; cbn [length]; (split; [lia|]);
          intros Hnil; apply (f_equal length) in Hnil;
          rewrite ?length_app in Hnil; cbn in Hnil; lia.
      - rewrite ?length_app; cbn [length]. split; [lia|].
        intros Hnil; apply (f_equal length) in Hnil;
          rewrite ?length_app in Hnil; cbn in Hnil; lia. }
    split; [lia|]. intros _. apply Hne. by left.
Qed.

(** Property X22.
    Merging keeps the text: the texts of the elements
    [_merge_related_elements] returns, joined by single spaces, are the
    texts of the elements it was given joined by single spaces.  The
    result is never longer than the input, and is empty only for an empty
    input. *)
Theorem merge_related_elements_text tol (elements : list LayoutElement) :
  String.concat " " (el_text <$> merge_related_elements tol elements) =
    String.concat " " (el_text <$> elements) ∧
  length (merge_related_elements tol elements) <= length elements ∧
  (merge_related_elements tol elements = [] ↔ elements = []).
Proof.
  rewrite merge_related_unfold. split; [apply merge_fold_text|].
  destruct (merge_fold_length tol elements ([], None)) as [Hlen Hne].
  split; [exact Hlen|]. split.
  - intros Hnil. destruct elements as [|e l]; [done|].
    exfalso. apply Hne; [by right|done].
  - by intros ->.
Qed.

(** ** The elements of a page *)

Lemma process_text_block_classified block base_font_size e :
  process_text_block block base_font_size = Some e →
  classified base_font_size e.
Proof.
  unfold process_text_block.
  destruct (lb_spans block) as [spans|]; [|done]. cbn [mbind option_bind].
  destruct (mapM span_text spans) as [texts|]; [|done]. cbn [mbind option_bind].
  destruct (head spans) as [font_info|]; [|done]. cbn [mbind option_bind].
  destruct (lb_bbox block) as [bbox|]; [|done]. cbn [mbind option_bind].
  by intros [= <-].
Qed.

Lemma merge_step_classified tol base_font_size st element :
  Forall (classified base_font_size) (merged_so_far st) →
  classified base_font_size element →
  Forall (classified base_font_size) (merged_so_far (merge_step tol st element)).
Proof.
  intros Hst He. destruct st as [merged [current|]];
    unfold merge_step, merged_so_far in *; cbn [fst snd] in *.
  - apply Forall_app in Hst as [Hmerged [Hcurrent _]%Forall_cons].
    destruct (should_merge_elements tol current element); cbn [fst snd].
    + apply Forall_app. split; [done|]. constructor; [|constructor].
      exact Hcurrent.
    + apply Forall_app. split; [|by repeat constructor].
      apply Forall_app. split; [done|by repeat constructor].
  - apply Forall_app. split; [done|by repeat constructor].
Qed.

Lemma merge_fold_classified tol base_font_size elements st :
  Forall (classified base_font_size) (merged_so_far st) →
  Forall (classified base_font_size) elements →
  Forall (classified base_font_size)
    (merged_so_far (fold_left (merge_step tol) elements st)).
Proof.
  induction elements as [|element elements IH] in st |- *; [done|].
  intros Hst [He Hrest]%Forall_cons. cbn [fold_left].
  apply IH; [by apply merge_step_classified|done].
Qed.

(** Property X23.
    Every element [_analyze_page_layout] returns, merged or not, has the
    type that [_determine_element_type] gives for its own font size and
    weight against the base font size of the page: merging keeps the
    type, the size and the weight of the first element of a group. *)
Theorem analyze_page_layout_classified tol (blocks : list layout_block) :
  Forall (classified (get_base_font_size blocks))
    (analyze_page_layout tol blocks).
Proof.
  unfold analyze_page_layout. rewrite merge_related_unfold.
  apply merge_fold_classified; [constructor|].
  apply Forall_forall. intros e (block & _ & He)%list_elem_of_omap.
  destruct (is_text_block block); [|done].
  by eapply process_text_block_classified.
Qed.

(** ** The document structure *)

Lemma structure_fold tol (its : list (nat * list layout_block)) hierarchy layouts :
  fold_left
    (fun structure (it : nat * list layout_block) =>
       let layout := analyze_page_layout tol it.2 in
       (structure.1 ++ page_headings it.1 layout, structure.2 ++ [layout]))
    its (hierarchy, layouts) =
  (hierarchy ++ flat_map (fun it => page_headings it.1 (analyze_page_layout tol it.2)) its,
   layouts ++ map (fun it => analyze_page_layout tol it.2) its).
Proof.
  induction its as [|it its IH] in hierarchy, layouts |- *; cbn [fold_left].
  - by rewrite !app_nil_r.
  - rewrite IH. cbn [fst snd flat_map map]. by rewrite <- !app_assoc.
Qed.

Lemma heading_level_range e : (1 <= determine_heading_level e <= 4)%Z.
Proof.
  unfold determine_heading_level.
  repeat match goal with |- context [if ?b then _ else _] => destruct b end; lia.
Qed.

Lemma page_headings_spec page_num layout h :
  h ∈ page_headings page_num layout →
  (1 <= heading_level h <= 4)%Z ∧ heading_page h = (Z.of_nat page_num + 1)%Z.
Proof.
  intros (e & _ & He)%list_elem_of_omap.
  destruct (is_heading_type (el_type e)); [|done]. injection He as <-.
  split; [apply heading_level_range|done].
Qed.

Lemma Sorted_lower_bound (a : Z) l :
  Sorted Z.le l → Forall (Z.le a) l → Sorted Z.le (a :: l).
Proof.
  intros Hl Ha. constructor; [done|].
  destruct Ha; constructor. done.
Qed.

Lemma hierarchy_pages tol (doc : list (list layout_block)) (k : nat) :
  let pages :=
    heading_page <$>
      flat_map (fun it : nat * list layout_block =>
                  page_headings it.1 (analyze_page_layout tol it.2))
               (combine (seq k (length doc)) doc) in
  Sorted Z.le pages ∧
  Forall (fun p => (Z.of_nat k + 1 <= p <= Z.of_nat (k + length doc))%Z) pages.
Proof.
  induction doc as [|blocks doc IH] in k |- *; cbn [length seq combine flat_map].
  { split; constructor. }
  destruct (IH (S k)) as [Hsorted Hbounds]. cbn zeta. rewrite fmap_app.
  cbn [fst snd].
  set (here := page_headings k (analyze_page_layout tol blocks)).
  assert (Forall (fun h => heading_page h = (Z.of_nat k + 1)%Z) here) as Hhere.
  { apply Forall_forall. intros h Hh. by apply page_headings_spec in Hh as [_ ?]. }
  clearbody here. split.
  - induction Hhere as [|h here Hh Hhere IHhere]; [done|]. cbn [fmap list_fmap app].
    apply Sorted_lower_bound; [done|]. apply Forall_app. split.
    + apply Forall_fmap. eapply Forall_impl; [exact Hhere|].
      intros h' Hh'. cbn beta in Hh'. unfold compose. lia.
    + eapply Forall_impl; [exact Hbounds|]. intros p Hp. cbn beta in Hp. lia.
  - apply Forall_app. split.
    + apply Forall_fmap. eapply Forall_impl; [exact Hhere|].
      intros h Hh. cbn beta in Hh. unfold compose. cbn [length]. lia.
    + eapply Forall_impl; [exact Hbounds|]. intros p Hp. cbn beta in Hp.
      cbn [length]. lia.
Qed.

(** Property X24.
    [_process_document_structure] lists the headings in page order: the
    layouts it returns are those of the pages, one per page; every entry
    of the hierarchy has a level from 1 to 4 and the number of a page of
    the document, counted from 1; and the page numbers of the entries
    never go down. *)
Theorem document_hierarchy_in_page_order tol (doc : list (list layout_block)) :
  let structure := process_document_structure tol doc in
  structure.2 = analyze_page_layout tol <$> doc ∧
  Forall (fun h => (1 <= heading_level h <= 4)%Z ∧
                   (1 <= heading_page h <= Z.of_nat (length doc))%Z)
    structure.1 ∧
  Sorted Z.le (heading_page <$> structure.1).
Proof.
  unfold process_document_structure. rewrite structure_fold. cbn [fst snd app].
  destruct (hierarchy_pages tol doc 0) as [Hsorted Hbounds]. cbn zeta in *.
  unfold enumerate. split; [|split; [|done]].
  - clear Hsorted Hbounds. generalize 0.
    induction doc as [|blocks doc IH]; intros k; [done|].
    cbn [length seq combine map fmap list_fmap snd]. f_equal. apply IH.
  - apply Forall_forall. intros h Hh. split.
    + apply list_elem_of_In, in_flat_map in Hh as ([i blocks] & _ & Hh).
      apply list_elem_of_In in Hh. by apply page_headings_spec in Hh as [? _].
    + rewrite Forall_fmap, Forall_forall in Hbounds.
      specialize (Hbounds h Hh). cbn in Hbounds. lia.
Qed.

(** ** The base font size *)

Section Median.
Implicit Types l : list Q.

Lemma insert_by_perm x l : insert_by Qltb id x l ≡ₚ x :: l.
Proof.
  induction l as [|h l IH]; cbn [insert_by]; [done|].
  destruct (Qltb _ _); [|done]. rewrite IH. apply perm_swap.
Qed.

Lemma sort_by_perm l : sort_by Qltb id l ≡ₚ l.
Proof.
  unfold sort_by. induction l as [|x l IH]; cbn [foldr]; [done|].
  by rewrite insert_by_perm, IH.
Qed.

Lemma insert_by_sorted x l :
  StronglySorted Qle l → StronglySorted Qle (insert_by Qltb id x l).
Proof.
  induction 1 as [|h l Hl IH Hh]; cbn [insert_by].
  - repeat constructor.
  - unfold id at 1 2. destruct (Qltb h x) eqn:Hhx; compare_sizes.
    + constructor; [done|]. rewrite insert_by_perm. constructor; [lra|done].
    + constructor; [by constructor|]. constructor; [done|].
      eapply Forall_impl; [exact Hh|]. intros y Hy. cbn in Hy. lra.
Qed.

Lemma sort_by_sorted l : StronglySorted Qle (sort_by Qltb id l).
Proof.
  unfold sort_by. induction l as [|x l IH]; cbn [foldr]; [constructor|].
  by apply insert_by_sorted.
Qed.

Lemma sorted_middle (before : list Q) x after :
  StronglySorted Qle (before ++ x :: after) →
  Forall (fun y => (y <= x)%Q) before ∧ Forall (fun y => (x <= y)%Q) after.
Proof.
  induction before as [|b before IH]; cbn [app].
  - intros [_ Hafter]%StronglySorted_inv. split; [constructor|done].
  - intros [Hrest Hb]%StronglySorted_inv. destruct (IH Hrest) as [Hbefore Hafter].
    split; [|done]. constructor; [|done].
    apply Forall_app in Hb as [_ [Hbx _]%Forall_cons]. done.
Qed.

Lemma filter_length_perm (f : Q → bool) l l' :
  l ≡ₚ l' → length (List.filter f l) = length (List.filter f l').
Proof.
  induction 1 as [|x l l' _ IH|x y l|l l' l'' _ IH1 _ IH2]; cbn [List.filter].
  - done.
  - destruct (f x); cbn [length]; by rewrite IH.
  - by destruct (f x), (f y).
  - by rewrite IH1.
Qed.

Lemma filter_length_all (f : Q → bool) l :
  Forall (fun y => f y = true) l → length (List.filter f l) = length l.
Proof.
  induction 1 as [|y l Hy _ IH]; cbn [List.filter length]; [done|].
  rewrite Hy. cbn [length]. by rewrite IH.
Qed.

Lemma filter_length_middle (f : Q → bool) (before : list Q) x after :
  Forall (fun y => f y = true) before → f x = true →
  length before + 1 <= length (List.filter f (before ++ x :: after)).
Proof.
  intros Hbefore Hx. rewrite List.filter_app, length_app. cbn [List.filter].
  rewrite Hx, filter_length_all by done. cbn [length]. lia.
Qed.

Lemma filter_length_tail (f : Q → bool) (before : list Q) x after :
  Forall (fun y => f y = true) after → f x = true →
  length after + 1 <= length (List.filter f (before ++ x :: after)).
Proof.
  intros Hafter Hx. rewrite List.filter_app, length_app. cbn [List.filter].
  rewrite Hx. cbn [length]. rewrite (filter_length_all f after) by done. lia.
Qed.

Lemma Forall_Qle_bool_le m l :
  Forall (fun y => (y <= m)%Q) l → Forall (fun y => Qle_bool y m = true) l.
Proof.
  intros Hl. eapply Forall_impl; [exact Hl|]. intros y. apply Qle_bool_iff.
Qed.

Lemma Forall_Qle_bool_ge m l :
  Forall (fun y => (m <= y)%Q) l → Forall (fun y => Qle_bool m y = true) l.
Proof.
  intros Hl. eapply Forall_impl; [exact Hl|]. intros y. apply Qle_bool_iff.
Qed.

Lemma split_at l i :
  i < length l →
  ∃ before x after, l = before ++ x :: after ∧ length before = i ∧
    nth i l 0%Q = x.
Proof.
  intros Hi. destruct (lookup_lt_is_Some_2 l i Hi) as [x Hx].
  exists (take i l), x, (drop (S i) l). split_and!.
  - by rewrite take_drop_middle.
  - rewrite length_take. lia.
  - by rewrite nth_lookup, Hx.
Qed.

Lemma half_odd m : (2 * m + 1) / 2 = m.
Proof. symmetry. apply (Nat.div_unique _ 2 m 1); lia. Qed.

Lemma half_even m : (2 * m) / 2 = m.
Proof. rewrite Nat.mul_comm. apply Nat.div_mul. lia. Qed.

(** The median of a list that is not empty has at least half of the list
    on either side. *)
Lemma median_halves l :
  l ≠ [] →
  length l <= 2 * length (List.filter (fun s => Qle_bool s (median l)) l) ∧
  length l <= 2 * length (List.filter (fun s => Qle_bool (median l) s) l).
Proof.
  intros Hne. unfold median.
  pose proof (sort_by_perm l) as Hperm.
  pose proof (sort_by_sorted l) as Hsorted.
  set (data := sort_by Qltb id l) in *.
  rewrite <- !(filter_length_perm _ _ _ Hperm).
  assert (length data = length l) as Hlen by by rewrite Hperm.
  assert (0 < length l) as Hpos by (destruct l; [done|simpl; lia]).
  rewrite <- Hlen in *. clear Hperm Hne Hlen. clearbody data.
  remember (length data) as n eqn:Hn_len.
  destruct (Nat.odd n) eqn:Hodd.
  - assert (n = 2 * (n / 2) + 1) as Hn.
    { apply Nat.odd_spec in Hodd as [half Hhalf]. rewrite Hhalf.
      by rewrite half_odd. }
    destruct (split_at data (n / 2) ltac:(lia)) as (before & x & after & Hdata & Hk & ->).
    rewrite Hdata in Hsorted. apply sorted_middle in Hsorted as [Hbefore Hafter].
    assert (length after = n / 2) as Hafter_len.
    { apply (f_equal length) in Hdata. rewrite length_app in Hdata.
      cbn [length] in Hdata. lia. }
    rewrite Hdata. split.
    + pose proof (filter_length_middle (fun s => Qle_bool s x) before x after
        (Forall_Qle_bool_le _ _ Hbefore) ltac:(apply Qle_bool_iff; lra)). lia.
    + pose proof (filter_length_tail (fun s => Qle_bool x s) before x after
        (Forall_Qle_bool_ge _ _ Hafter) ltac:(apply Qle_bool_iff; lra)). lia.
  - assert (n = 2 * (n / 2)) as Hn.
    { rewrite <- Nat.negb_even, negb_false_iff in Hodd.
      apply Nat.even_spec in Hodd as [half Hhalf]. rewrite Hhalf.
      by rewrite half_even. }
    destruct (split_at data (n / 2 - 1) ltac:(lia))
      as (before & x & rest & Hdata & Hk & Hx).
    assert (∃ y after, rest = y :: after ∧ nth (n / 2) data 0%Q = y)
      as (y & after & -> & Hy).
    { destruct rest as [|y after].
      - apply (f_equal length) in Hdata. rewrite length_app in Hdata.
        cbn [length] in Hdata. lia.
      - exists y, after. split; [done|]. rewrite Hdata.
        rewrite app_nth2 by lia.
        replace (n / 2 - length before) with 1 by lia. done. }
    rewrite Hx, Hy.
    assert (length after = n / 2 - 1) as Hafter_len.
    { apply (f_equal length) in Hdata. rewrite length_app in Hdata.
      cbn [length] in Hdata. lia. }
    pose proof Hsorted as Hsorted'. rewrite Hdata in Hsorted.
    apply sorted_middle in Hsorted as [Hbefore [Hxy Hafter_x]%Forall_cons].
    rewrite Hdata in Hsorted'.
    rewrite (cons_middle x), app_assoc in Hsorted'.
    apply sorted_middle in Hsorted' as [_ Hafter].
    set (m := ((x + y) / 2)%Q).
    assert (x <= m <= y)%Q as [Hxm Hmy].
    { unfold m. split.
      - apply Qle_shift_div_l; lra.
      - apply Qle_shift_div_r; lra. }
    rewrite Hdata. split.
    + pose proof (filter_length_middle (fun s => Qle_bool s m) before x (y :: after)
        ltac:(apply Forall_Qle_bool_le; eapply Forall_impl; [exact Hbefore|];
              intros z Hz; cbn in Hz; lra)
        ltac:(by apply Qle_bool_iff)). lia.
    + rewrite (cons_middle x), app_assoc.
      pose proof (filter_length_tail (fun s => Qle_bool m s) (before ++ [x]) y after
        ltac:(apply Forall_Qle_bool_ge; eapply Forall_impl; [exact Hafter|];
              intros z Hz; cbn in Hz; lra)
        ltac:(by apply Qle_bool_iff)). lia.
Qed.
End Median.

(** Property X25.
    [_get_base_font_size] returns 12 for a page on which no span of a
    text block has a size other than zero; otherwise it returns a median
    of the span sizes: at least half of the sizes are no larger than the
    base size, and at least half are no smaller. *)
Theorem base_font_size_is_median (blocks : list layout_block) :
  let font_sizes := flat_map block_sizes blocks in
  let base := get_base_font_size blocks in
  (font_sizes = [] → base = 12%Q) ∧
  length font_sizes
    <= 2 * length (List.filter (fun s => Qle_bool s base) font_sizes) ∧
  length font_sizes
    <= 2 * length (List.filter (fun s => Qle_bool base s) font_sizes).
Proof.
  cbn zeta. unfold get_base_font_size.
  destruct (flat_map block_sizes blocks) as [|s sizes] eqn:Hsizes.
  - split; [done|]. split; cbn; lia.
  - split; [done|]. by apply median_halves.
Qed.

(** * The text around a table *)

Lemma split_blocks_malformed table_rect blocks above below block :
  block ∈ blocks →
  lb_type block = None ∨ (is_text_block block = true ∧ lb_bbox block = None) →
  split_blocks table_rect blocks above below = None.
Proof.
  intros Hin Hbad.
  induction blocks as [|b blocks IH] in above, below, Hin |- *.
  { by apply elem_of_nil in Hin. }
  cbn [split_blocks].
  apply elem_of_cons in Hin as [<-|Hin].
  - destruct Hbad as [->|[Htext Hbox]]; [done|].
    unfold is_text_block in Htext.
    destruct (lb_type block) as [type|]; [|done]. cbn [mbind option_bind].
    by rewrite Htext, Hbox.
  - destruct (lb_type b) as [type|]; [|done]. cbn [mbind option_bind].
    destruct (py_eq type (PInt 0)); [|by apply IH].
    destruct (lb_bbox b) as [block_rect|]; [|done]. cbn [mbind option_bind].
    by apply IH.
Qed.

(** Property X26.
    One malformed block blanks the context: when any block of the page
    has no [type], or is a text block without a [bbox], whatever its
    position, [_get_table_context] returns the empty string for every
    table of the page. *)
Theorem table_context_blank_on_malformed_block (blocks : list layout_block)
    (bbox : pyval) (context_range : nat) (block : layout_block) :
  block ∈ blocks →
  lb_type block = None ∨ (is_text_block block = true ∧ lb_bbox block = None) →
  get_table_context (Some blocks) bbox context_range = "".
Proof.
  intros Hin Hbad. unfold get_table_context, table_context.
  cbn [mbind option_bind].
  destruct (rect_of bbox) as [table_rect|]; [|done]. cbn [mbind option_bind].
  by rewrite (split_blocks_malformed _ _ _ _ block).
Qed.

Lemma split_blocks_beside table_rect blocks above below :
  Forall well_formed_block blocks →
  split_blocks table_rect blocks above below =
  split_blocks table_rect (List.filter (beside table_rect) blocks) above below.
Proof.
  induction 1 as [|block blocks [[type Htype] Hbox] _ IH] in above, below |- *;
    [done|].
  cbn [split_blocks List.filter]. unfold beside at 1.
  unfold is_text_block in Hbox |- *. rewrite Htype in Hbox |- *.
  cbn [mbind option_bind].
  destruct (py_eq type (PInt 0)) eqn:Htext; cbn [andb]; [|apply IH].
  destruct (Hbox eq_refl) as [block_rect Hrect]. rewrite Hrect.
  cbn [mbind option_bind].
  destruct (Qltb (ry1 block_rect) (ry0 table_rect)) eqn:Habove;
    destruct (Qltb (ry1 table_rect) (ry0 block_rect)) eqn:Hbelow;
    cbn [orb split_blocks]; rewrite ?Htype; cbn [mbind option_bind];
    rewrite ?Htext, ?Hrect; cbn [mbind option_bind];
    rewrite ?Habove, ?Hbelow; apply IH.
Qed.

(** Property X27.
    Only the text blocks that end strictly above the table or start
    strictly below it count: on a page whose blocks are well formed the
    context is the same as if every other block (images, and text blocks
    level with the table) were not there.  When no block is left, the
    context is a single newline, not the empty string. *)
Theorem table_context_ignores_other_blocks (blocks : list layout_block)
    (bbox : pyval) (context_range : nat) (table_rect : rect) :
  rect_of bbox = Some table_rect →
  Forall well_formed_block blocks →
  get_table_context (Some blocks) bbox context_range =
    get_table_context (Some (List.filter (beside table_rect) blocks))
      bbox context_range ∧
  (List.filter (beside table_rect) blocks = [] →
   get_table_context (Some blocks) bbox context_range = newline).
Proof.
  intros Hrect Hblocks.
  assert (get_table_context (Some blocks) bbox context_range =
          get_table_context (Some (List.filter (beside table_rect) blocks))
            bbox context_range) as Heq.
  { unfold get_table_context, table_context. cbn [mbind option_bind].
    rewrite Hrect. cbn [mbind option_bind].
    by rewrite (split_blocks_beside _ blocks). }
  split; [exact Heq|].
  intros Hnone. rewrite Heq, Hnone.
  unfold get_table_context, table_context. cbn [mbind option_bind].
  rewrite Hrect. cbn [mbind option_bind split_blocks].
  by destruct context_range.
Qed.

(** * The document loop *)

Section DocumentFacts.
Context `{ObjectStr} `{InterruptedSort} `{PyFloat}.

Lemma add_page_info_page p page_number (t : table) :
  add_page_info p page_number t !! "page" = Some (PInt page_number).
Proof.
  unfold add_page_info. destruct (_ !! "region"); by lookup_dict.
Qed.

Lemma add_page_info_data p page_number (t : table) :
  add_page_info p page_number t !! "data" = t !! "data".
Proof.
  unfold add_page_info. destruct (_ !! "region"); by lookup_dict.
Qed.

Lemma refine_each_without_data (page_tables : list table) :
  Forall (fun t : table => t !! "data" = None) page_tables →
  refine_each page_tables = page_tables.
Proof.
  induction 1 as [|t l Ht _ IH]; cbn [refine_each]; [done|].
  rewrite refine_without_data by (by left). by rewrite IH.
Qed.

Lemma flat_map_ext_elem {X Y} (f g : X → list Y) (l : list X) :
  (∀ x, x ∈ l → f x = g x) → flat_map f l = flat_map g l.
Proof.
  induction l as [|x l IH]; cbn [flat_map]; [done|]. intros Hfg.
  rewrite (Hfg x) by constructor. f_equal. apply IH.
  intros y Hy. apply Hfg. by constructor.
Qed.

Lemma merge_tables_page (table1 table2 m : table) :
  merge_tables table1 table2 = Some m → m !! "page" = table1 !! "page".
Proof.
  intros (text1 & text2 & _ & _ & ->)%merge_tables_unfold.
  rewrite !lookup_insert_ne by done.
  destruct (table1 !! "data") as [[]|]; try done.
  destruct (table2 !! "data") as [[]|]; try done.
  by rewrite lookup_insert_ne.
Qed.

Lemma all_tables_pages cfg recognizer (doc : list pdf_page) (t : table) :
  t ∈ flat_map (fun it : nat * pdf_page =>
                  extract_page_tables cfg recognizer it.2 (Z.of_nat it.1 + 1))
               (enumerate doc) →
  ∃ n, t !! "page" = Some (PInt n) ∧ (1 <= n <= Z.of_nat (length doc))%Z.
Proof.
  intros ([i p] & Hin & Ht)%list_elem_of_In%in_flat_map.
  apply list_elem_of_In, enumerate_lookup, lookup_lt_Some in Hin.
  apply list_elem_of_In in Ht. cbn [fst snd] in Ht.
  unfold extract_page_tables in Ht.
  apply list_elem_of_fmap in Ht as (t0 & -> & _).
  exists (Z.of_nat i + 1)%Z. split; [apply add_page_info_page|lia].
Qed.

(** Property X29.
    Every table [extract_tables] returns carries the number of a page of
    the document, counted from 1, cross-page merges included: a merged
    table keeps the page of its first part. *)
Theorem extract_tables_page_numbers has_camelot has_tabula has_pdfplumber
    cfg recognizer (doc : list pdf_page) (tables : list table) :
  extract_tables has_camelot has_tabula has_pdfplumber cfg recognizer doc
    = Returned tables ∨
  extract_tables has_camelot has_tabula has_pdfplumber cfg recognizer doc
    = Recovered tables →
  Forall (fun t : table =>
            ∃ n, t !! "page" = Some (PInt n) ∧
                 (1 <= n <= Z.of_nat (length doc))%Z)
    tables.
Proof.
  unfold extract_tables.
  destruct (negb _).
  { intros [[= <-]|?]; [constructor|done]. }
  set (all_tables := flat_map _ _).
  assert (∀ t, t ∈ all_tables →
            ∃ n, t !! "page" = Some (PInt n) ∧
                 (1 <= n <= Z.of_nat (length doc))%Z) as Hall.
  { intros t. apply all_tables_pages. }
  clearbody all_tables.
  case_bool_decide.
  - intros [_ Hfrom]%handle_from_input.
    eapply Forall_impl; [exact Hfrom|].
    intros t [Ht|(t1 & t2 & Ht1 & _ & Hm)]; [by apply Hall|].
    rewrite (merge_tables_page _ _ _ Hm). by apply Hall.
  - intros [[= <-]|?]; [|done]. by apply Forall_forall.
Qed.

(** Property X30.
    The refinement step of the page loop changes nothing for tables
    without [data]: when the backends of every page return such tables,
    as the three converters do, [extract_tables] gives the same result
    with and without a table structure recognizer. *)
Theorem extract_tables_without_data has_camelot has_tabula has_pdfplumber
    cfg (doc : list pdf_page) :
  (∀ p call tables (t : table),
     p ∈ doc → pg_backends p call = Some tables → t ∈ tables →
     t !! "data" = None) →
  extract_tables has_camelot has_tabula has_pdfplumber cfg true doc =
  extract_tables has_camelot has_tabula has_pdfplumber cfg false doc.
Proof.
  intros Hdata. unfold extract_tables.
  destruct (negb _); [done|].
  assert (flat_map (fun it : nat * pdf_page =>
                      extract_page_tables cfg true it.2 (Z.of_nat it.1 + 1))
                   (enumerate doc) =
          flat_map (fun it : nat * pdf_page =>
                      extract_page_tables cfg false it.2 (Z.of_nat it.1 + 1))
                   (enumerate doc)) as ->; [|done].
  apply flat_map_ext_elem. intros [i p] Hin. cbn [fst snd].
  apply enumerate_lookup, list_elem_of_lookup_2 in Hin.
  unfold extract_page_tables. cbn [andb].
  set (r := extract_tables_unified _ _ _ _).
  destruct (is_nil r.1) eqn:Hnil; [done|]. cbn [negb].
  rewrite refine_each_without_data; [done|].
  destruct (unified_last_call (pg_backends p) (page_context p) cfg
              (detect_table_borders (border_view p))) as [_ Hlast].
  fold r in Hlast.
  destruct Hlast as (call & tables & _ & Hrun & -> & _).
  { intros Hr. by rewrite Hr in Hnil. }
  apply Forall_fmap, Forall_forall. intros t Ht. unfold compose.
  rewrite add_context_data. by eapply Hdata.
Qed.
End DocumentFacts.

(* ================================================================== *)
(** * The sample inputs, run *)
(* ================================================================== *)

#[local] Existing Instance display_str.
#[local] Existing Instance sort_untouched.
#[local] Existing Instance binary64.

(** ** Strings *)

Example lower_ex : lower "Name Of CITY" = "name of city".
Proof. reflexivity. Qed.

Example strip_ex : strip "  Age  " = "Age".
Proof. reflexivity. Qed.

Example normalize_ws_ex :
  normalize_ws "  unit   price  (USD) " = "unit price (USD)".
Proof. reflexivity. Qed.

Example table_id_ex : table_id 12 0 = "table_12_1".
Proof. reflexivity. Qed.

Example lev_distance_ex :
  lev_distance (list_ascii_of_string "kitten") (list_ascii_of_string "sitting") = 3.
Proof. reflexivity. Qed.

Example string_similarity_ex :
  string_similarity "Sitting" " kitten" = (1 - 3 / 7)%Q ∧
  string_similarity "kitten" "SITTING " = (1 - 3 / 7)%Q.
Proof. split; vm_compute; reflexivity. Qed.

(** One header in three differs by one letter in four: 2 of 3 columns
    are similar, which is not more than 0.7. *)
Example are_headers_similar_ex :
  are_headers_similar (PList name_age_city)
    (PList [PStr " name"; PStr "AGE"; PStr "Cty"]) = false ∧
  are_headers_similar (PList name_age_city)
    (PList [PStr " name"; PStr "AGE"; PStr "city "]) = true.
Proof. split; vm_compute; reflexivity. Qed.

(** Two identical header lists with a blank column out of two are not
    similar: the blank pair scores 0. *)
Example are_headers_similar_blank :
  are_headers_similar (PList [PStr ""; PStr "a"]) (PList [PStr ""; PStr "a"])
  = false.
Proof. vm_compute. reflexivity. Qed.

(** Widths 100 and 98 are compatible, widths 100 and 70 are not. *)
Example are_tables_related_ex :
  are_tables_related rows_page3 rows_page4 = Some true ∧
  are_tables_related rows_page3
    (<["bbox" := PTuple [PInt 10; PInt 20; PInt 80; PInt 90]]> rows_page4)
  = Some false.
Proof. split; vm_compute; reflexivity. Qed.

(** ** Cross-page merge *)

(** The specification's example with tables that carry [data] and
    [text]: the pass fuses them, and the header row of page 4 is left
    out. *)
Lemma merge_tables_with_data :
  merge_tables data_page3 data_page4 = Some data_pages_merged ∧
  handle_cross_page_tables [data_page3; data_page4] = Returned [data_pages_merged] ∧
  data_pages_merged !! "data"
    = Some (py_rows (name_age_city :: staff_rows_3 ++ staff_rows_4)) ∧
  data_pages_merged !! "page_range" = Some (PList [PInt 3; PInt 4]) ∧
  data_pages_merged !! "bbox" = data_page3 !! "bbox".
Proof.
  assert (Hm : merge_tables data_page3 data_page4 = Some data_pages_merged)
    by (vm_compute; reflexivity).
  destruct (merge_tables_spec data_page3 data_page4 data_pages_merged Hm)
    as (Hdata & _ & _ & Hrange & _ & _ & Hrest).
  split; [exact Hm|]. split; [vm_compute; reflexivity|].
  split; [|split].
  - rewrite (Hdata (PList <$> name_age_city :: staff_rows_3)
                   (PList <$> name_age_city :: staff_rows_4));
      vm_compute; reflexivity.
  - rewrite Hrange. vm_compute. reflexivity.
  - apply Hrest. vm_compute. intros Hin.
    repeat (apply elem_of_cons in Hin as [Hin|Hin]; [discriminate|]).
    by apply elem_of_nil in Hin.
Defined.

Lemma three_page_tables_one_pass_witness :
  handle_cross_page_tables [on_page 3; on_page 1; on_page 2]
  = Returned [pages_1_2_merged; on_page 3].
Proof.
  apply (three_page_tables_one_pass (on_page 1) (on_page 2) (on_page 3));
    [ apply (Permutation_cons_append [on_page 1; on_page 2])
    | reflexivity | reflexivity | reflexivity
    | vm_compute; eauto | vm_compute; eauto | vm_compute; eauto
    | vm_compute; reflexivity | vm_compute; reflexivity
    | vm_compute; reflexivity ].
Defined.

(** An exception after the sort: the list comes back sorted, not in the
    order in which it was passed. *)
Lemma recovery_returns_sorted_order :
  handle_cross_page_tables [late_table; early_table]
    = Recovered [early_table; late_table] ∧
  [early_table; late_table] ≠ [late_table; early_table].
Proof.
  split; [vm_compute; reflexivity|].
  intros Heq. apply (f_equal (fun l => (default ∅ (head l)) !! "page")) in Heq.
  vm_compute in Heq. discriminate.
Qed.

(** The three places of an exception: the scan, a sort key, and a
    comparison of the sort. *)
Lemma handle_cross_page_tables_recovery_witness :
  handle_cross_page_tables [late_table; early_table]
    = Recovered [early_table; late_table] ∧
  [early_table; late_table] ≡ₚ [late_table; early_table] ∧
  handle_cross_page_tables [late_table; unboxed_table]
    = Recovered [late_table; unboxed_table] ∧
  handle_cross_page_tables [top_none_table; top_five_table]
    = Recovered (interrupted_sort
                   [((PInt 1, PNone), top_none_table);
                    ((PInt 1, PInt 5), top_five_table)]).
Proof.
  destruct (handle_cross_page_tables_recovery [late_table; early_table])
    as (_ & Hperm & _ & _ & Hscan).
  destruct (handle_cross_page_tables_recovery [late_table; unboxed_table])
    as (_ & _ & Hkey & _ & _).
  destruct (handle_cross_page_tables_recovery [top_none_table; top_five_table])
    as (_ & _ & _ & Hsort & _).
  assert (Hpass : handle_cross_page_tables [late_table; early_table]
                  = Recovered [early_table; late_table]).
  { apply (Hscan [(PInt 2, PInt 0); (PInt 1, PInt 0)]
                 [((PInt 1, PInt 0), early_table); ((PInt 2, PInt 0), late_table)]);
      [simpl; lia|vm_compute; reflexivity..]. }
  split; [exact Hpass|]. split; [apply (Hperm _ Hpass)|]. split.
  - apply Hkey; [simpl; lia|vm_compute; reflexivity].
  - apply (Hsort [(PInt 1, PNone); (PInt 1, PInt 5)]);
      [simpl; lia|vm_compute; reflexivity..].
Defined.

(** [<] orders numbers, strings, lists and tuples, and raises on [None]
    and on operands of two kinds. *)
Example py_lt_ex :
  py_lt (PInt 2) (PFloat (5 # 2)) = Some true ∧
  py_lt (PStr "Age") (PStr "Name") = Some true ∧
  py_lt (PStr "Name") (PStr "Na") = Some false ∧
  py_lt (PList [PInt 1; PInt 2]) (PList [PInt 1; PInt 3]) = Some true ∧
  py_lt (PList [PInt 1]) (PList [PInt 1; PNone]) = Some true ∧
  py_lt (PList [PInt 1; PStr "a"]) (PList [PInt 1; PInt 5]) = None ∧
  py_lt PNone (PInt 5) = None ∧
  py_lt (PStr "5") (PInt 5) = None ∧
  py_lt (PList []) (PTuple []) = None.
Proof. repeat split; vm_compute; reflexivity. Qed.

(** ** Similarity *)

Lemma string_similarity_of_spaces :
  "   " ≠ "" ∧ string_similarity "   " "   " = 0%Q ∧
  ¬ (string_similarity "   " "   " == 1)%Q.
Proof.
  split; [discriminate|]. split; [vm_compute; reflexivity|].
  vm_compute. discriminate.
Qed.

Lemma are_headers_similar_spec_witness :
  length name_age_city = length name_age_city ∧ name_age_city ≠ [] ∧
  are_headers_similar (PList name_age_city) (PList name_age_city) = true.
Proof.
  split; [reflexivity|]. split; [discriminate|].
  destruct (are_headers_similar_spec name_age_city name_age_city)
    as (_ & Hratio & _).
  apply Hratio; [reflexivity|discriminate|]. vm_compute. reflexivity.
Defined.

(** ** Refinement *)

(** A second pass prunes the column that the promotion of the header row
    left blank. *)
Lemma refine_not_idempotent :
  refine_table_structure sparse_table = Some sparse_refined ∧
  refine_table_structure sparse_refined = Some sparse_refined_twice ∧
  sparse_refined !! "data" = Some (py_rows [[PStr "a"; PStr ""]]) ∧
  sparse_refined_twice !! "data" = Some (py_rows [[PStr "a"]]) ∧
  sparse_refined_twice ≠ sparse_refined.
Proof.
  repeat split; try (vm_compute; reflexivity).
  intros Heq. apply (f_equal (fun t : table => t !! "data")) in Heq.
  vm_compute in Heq. discriminate.
Qed.

Lemma refine_idempotent_when_pruned_witness :
  refine_table_structure dense_table = Some dense_refined ∧
  fully_pruned dense_refined ∧
  refine_table_structure dense_refined = Some dense_refined.
Proof.
  assert (Hone : refine_table_structure dense_table = Some dense_refined)
    by (vm_compute; reflexivity).
  assert (Hpruned : fully_pruned dense_refined).
  { intros rows Hrows.
    assert (Hdata : dense_refined !! "data"
                    = Some (PList (PList <$> [[PStr "a b"; PStr "c"]])))
      by (vm_compute; reflexivity).
    rewrite Hdata in Hrows. injection Hrows as Hrows.
    destruct rows as [|row [|row' rows]]; try discriminate.
    injection Hrows as <-. split; repeat constructor. }
  split; [exact Hone|]. split; [exact Hpruned|].
  destruct (refine_idempotent_when_pruned dense_table dense_refined Hone)
    as [Hfix _].
  exact (Hfix Hpruned).
Defined.

(** The third pass over [sparse_table] changes nothing. *)
Lemma refine_sparse_thrice :
  refine_table_structure sparse_refined_twice = Some sparse_refined_twice.
Proof. vm_compute. reflexivity. Qed.

(** The example of the specification. *)
Lemma refine_padded_table :
  refine_table_structure padded_table
  = Some (refined_table padded_table [PStr "a"; PStr "b"; PStr "c"] []).
Proof. vm_compute. reflexivity. Qed.

(** ** Converters *)

(** Claim C3, at a data frame of two rows with header extraction on: the
    camelot and the tabula converter emit one row and [num_rows = 2]; the
    pdfplumber converter emits one row and [num_rows = 1]. *)
Theorem num_rows_after_header_extraction :
  let c := camelot_table_dict default_config 7 "lattice" 0 sample_camelot_table in
  let t := tabula_table_dict default_config 7 true 0 sample_df in
  let p := pdfplumber_table_dict default_config 7 "text" "text" 0
             [[Some "h1"; Some "h2"]; [Some "a"; Some "b"]] in
  extract_with_camelot default_config 7 "lattice" (Some [sample_camelot_table]) = [c] ∧
  extract_with_tabula default_config 7 true (Some [sample_df]) = [t] ∧
  c !! "rows" = Some (py_rows [[PStr "a"; PStr "b"]]) ∧
  c !! "num_rows" = Some (PInt 2) ∧
  t !! "rows" = Some (py_rows [[PStr "a"; PStr "b"]]) ∧
  t !! "num_rows" = Some (PInt 2) ∧
  p !! "rows" = Some (py_rows [[PStr "a"; PStr "b"]]) ∧
  p !! "num_rows" = Some (PInt 1).
Proof. repeat split; vm_compute; reflexivity. Qed.

Lemma refine_identity_on_backend_tables_witness :
  let t := tabula_table_dict default_config 7 false 0 sample_df in
  t ∈ extract_with_tabula default_config 7 false (Some [sample_df]) ∧
  refine_table_structure t = Some t.
Proof.
  intros t.
  assert (Hin : t ∈ extract_with_tabula default_config 7 false (Some [sample_df])).
  { vm_compute. apply list_elem_of_here. }
  split; [exact Hin|].
  destruct (refine_identity_on_backend_tables (fun _ => None))
    as (_ & _ & Htabula & _).
  apply (Htabula default_config 7%Z false (Some [sample_df]) t Hin).
Defined.

(** ** Fallback and borders *)

Lemma fallback_order_spec_witness :
  (primary_attempt sample_backends
     (resolve_method default_config true) true ([], [])).1 = [] ∧
  cfg_fallback_to_heuristic default_config = true ∧
  extract_tables_unified sample_backends (fun _ => Some "above") default_config true
  = ([add_context (fun _ => Some "above") rows_page3],
     [CallCamelot "lattice"; CallTabula true true; CallPdfplumber]).
Proof.
  split; [reflexivity|]. split; [reflexivity|].
  destruct (fallback_order_spec sample_backends (fun _ => Some "above")
              default_config true) as [_ Hretry].
  rewrite Hretry by reflexivity. vm_compute. reflexivity.
Defined.

(** A segment is measured as Python measures it: the length of
    [grazing_line] rounds to [10.0], so the segment counts as a horizontal
    line; the length of [remote_line] overflows, which ends the
    inspection. *)
Example count_item_rounds :
  count_item (0, 0) grazing_line = Some (1, 0) ∧
  count_item (0, 0) (hline 25) = Some (1, 0) ∧
  count_item (0, 0) (vline 100) = Some (0, 1) ∧
  count_item (0, 0) remote_line = None ∧
  detect_table_borders
    {| get_drawings := Some [ {| path_items := Some [remote_line];
                                 path_type := Some "s" |} ];
       get_text_blocks := Some [ {| block_type := Some (PInt 1) |} ] |}
  = false.
Proof. repeat split; vm_compute; reflexivity. Qed.


(** ** Similarity *)

Lemma string_similarity_one_iff_witness :
  (string_similarity " Name" "NAME " == 1)%Q.
Proof.
  apply (string_similarity_one_iff " Name" "NAME ").
  split; reflexivity.
Defined.

(** ** The cross-page pass *)

Lemma handle_cross_page_tables_from_input_witness :
  handle_cross_page_tables [data_page3; data_page4] = Returned [data_pages_merged] ∧
  length [data_pages_merged] <= length [data_page3; data_page4] ∧
  Forall (from_input [data_page3; data_page4]) [data_pages_merged].
Proof.
  assert (Hpass : handle_cross_page_tables [data_page3; data_page4]
                  = Returned [data_pages_merged]) by (vm_compute; reflexivity).
  split; [exact Hpass|].
  apply (handle_cross_page_tables_from_input
           [data_page3; data_page4] [data_pages_merged]).
  left. exact Hpass.
Defined.

Lemma no_merge_without_consecutive_pages_witness :
  ∃ out, handle_cross_page_tables [on_page 3; on_page 1] = Returned out ∧
         out ≡ₚ [on_page 3; on_page 1].
Proof.
  apply (no_merge_without_consecutive_pages [on_page 3; on_page 1]
           [(PInt 3, PInt 0); (PInt 1, PInt 0)]
           [((PInt 1, PInt 0), on_page 1); ((PInt 3, PInt 0), on_page 3)]).
  - repeat constructor; eexists; vm_compute; reflexivity.
  - intros t1 t2 n1 n2 Ht1 Ht2 Hn1 Hn2.
    repeat (apply elem_of_cons in Ht1 as [->|Ht1]);
      try (by apply elem_of_nil in Ht1);
      repeat (apply elem_of_cons in Ht2 as [->|Ht2]);
      try (by apply elem_of_nil in Ht2);
      vm_compute in Hn1, Hn2; injection Hn1 as <-; injection Hn2 as <-; lia.
  - vm_compute. reflexivity.
  - vm_compute. reflexivity.
Defined.

(** ** Refinement and converters *)

Lemma refine_writes_three_keys_witness :
  ∃ t', refine_table_structure data_page3 = Some t' ∧
        t' !! "bbox" = data_page3 !! "bbox" ∧
        t' !! "refined" = Some (PBool true).
Proof.
  assert (∃ t', refine_table_structure data_page3 = Some t') as [t' Hrefine]
    by (eexists; vm_compute; reflexivity).
  exists t'. split; [exact Hrefine|].
  destruct (refine_writes_three_keys data_page3 t' Hrefine) as [Hkeys Hflag].
  split.
  - apply Hkeys; discriminate.
  - apply (Hflag (py_rows (name_age_city :: staff_rows_3)));
      vm_compute; reflexivity.
Defined.

Lemma refined_cells_normalized_witness :
  ∃ hs rows,
    dense_refined !! "headers" = Some (PList hs) ∧
    dense_refined !! "data" = Some (py_rows rows) ∧
    Forall normalized_cell hs ∧ Forall (Forall normalized_cell) rows.
Proof.
  apply (refined_cells_normalized dense_table dense_refined
           (py_rows [[PStr " h1"; PStr "h2 "]; [PStr "a  b"; PStr "c"]]));
    vm_compute; reflexivity.
Defined.

Lemma camelot_tables_meet_threshold_witness :
  let t := camelot_table_dict default_config 7 "lattice" 0 sample_camelot_table in
  ∃ i tbl,
    [sample_camelot_table] !! i = Some tbl ∧
    (cfg_min_confidence default_config <= cam_accuracy tbl)%Q ∧
    t !! "confidence" = Some (PFloat (cam_accuracy tbl / 100)) ∧
    t !! "id" = Some (PStr (table_id 7 i)).
Proof.
  intros t.
  apply (camelot_tables_meet_threshold default_config 7 "lattice"
           [sample_camelot_table] t).
  assert (extract_with_camelot default_config 7 "lattice"
            (Some [sample_camelot_table]) = [t]) as ->
    by (vm_compute; reflexivity).
  apply list_elem_of_here.
Defined.

Lemma converters_keep_all_rows_witness :
  ∃ header rows,
    tabula_table_dict default_config 7 false 0 sample_df !! "headers"
      = Some (PList header) ∧
    tabula_table_dict default_config 7 false 0 sample_df !! "rows"
      = Some (py_rows rows) ∧
    head (df_values sample_df) = Some header ∧
    header :: rows = df_values sample_df.
Proof.
  destruct (converters_keep_all_rows default_config 7 "lattice" false 0
              sample_camelot_table sample_df) as [_ Htabula];
    [reflexivity|reflexivity|].
  exact Htabula.
Defined.

Lemma pdfplumber_cells_trimmed_witness :
  let t := pdfplumber_table_dict default_config 2 "lines" "lines" 0
             sample_plumber_table in
  ∃ header rows,
    t !! "headers" = Some (PList header) ∧ t !! "rows" = Some (py_rows rows) ∧
    Forall trimmed_text header ∧ Forall (Forall trimmed_text) rows.
Proof.
  intros t.
  apply (pdfplumber_cells_trimmed default_config 2 "lines" "lines"
           (Some [sample_plumber_table]) t).
  assert (extract_with_pdfplumber default_config 2 "lines" "lines"
            (Some [sample_plumber_table]) = [t]) as ->
    by (vm_compute; reflexivity).
  apply list_elem_of_here.
Defined.

(** ** The unified extraction *)

Lemma unified_calls_distinct_witness :
  length (extract_tables_unified sample_backends (fun _ => Some "above")
            primary_only_config true).2 <= 1.
Proof.
  destruct (unified_calls_distinct sample_backends (fun _ => Some "above")
              primary_only_config true) as (_ & _ & Hone).
  apply Hone. reflexivity.
Defined.

Lemma unified_tables_from_last_call_witness :
  ∃ call tables,
    last (extract_tables_unified sample_backends (fun _ => Some "above")
            default_config true).2 = Some call ∧
    sample_backends call = Some tables ∧
    (extract_tables_unified sample_backends (fun _ => Some "above")
       default_config true).1 = add_context (fun _ => Some "above") <$> tables ∧
    Forall (fruitless sample_backends)
      (List.removelast
         (extract_tables_unified sample_backends (fun _ => Some "above")
            default_config true).2).
Proof.
  destruct (unified_tables_from_last_call sample_backends (fun _ => Some "above")
              default_config true) as [_ Hlast].
  apply Hlast. intros Hnil. apply (f_equal length) in Hnil.
  vm_compute in Hnil. discriminate.
Defined.

(** ** Regions *)

Lemma regions_overlap_common_point_witness :
  ∃ answer,
    regions_overlap (PList [PInt 0; PInt 0; PInt 10; PInt 10])
                    (PTuple [PInt 10; PInt 5; PInt 20; PInt 8]) = Some answer ∧
    (answer = true ↔
     ∃ x y : Q, (0 <= x <= 10)%Q ∧ (0 <= y <= 10)%Q ∧
                (10 <= x <= 20)%Q ∧ (5 <= y <= 8)%Q).
Proof.
  apply (regions_overlap_common_point
           (PList [PInt 0; PInt 0; PInt 10; PInt 10])
           (PTuple [PInt 10; PInt 5; PInt 20; PInt 8]) 0 0 10 10 10 5 20 8);
    first [reflexivity | unfold Qle; simpl; lia].
Defined.

Lemma regions_overlap_sym_witness :
  regions_overlap (PList [PInt 0; PInt 0; PInt 10; PInt 10])
                  (PTuple [PInt 10; PInt 5; PInt 20; PInt 8]) =
  regions_overlap (PTuple [PInt 10; PInt 5; PInt 20; PInt 8])
                  (PList [PInt 0; PInt 0; PInt 10; PInt 10]) ∧
  regions_overlap (PList [PInt 0; PInt 0; PInt 10; PInt 10])
                  (PList [PInt 0; PInt 0; PInt 10; PInt 10]) = Some true.
Proof.
  destruct (regions_overlap_sym
              (PList [PInt 0; PInt 0; PInt 10; PInt 10])
              (PTuple [PInt 10; PInt 5; PInt 20; PInt 8]) 0 0 10 10 10 5 20 8)
    as [Hsym Hself]; [reflexivity|reflexivity|].
  split; [exact Hsym|].
  apply Hself. split; unfold Qle; simpl; lia.
Defined.

(** ** Page layout *)

Lemma element_type_monotone_witness :
  type_rank (determine_element_type 12 12 false (el_bbox line_one))
  <= type_rank (determine_element_type 18 12 true (el_bbox line_two)).
Proof.
  apply (element_type_monotone 12 18 12 false true).
  - unfold Qle. simpl. lia.
  - discriminate.
Defined.

Lemma plain_text_iff_witness :
  determine_element_type 11 12 false (el_bbox line_one) = "text".
Proof.
  apply (plain_text_iff 11 12 false (el_bbox line_one)).
  - reflexivity.
  - split; [reflexivity|]. unfold Qle. simpl. lia.
Defined.

Lemma merge_related_elements_cover_witness :
  ∃ m, m ∈ merge_related_elements (1 # 2) [line_one; line_two] ∧
       el_type m = el_type line_two ∧
       rect_within (el_bbox line_two) (el_bbox m).
Proof.
  apply (merge_related_elements_cover (1 # 2) [line_one; line_two] line_two).
  apply list_elem_of_further, list_elem_of_here.
Defined.

Lemma merge_related_elements_text_witness :
  merge_related_elements (1 # 2) [] = [].
Proof.
  destruct (merge_related_elements_text (1 # 2) []) as (_ & _ & Hempty).
  apply Hempty. reflexivity.
Defined.

Lemma base_font_size_is_median_witness :
  get_base_font_size [image_block; broken_block] = 12%Q.
Proof.
  destruct (base_font_size_is_median [image_block; broken_block])
    as (Hdefault & _ & _).
  apply Hdefault. reflexivity.
Defined.

(** ** Table context *)

Lemma table_context_blank_on_malformed_block_witness :
  get_table_context (Some (sample_blocks ++ [broken_block]))
    sample_table_bbox 3 = "".
Proof.
  apply (table_context_blank_on_malformed_block
           (sample_blocks ++ [broken_block]) sample_table_bbox 3 broken_block).
  - vm_compute. do 4 apply list_elem_of_further. apply list_elem_of_here.
  - left. reflexivity.
Defined.

Lemma table_context_ignores_other_blocks_witness :
  get_table_context (Some sample_blocks) sample_table_bbox 3 =
  get_table_context
    (Some [text_block_at 40 52 "Table 1: staff"; text_block_at 320 332 "Source: HR"])
    sample_table_bbox 3.
Proof.
  destruct (table_context_ignores_other_blocks sample_blocks sample_table_bbox 3
              {| rx0 := 50; ry0 := 100; rx1 := 300; ry1 := 300 |})
    as [Hsame _].
  - reflexivity.
  - repeat constructor; try (vm_compute; eauto); try discriminate.
  - exact Hsame.
Defined.


(** ** The document loop *)

Lemma extract_tables_page_numbers_witness :
  ∃ tables,
    extract_tables true true true default_config false sample_doc
      = Returned tables ∧
    Forall (fun t : table =>
              ∃ n, t !! "page" = Some (PInt n) ∧
                   (1 <= n <= Z.of_nat (length sample_doc))%Z)
      tables.
Proof.
  destruct (extract_tables true true true default_config false sample_doc)
    as [tables|tables] eqn:Hrun;
    [|by vm_compute in Hrun].
  exists tables. split; [reflexivity|].
  apply (extract_tables_page_numbers true true true default_config false
           sample_doc tables).
  left. exact Hrun.
Defined.

Lemma extract_tables_without_data_witness :
  extract_tables true true true default_config true sample_doc =
  extract_tables true true true default_config false sample_doc.
Proof.
  apply (extract_tables_without_data true true true default_config sample_doc).
  intros p call tables t Hp Hcall Ht.
  assert (p = sample_pdf_page) as ->.
  { repeat (apply elem_of_cons in Hp as [->|Hp]); try done.
    by apply elem_of_nil in Hp. }
  destruct call; cbn in Hcall; injection Hcall as <- || discriminate Hcall.
  - by apply elem_of_nil in Ht.
  - apply list_elem_of_singleton in Ht as ->. reflexivity.
Defined.
